(** * Ride and Pickup DBMS: client-side validation, error mapping and forms

    A shallow embedding of the JavaScript sources

    - [frontend/src/components/utils/validation.js] (module [Validation]),
    - [frontend/src/services/api.js] (module [Api]),
    - the payment, ride and vehicle forms (modules [PaymentForm],
      [RideForm], [VehicleForm]),

    together with the fragment of the ECMAScript standard library these
    sources call (module [JS]).  Strings are sequences of UTF-16 code
    units, exceptions are explicit ([completion]), and everything that
    depends on the machine the code runs on (clock, time zone, the
    date parser) is passed in a [host] record. *)

From Stdlib Require Import ZArith NArith List String Ascii Bool Lia.
From stdpp Require Import base decidable option list gmap strings.

(** ** The ECMAScript fragment *)

Module JS.

(** *** Strings *)

(** A JavaScript string is a finite sequence of 16-bit code units;
    [length], [indexOf], [substring] and the regular expressions without
    the [u] flag all count code units. *)
Definition jsstring := list N.

(** The code units of an ASCII literal of the source. *)
Definition str (s : string) : jsstring :=
  N_of_ascii <$> list_ascii_of_string s.

(** Longest prefix whose elements satisfy [p], and the remainder. *)
Fixpoint span (p : N -> bool) (s : jsstring) : jsstring * jsstring :=
  match s with
  | c :: t => if p c then let '(a, b) := span p t in (c :: a, b) else ([], s)
  | [] => ([], [])
  end.

Fixpoint starts_with (pre s : jsstring) : bool :=
  match pre, s with
  | [], _ => true
  | p :: pre', c :: s' => (p =? c)%N && starts_with pre' s'
  | _ :: _, [] => false
  end.

(** [String.prototype.includes(needle)]. *)
Fixpoint includes (s needle : jsstring) : bool :=
  starts_with needle s ||
  match s with
  | [] => false
  | _ :: t => includes t needle
  end.

(** [String.prototype.indexOf(c)] for a one-unit needle; [None] is -1. *)
Fixpoint indexOf (s : jsstring) (c : N) : option nat :=
  match s with
  | [] => None
  | x :: t => if (x =? c)%N then Some 0%nat else S <$> indexOf t c
  end.

(** [String.prototype.substring(start)]. *)
Definition substring (s : jsstring) (start : nat) : jsstring := drop start s.

(** WhiteSpace and LineTerminator code units (ECMA-262, 12.2 and 12.3):
    TAB, LF, VT, FF, CR, SP, NBSP, the Unicode space separators, LS, PS
    and the byte order mark. *)
Definition isWhiteSpace (c : N) : bool :=
  ((9 <=? c) && (c <=? 13) || (c =? 32) || (c =? 160) || (c =? 5760)
   || (8192 <=? c) && (c <=? 8202) || (c =? 8232) || (c =? 8233)
   || (c =? 8239) || (c =? 8287) || (c =? 12288) || (c =? 65279))%N.

Fixpoint trimStart (s : jsstring) : jsstring :=
  match s with
  | c :: t => if isWhiteSpace c then trimStart t else s
  | [] => []
  end.

Definition trimEnd (s : jsstring) : jsstring := rev (trimStart (rev s)).

(** [String.prototype.trim]. *)
Definition trim (s : jsstring) : jsstring := trimEnd (trimStart s).

Definition isDigit (c : N) : bool := ((48 <=? c) && (c <=? 57))%N.
Definition isUpper (c : N) : bool := ((65 <=? c) && (c <=? 90))%N.
Definition isLower (c : N) : bool := ((97 <=? c) && (c <=? 122))%N.
Definition isLetter (c : N) : bool := isUpper c || isLower c.

(** Lower-case image of one code unit.  The result of [toLowerCase] is
    only searched for ASCII needles in the sources, so what matters is
    which units produce ASCII letters: the ASCII capitals, KELVIN SIGN
    (U+212A, to k) and LATIN CAPITAL I WITH DOT ABOVE (U+0130, to i
    followed by U+0307).  The Latin-1 capitals are mapped as well; every
    other unit is mapped to itself, which like its true image is not
    ASCII. *)
Definition lower_unit (c : N) : jsstring :=
  if isUpper c then [c + 32]%N
  else if (c =? 8490)%N then [107%N]
  else if (c =? 304)%N then [105%N; 775%N]
  else if ((192 <=? c) && (c <=? 222) && negb (c =? 215))%N then [c + 32]%N
  else [c].

(** [String.prototype.toLowerCase]. *)
Definition toLowerCase (s : jsstring) : jsstring := flat_map lower_unit s.

(** *** Numbers *)

(** Value of a sequence of decimal digits given as code units. *)
Definition digit_val (c : N) : N := (c - 48)%N.

Definition digits_value (ds : jsstring) : N :=
  fold_left (fun acc c => acc * 10 + digit_val c)%N ds 0%N.

(** A Number value.  A finite non-zero Number is kept as the decimal
    digits [s] (code units '0'..'9', most significant first, [k] of them)
    and the exponent [n] that Number::toString (ECMA-262, 6.1.6.1.20)
    associates with it: its value is [s * 10^(n-k)], with [k] as small as
    possible, so [s] has neither a leading nor a trailing zero.  Every
    IEEE double has exactly one such form, and the sources observe a
    Number only through its string form, [isFinite], and comparisons. *)
Inductive number :=
| NaN
| Infinity (neg : bool)
| Zero (neg : bool)
| Finite (neg : bool) (s : jsstring) (n : Z).

(** The digit sequences that stand for a Number. *)
Definition wf_digits (s : jsstring) : Prop :=
  Forall (fun c => isDigit c = true) s /\
  (exists c t, s = c :: t /\ c <> 48%N) /\
  (exists c t, s = t ++ [c] /\ c <> 48%N).

(** Decimal digits of a non-negative integer, for exponents. *)
Fixpoint digits_of_pos_fuel (fuel : nat) (p : N) (acc : jsstring) : jsstring :=
  match fuel with
  | O => acc
  | S fuel' =>
      let acc' := (48 + p mod 10)%N :: acc in
      if (p / 10 =? 0)%N then acc' else digits_of_pos_fuel fuel' (p / 10)%N acc'
  end.

Definition digits_of_N (p : N) : jsstring :=
  digits_of_pos_fuel (S (N.to_nat (N.log2 p))) p [].

(** Number::toString(x, 10). *)
Definition number_toString (x : number) : jsstring :=
  match x with
  | NaN => str "NaN"
  | Zero _ => str "0"
  | Infinity neg => (if neg then str "-" else []) ++ str "Infinity"
  | Finite neg s n =>
      let k := Z.of_nat (length s) in
      let sign := if neg then str "-" else [] in
      sign ++
      (if ((k <=? n) && (n <=? 21))%Z then
         s ++ replicate (Z.to_nat (n - k)) 48%N
       else if ((0 <? n) && (n <=? 21))%Z then
         take (Z.to_nat n) s ++ str "." ++ drop (Z.to_nat n) s
       else if ((-6 <? n) && (n <=? 0))%Z then
         str "0." ++ replicate (Z.to_nat (- n)) 48%N ++ s
       else
         let e := (n - 1)%Z in
         let exp := str "e" ++ (if (e <? 0)%Z then str "-" else str "+")
                    ++ digits_of_N (Z.abs_N e) in
         match s with
         | [d] => [d] ++ exp
         | d :: ds => [d] ++ str "." ++ ds ++ exp
         | [] => exp
         end)
  end.

(** The integer part of [s * 10^(n-k)], [k = length s]. *)
Definition trunc_digits (s : jsstring) (n : Z) : Z :=
  let k := Z.of_nat (length s) in
  if (k <=? n)%Z then Z.of_N (digits_value s) * 10 ^ (n - k)
  else Z.of_N (digits_value s) / 10 ^ (k - n).

(** The exact real denoted by a numeric literal, before it is rounded to
    a double: [EDec neg m e] is [(-1)^neg * m * 10^e].  What the sources
    do with the rounded value (test it for NaN or finiteness, compare it
    with a constant) is determined by the exact value; the observers
    below say how. *)
Inductive exact :=
| ENaN
| EInf (neg : bool)
| EDec (neg : bool) (m : N) (e : Z).

(** [m * 10^e < p * 2^q] and [m * 10^e > p * 2^q], on integers after
    clearing the negative powers. *)
Definition dec_lt_dyadic (m : N) (e : Z) (p : Z) (q : Z) : bool :=
  (Z.of_N m * 10 ^ Z.max 0 e * 2 ^ Z.max 0 (- q)
   <? p * 2 ^ Z.max 0 q * 10 ^ Z.max 0 (- e))%Z.

Definition dec_gt_dyadic (m : N) (e : Z) (p : Z) (q : Z) : bool :=
  (p * 2 ^ Z.max 0 q * 10 ^ Z.max 0 (- e)
   <? Z.of_N m * 10 ^ Z.max 0 e * 2 ^ Z.max 0 (- q))%Z.

Definition exact_isNaN (x : exact) : bool :=
  match x with ENaN => true | _ => false end.

(** The nearest double is finite: the magnitude is below
    [2^1024 - 2^970], the midpoint between the largest double and
    [2^1024] (the tie rounds to even, away from the largest double). *)
Definition rounds_to_finite (x : exact) : bool :=
  match x with
  | EDec _ m e => dec_lt_dyadic m e (2 ^ 54 - 1) 970
  | _ => false
  end.

(** The nearest double is greater than the non-negative double
    [M * 2^q], whose successor is [(M + 1) * 2^q]: the exact value is
    beyond the midpoint [(2M + 1) * 2^(q-1)], or on it when the tie goes
    up ([M] odd). *)
Definition rounds_above (x : exact) (M : N) (q : Z) : bool :=
  match x with
  | EInf false => true
  | EDec false m e =>
      if N.even M then dec_gt_dyadic m e (2 * Z.of_N M + 1) (q - 1)
      else negb (dec_lt_dyadic m e (2 * Z.of_N M + 1) (q - 1))
  | _ => false
  end.

(** [x > 0]: zero is the double [0 * 2^-1074]. *)
Definition exact_gt_zero (x : exact) : bool := rounds_above x 0 (-1074).

Definition exact_of_number (x : number) : exact :=
  match x with
  | NaN => ENaN
  | Infinity neg => EInf neg
  | Zero neg => EDec neg 0 0
  | Finite neg s n => EDec neg (digits_value s) (n - Z.of_nat (length s))
  end.

(** *** Numeric literals in strings *)

(** An optional sign. *)
Definition scan_sign (s : jsstring) : bool * jsstring :=
  match s with
  | c :: t =>
      if (c =? 45)%N then (true, t)
      else if (c =? 43)%N then (false, t)
      else (false, s)
  | [] => (false, s)
  end.

(** An optional ExponentPart: [e] or [E], an optional sign and at least
    one digit; without a digit nothing is consumed. *)
Definition scan_exponent (s : jsstring) : Z * jsstring :=
  match s with
  | c :: t =>
      if ((c =? 101) || (c =? 69))%N then
        let '(eneg, t1) := scan_sign t in
        let '(ed, t2) := span isDigit t1 in
        match ed with
        | [] => (0%Z, s)
        | _ => ((if eneg then - Z.of_N (digits_value ed)
                 else Z.of_N (digits_value ed))%Z, t2)
        end
      else (0%Z, s)
  | [] => (0%Z, s)
  end.

(** The longest prefix of [s] that is a StrDecimalLiteral (ECMA-262,
    7.1.4.1), with its value and the rest of [s]; [None] when no prefix
    is one. *)
Definition scan_decimal (s : jsstring) : option (exact * jsstring) :=
  let '(neg, s1) := scan_sign s in
  if starts_with (str "Infinity") s1 then Some (EInf neg, drop 8 s1)
  else
    let '(ip, s2) := span isDigit s1 in
    let '(fp, s3) :=
      match s2 with
      | c :: t => if (c =? 46)%N then span isDigit t else ([], s2)
      | [] => ([], s2)
      end in
    match ip ++ fp with
    | [] => None
    | ds =>
        let '(ex, s4) := scan_exponent s3 in
        Some (EDec neg (digits_value ds) (ex - Z.of_nat (length fp)), s4)
    end.

(** Digits of radix 16, 8 and 2 for the NonDecimalIntegerLiteral forms
    and for [parseInt]. *)
Definition radix_digit (radix : N) (c : N) : option N :=
  let d := if isDigit c then Some (c - 48)%N
           else if ((97 <=? c) && (c <=? 122))%N then Some (c - 87)%N
           else if ((65 <=? c) && (c <=? 90))%N then Some (c - 55)%N
           else None in
  match d with
  | Some v => if (v <? radix)%N then Some v else None
  | None => None
  end.

Definition isRadixDigit (radix : N) (c : N) : bool :=
  match radix_digit radix c with Some _ => true | None => false end.

Definition radix_value (radix : N) (ds : jsstring) : N :=
  fold_left (fun acc c => acc * radix + default 0 (radix_digit radix c))%N ds 0%N.

(** [0x], [0o], [0b] (either case) followed by digits of that radix and
    nothing else. *)
Definition scan_non_decimal (s : jsstring) : option N :=
  match s with
  | 48%N :: p :: ds =>
      let radix :=
        if ((p =? 120) || (p =? 88))%N then Some 16%N
        else if ((p =? 111) || (p =? 79))%N then Some 8%N
        else if ((p =? 98) || (p =? 66))%N then Some 2%N
        else None in
      match radix, ds with
      | Some r, _ :: _ =>
          if forallb (isRadixDigit r) ds then Some (radix_value r ds) else None
      | _, _ => None
      end
  | _ => None
  end.

(** StringToNumber (ECMA-262, 7.1.4.1.1): white space is stripped on
    both sides, the empty string is 0, and the whole remainder must be a
    literal. *)
Definition StringToNumber (s : jsstring) : exact :=
  let t := trim s in
  match t with
  | [] => EDec false 0 0
  | _ =>
      match scan_non_decimal t with
      | Some v => EDec false v 0
      | None =>
          match scan_decimal t with
          | Some (x, []) => x
          | _ => ENaN
          end
      end
  end.

(** [parseFloat] applied to a string (ECMA-262, 19.2.4): leading white
    space is stripped and the longest literal prefix is read. *)
Definition parseFloat_string (s : jsstring) : exact :=
  match scan_decimal (trimStart s) with
  | Some (x, _) => x
  | None => ENaN
  end.

(** The radix [parseInt] reads in: 16 after a [0x] or [0X] prefix, which
    is skipped, and 10 otherwise. *)
Definition scan_radix (s : jsstring) : N * jsstring :=
  match s with
  | z :: p :: t =>
      if ((z =? 48) && ((p =? 120) || (p =? 88)))%N then (16%N, t)
      else (10%N, s)
  | _ => (10%N, s)
  end.

(** The integer [parseInt] reads from a string, with no radix argument
    (ECMA-262, 19.2.5), before it is made a Number; [None] is NaN.  All
    the digits are read: an implementation may also replace the digits
    after the 20th by zeros, which changes no comparison with an integer
    below [10^20]. *)
Definition parseInt_string (s : jsstring) : option Z :=
  let '(neg, s1) := scan_sign (trimStart s) in
  let '(radix, s2) := scan_radix s1 in
  let '(ds, _) := span (isRadixDigit radix) s2 in
  match ds with
  | [] => None
  | _ => let v := Z.of_N (radix_value radix ds) in
         Some (if neg then - v else v)%Z
  end.

(** *** Values *)

(** Primitive values; what a form field or a JSON scalar can hold. *)
Inductive prim :=
| PUndefined
| PNull
| PBool (b : bool)
| PNum (x : number)
| PStr (s : jsstring).

(** Primitives and plain data objects (parsed JSON, the literals the
    sources build).  An object is its own properties in insertion order;
    keys are unique and the sources only read the names [message],
    [response], [request], [data], [error], [details] and [status],
    none of which is inherited from a prototype. *)
#[warnings="-register-all"]
Inductive value :=
| VPrim (p : prim)
| VObj (props : list (string * value)).

Coercion VPrim : prim >-> value.

(** Exceptions, and the completion of an evaluation. *)
Inductive error := TypeError (what : string).

Inductive completion (A : Type) :=
| Normal (a : A)
| Throw (e : error).
Arguments Normal {A} a.
Arguments Throw {A} e.

#[global] Instance completion_ret : MRet completion := @Normal.
#[global] Instance completion_bind : MBind completion := fun A B f c =>
  match c with
  | Normal a => f a
  | Throw e => Throw e
  end.

(** ToBoolean. *)
Definition ToBoolean_number (x : number) : bool :=
  match x with
  | NaN | Zero _ => false
  | _ => true
  end.

Definition ToBoolean_prim (p : prim) : bool :=
  match p with
  | PUndefined | PNull => false
  | PBool b => b
  | PNum x => ToBoolean_number x
  | PStr s => match s with [] => false | _ => true end
  end.

Definition ToBoolean (v : value) : bool :=
  match v with
  | VPrim p => ToBoolean_prim p
  | VObj _ => true
  end.

(** ToString on primitives. *)
Definition ToString (p : prim) : jsstring :=
  match p with
  | PUndefined => str "undefined"
  | PNull => str "null"
  | PBool b => if b then str "true" else str "false"
  | PNum x => number_toString x
  | PStr s => s
  end.

(** ToNumber on primitives, as an exact value. *)
Definition ToNumber (p : prim) : exact :=
  match p with
  | PUndefined => ENaN
  | PNull => EDec false 0 0
  | PBool b => EDec false (if b then 1 else 0) 0
  | PNum x => exact_of_number x
  | PStr s => StringToNumber s
  end.

(** The integer-valued double nearest to the integer [i], ties to the
    even significand (ECMA-262, 6.1.6.1, the Number value for [i]): an
    integer below [2^53] in magnitude is a double, and a larger one
    keeps its 53 leading bits.  A result of magnitude [2^1024] or more
    stands for an infinity; it compares with every finite double as the
    infinity does. *)
Definition round_double (i : Z) : Z :=
  let a := Z.abs i in
  if (a <? 2 ^ 53)%Z then i
  else
    let k := (Z.log2 a - 52)%Z in
    let q := (a / 2 ^ k)%Z in
    let r := (a mod 2 ^ k)%Z in
    let half := (2 ^ (k - 1))%Z in
    let q' := if (half <? r)%Z || ((r =? half)%Z && Z.odd q)
              then (q + 1)%Z else q in
    (Z.sgn i * (q' * 2 ^ k))%Z.

(** The global [parseFloat], [parseInt] and [isFinite].  [parseInt]
    returns the Number for the integer it read, [None] for NaN. *)
Definition parseFloat (p : prim) : exact := parseFloat_string (ToString p).

Definition parseInt (p : prim) : option Z :=
  round_double <$> parseInt_string (ToString p).

Definition isFinite (p : prim) : bool :=
  match p with
  | PNum x => match x with Zero _ | Finite _ _ _ => true | _ => false end
  | _ => rounds_to_finite (ToNumber p)
  end.

(** [x >= lo] and [x <= hi] for the result [x] of [parseInt] and bounds
    that are integer-valued doubles; NaN compares false. *)
Definition int_ge (x : option Z) (lo : Z) : bool :=
  match x with Some i => (lo <=? i)%Z | None => false end.

Definition int_le (x : option Z) (hi : Z) : bool :=
  match x with Some i => (i <=? hi)%Z | None => false end.

Definition number_eqb (x y : number) : bool :=
  match x, y with
  | Zero _, Zero _ => true
  | Infinity a, Infinity b => Bool.eqb a b
  | Finite a s n, Finite b t m =>
      Bool.eqb a b && bool_decide (s = t) && (n =? m)%Z
  | _, _ => false
  end.

(** Strict equality [===] on primitives. *)
Definition strict_equal (a b : prim) : bool :=
  match a, b with
  | PUndefined, PUndefined => true
  | PNull, PNull => true
  | PBool x, PBool y => Bool.eqb x y
  | PNum x, PNum y => number_eqb x y
  | PStr s, PStr t => bool_decide (s = t)
  | _, _ => false
  end.

(** Property read [v.name]: throws on undefined and null, is undefined
    on the other primitives and on objects without the property. *)
Definition get (v : value) (name : string) : completion value :=
  match v with
  | VPrim PUndefined | VPrim PNull =>
      Throw (TypeError "Cannot read properties of undefined or null")
  | VPrim _ => Normal (VPrim PUndefined)
  | VObj props =>
      match find (fun kv => bool_decide (kv.1 = name)) props with
      | Some kv => Normal kv.2
      | None => Normal (VPrim PUndefined)
      end
  end.

(** [v.a.b.c]. *)
Fixpoint get_path (v : value) (names : list string) : completion value :=
  match names with
  | [] => Normal v
  | name :: rest =>
      match get v name with
      | Normal w => get_path w rest
      | Throw e => Throw e
      end
  end.

(** [a && b] and [a || b] as values: the right operand is evaluated
    only when the left one does not decide. *)
Definition js_and (a b : completion value) : completion value :=
  x ← a; if ToBoolean x then b else mret x.

Definition js_or (a b : completion value) : completion value :=
  x ← a; if ToBoolean x then mret x else b.

(** Calls of String methods, [v.trim()] and so on: only a string has
    them. *)
Definition as_string_receiver (method : string) (v : value)
  : completion jsstring :=
  match v with
  | VPrim (PStr s) => Normal s
  | VPrim PUndefined | VPrim PNull =>
      Throw (TypeError "Cannot read properties of undefined or null")
  | _ => Throw (TypeError (method ++ " is not a function"))
  end.

(** [v.toString()]: defined for every primitive but undefined and
    null. *)
Definition call_toString (p : prim) : completion jsstring :=
  match p with
  | PUndefined | PNull =>
      Throw (TypeError "Cannot read properties of undefined or null")
  | _ => Normal (ToString p)
  end.

(** *** Dates *)

(** What the sources take from the machine they run on.  [Date_parse]
    is [Date.parse] (milliseconds since the epoch, [None] for an invalid
    date): it depends on the local time zone, and on the implementation
    for strings outside the ISO format.  [Date_now] is the current time
    and [local_fields] gives year, month (from 0), day, hours, minutes
    and seconds of a time value in local time. *)
Record host := {
  Date_parse : jsstring -> option Z;
  Date_now : Z;
  local_fields : Z -> Z * Z * Z * Z * Z * Z
}.

(** TimeClip of a Number. *)
Definition TimeClip (x : number) : option Z :=
  match x with
  | Zero _ => Some 0%Z
  | Finite neg s n =>
      let t := trunc_digits s n in
      if dec_gt_dyadic (digits_value s) (n - Z.of_nat (length s))
           8640000000000000 0
      then None
      else Some (if neg then - t else t)%Z
  | _ => None
  end.

(** The time value of [new Date(v)]; [None] is an invalid date. *)
Definition Date_new (h : host) (p : prim) : option Z :=
  match p with
  | PStr s => Date_parse h s
  | PNum x => TimeClip x
  | PBool b => Some (if b then 1 else 0)%Z
  | PNull => Some 0%Z
  | PUndefined => None
  end.

(** [a > b] on two Date objects: their time values are compared, and an
    invalid date compares false. *)
Definition Date_gt (a b : option Z) : bool :=
  match a, b with
  | Some x, Some y => (y <? x)%Z
  | _, _ => false
  end.

(** [String(i)] for an integer-valued Number below [10^21], and
    [String(i).padStart(2, '0')]. *)
Definition string_of_Z (i : Z) : jsstring :=
  (if (i <? 0)%Z then [45%N] else []) ++ digits_of_N (Z.abs_N i).

Definition pad2 (i : Z) : jsstring :=
  let t := string_of_Z i in
  replicate (2 - length t) 48%N ++ t.

(** [new Date().getFullYear()]. *)
Definition current_year (h : host) : Z :=
  let '(y, _, _, _, _, _) := local_fields h (Date_now h) in y.

End JS.

(** ** validation.js *)

Module Validation.
Import JS.

(** The character classes of the e-mail pattern:
    [[a-zA-Z0-9._%+-]] and [[a-zA-Z0-9.-]]. *)
Definition isLocalChar (c : N) : bool :=
  isLetter c || isDigit c
  || ((c =? 46) || (c =? 95) || (c =? 37) || (c =? 43) || (c =? 45))%N.

Definition isDomainChar (c : N) : bool :=
  isLetter c || isDigit c || ((c =? 46) || (c =? 45))%N.

(** [[a-zA-Z0-9.-]+\.[a-zA-Z]{2,}$] on the text after the at sign.  The
    last class has no dot, so the dot of the pattern can only be the last
    dot of the text: the text is read from its end. *)
Definition domain_test (d : jsstring) : bool :=
  let '(tld, rest) := span isLetter (rev d) in
  match rest with
  | 46%N :: host_rev =>
      bool_decide (2 <= length tld)%nat
      && match host_rev with [] => false | _ => forallb isDomainChar host_rev end
  | _ => false
  end.

(** [/^[a-zA-Z0-9._%+-]+@[a-zA-Z0-9.-]+\.[a-zA-Z]{2,}$/.test(s)].  The
    first class has no at sign, so the local part is the longest prefix
    in the class. *)
Definition emailRegex_test (s : jsstring) : bool :=
  let '(local, rest) := span isLocalChar s in
  match local, rest with
  | _ :: _, 64%N :: d => domain_test d
  | _, _ => false
  end.

Definition isValidEmail (email : prim) : completion bool :=
  if negb (ToBoolean_prim email) then mret false
  else
    text ← as_string_receiver "email.trim" email;
    mret (emailRegex_test (trim text)).

(** [phone.replace(/\D/g, '')] keeps the ASCII digits. *)
Definition isValidPhoneNumber (phone : prim) : completion bool :=
  if negb (ToBoolean_prim phone) then mret false
  else
    text ← as_string_receiver "phone.replace" phone;
    let digitsOnly := filter (fun c => isDigit c = true) text in
    mret (bool_decide (10 <= length digitsOnly)%nat
          && bool_decide (length digitsOnly <= 11)%nat).

Definition isValidNumber (value : prim) : bool :=
  if strict_equal value (PStr []) || strict_equal value PNull
     || strict_equal value PUndefined then false
  else negb (exact_isNaN (parseFloat value)) && isFinite value.

Definition isValidPositiveNumber (value : prim) : bool :=
  if negb (isValidNumber value) then false
  else exact_gt_zero (parseFloat value).

Definition hasValidDecimals (value : prim) (maxDecimals : Z) : completion bool :=
  if negb (isValidNumber value) then mret false
  else
    valueStr ← call_toString value;
    match indexOf valueStr 46 with
    | None => mret true
    | Some decimalIndex =>
        let decimals := substring valueStr (decimalIndex + 1) in
        mret (Z.of_nat (length decimals) <=? maxDecimals)%Z
    end.

(** [minYear] and [maxYear] are integer-valued doubles, and [yearNum]
    is the double [parseInt] returns; see [isValidYear_default] for the
    default arguments. *)
Definition isValidYear (year : prim) (minYear maxYear : Z) : bool :=
  if negb (isValidNumber year) then false
  else
    let yearNum := parseInt year in
    int_ge yearNum minYear && int_le yearNum maxYear.

Definition isValidYear_default (h : host) (year : prim) : bool :=
  isValidYear year 1900 (current_year h + 1).

Definition isValidRating (rating : prim) : bool :=
  if negb (isValidNumber rating) then false
  else
    let ratingNum := parseInt rating in
    int_ge ratingNum 1 && int_le ratingNum 5.

Definition isRequired (value : prim) : completion bool :=
  if strict_equal value PNull || strict_equal value PUndefined then mret false
  else
    text ← call_toString value;
    mret (bool_decide (0 < length (trim text))%nat).

(** [date < new Date()] and [date > new Date()]: the current time is
    always a valid date. *)
Definition isInPast (h : host) (datetime : prim) : bool :=
  if negb (ToBoolean_prim datetime) then false
  else
    let date := Date_new h datetime in
    Date_gt (Some (Date_now h)) date.

Definition isInFuture (h : host) (datetime : prim) : bool :=
  if negb (ToBoolean_prim datetime) then false
  else
    let date := Date_new h datetime in
    Date_gt date (Some (Date_now h)).

Definition isAfter (h : host) (startDatetime endDatetime : prim) : bool :=
  if negb (ToBoolean_prim startDatetime) || negb (ToBoolean_prim endDatetime)
  then false
  else
    let start := Date_new h startDatetime in
    let end_ := Date_new h endDatetime in
    Date_gt end_ start.

Definition msg_customer : jsstring := str
  "Cannot delete this customer because they have associated rides. Please delete the rides first.".
Definition msg_driver : jsstring := str
  "Cannot delete this driver because they have associated vehicles or rides. Please delete those records first.".
Definition msg_vehicle : jsstring := str
  "Cannot delete this vehicle because it has associated rides. Please delete the rides first.".
Definition msg_location : jsstring := str
  "Cannot delete this location because it is used in existing rides. Please delete those rides first.".
Definition msg_ride : jsstring := str
  "Cannot delete this ride because it has associated payments or ratings. Please delete those records first.".
Definition msg_referenced : jsstring := str
  "Cannot delete this record because it is referenced by other records. Please delete the dependent records first.".
Definition msg_exists : jsstring := str
  "This value already exists in the database. Please use a different value.".
Definition msg_error : jsstring := str "An error occurred".
Definition msg_unexpected : jsstring := str "An unexpected error occurred".

Definition formatForeignKeyError (errorMessage : value) : completion jsstring :=
  if negb (ToBoolean errorMessage) then mret msg_error
  else
    text ← as_string_receiver "errorMessage.toLowerCase" errorMessage;
    let lowerMsg := toLowerCase text in
    if includes lowerMsg (str "foreign key") || includes lowerMsg (str "constraint")
    then
      if includes lowerMsg (str "customer") then mret msg_customer
      else if includes lowerMsg (str "driver") then mret msg_driver
      else if includes lowerMsg (str "vehicle") then mret msg_vehicle
      else if includes lowerMsg (str "location") then mret msg_location
      else if includes lowerMsg (str "ride") then mret msg_ride
      else mret msg_referenced
    else if includes lowerMsg (str "unique") || includes lowerMsg (str "duplicate")
    then mret msg_exists
    else mret text.

Definition is_string (v : value) : bool :=
  match v with VPrim (PStr _) => true | _ => false end.

Definition getErrorMessage (error : value) : completion jsstring :=
  if negb (ToBoolean error) then mret msg_unexpected
  else
    message ← get error "message";
    if ToBoolean message then formatForeignKeyError message
    else if is_string error then formatForeignKeyError error
    else
      hasData ← js_and (get error "response") (get_path error ["response"; "data"]);
      if ToBoolean hasData then
        dataError ← get_path error ["response"; "data"; "error"];
        if ToBoolean dataError then formatForeignKeyError dataError
        else
          dataMessage ← get_path error ["response"; "data"; "message"];
          if ToBoolean dataMessage then formatForeignKeyError dataMessage
          else mret msg_unexpected
      else mret msg_unexpected.

End Validation.

(** ** services/api.js *)

Module Api.
Import JS.

Record axios_config := {
  baseURL : jsstring;
  content_type : jsstring;
  timeout : Z  (* milliseconds *)
}.

Definition API_BASE_URL : jsstring := str "http://localhost:5000/api".

Definition apiClient : axios_config := {|
  baseURL := API_BASE_URL;
  content_type := str "application/json";
  timeout := 10000
|}.

Definition msg_network : jsstring := str
  "Network error. Please check your connection and ensure the backend server is running.".

Definition num_zero : value := VPrim (PNum (Zero false)).
Definition num_minus_one : value := VPrim (PNum (Finite true (str "1") 1)).

(** The error handler installed with [interceptors.response.use]: the
    values written with [console.error], and the reason the returned
    promise is rejected with.  A [Throw] is an exception raised by the
    handler itself. *)
Definition onResponseError (error : value) : completion (list value * value) :=
  response ← get error "response";
  if ToBoolean response then
    data ← get_path error ["response"; "data"];
    message ← js_or (get_path error ["response"; "data"; "error"])
                    (mret (VPrim (PStr (str "An error occurred"))));
    status ← get_path error ["response"; "status"];
    details ← get_path error ["response"; "data"; "details"];
    mret ([VPrim (PStr (str "API Error:")); data],
          VObj [("message", message); ("status", status); ("details", details)])
  else
    request ← get error "request";
    if ToBoolean request then
      mret ([VPrim (PStr (str "Network Error:")); request],
            VObj [("message", VPrim (PStr msg_network)); ("status", num_zero)])
    else
      logged ← get error "message";
      message ← js_or (get error "message")
                      (mret (VPrim (PStr (str "An unexpected error occurred"))));
      mret ([VPrim (PStr (str "Request Error:")); logged],
            VObj [("message", message); ("status", num_minus_one)]).

(** The calls the service objects make, with the request body [B] left
    to the form that builds it. *)
Inductive request (B : Type) :=
| Post (path : jsstring) (body : B)
| Put (path : jsstring) (body : B).
Arguments Post {B} path body.
Arguments Put {B} path body.

Definition request_body {B} (r : request B) : B :=
  match r with Post _ body | Put _ body => body end.

(** How an awaited call ends. *)
Inductive settled :=
| Fulfilled (data : value)
| Rejected (reason : value).

Definition rideService_create {B} (rideData : B) : request B :=
  Post (str "/rides") rideData.
Definition rideService_update {B} (id : prim) (rideData : B) : request B :=
  Put (str "/rides/" ++ ToString id) rideData.

Definition paymentService_create {B} (paymentData : B) : request B :=
  Post (str "/payments") paymentData.
Definition paymentService_update {B} (id : prim) (paymentData : B) : request B :=
  Put (str "/payments/" ++ ToString id) paymentData.

Definition customerService_create {B} (customerData : B) : request B :=
  Post (str "/customers") customerData.
Definition customerService_update {B} (id : prim) (customerData : B) : request B :=
  Put (str "/customers/" ++ ToString id) customerData.

Definition driverService_create {B} (driverData : B) : request B :=
  Post (str "/drivers") driverData.
Definition driverService_update {B} (id : prim) (driverData : B) : request B :=
  Put (str "/drivers/" ++ ToString id) driverData.

Definition locationService_create {B} (locationData : B) : request B :=
  Post (str "/locations") locationData.
Definition locationService_update {B} (id : prim) (locationData : B) : request B :=
  Put (str "/locations/" ++ ToString id) locationData.

Definition ratingService_create {B} (ratingData : B) : request B :=
  Post (str "/ratings") ratingData.
Definition ratingService_update {B} (id : prim) (ratingData : B) : request B :=
  Put (str "/ratings/" ++ ToString id) ratingData.

Definition vehicleService_create {B} (vehicleData : B) : request B :=
  Post (str "/vehicles") vehicleData.
Definition vehicleService_update {B} (vin : prim) (vehicleData : B) : request B :=
  Put (str "/vehicles/" ++ ToString vin) vehicleData.

End Api.

(** ** What a form does when it is submitted *)

Module Form.
Import JS.

(** The state updates and calls of a submit handler, in order. *)
Inductive event (B : Type) :=
| SetApiError (message : option jsstring)
| SetErrors (newErrors : gmap string jsstring)
| SetSubmitting (flag : bool)
| Call (r : Api.request B)
| OnSuccess (message : jsstring).
Arguments SetApiError {B} message.
Arguments SetErrors {B} newErrors.
Arguments SetSubmitting {B} flag.
Arguments Call {B} r.
Arguments OnSuccess {B} message.

Definition is_call {B} (ev : event B) : bool :=
  match ev with Call _ => true | _ => false end.

(** [if (cond) newErrors[field] = message]. *)
Definition record_if (cond : bool) (field : string) (message : jsstring)
    (newErrors : gmap string jsstring) : gmap string jsstring :=
  if cond then <[field := message]> newErrors else newErrors.

(** [if (!isRequired(value)) newErrors[field] = message]. *)
Definition record_required (value : prim) (field : string) (message : jsstring)
    (newErrors : gmap string jsstring) : completion (gmap string jsstring) :=
  required ← Validation.isRequired value;
  mret (record_if (negb required) field message newErrors).

(** [Object.keys(newErrors).length === 0]. *)
Definition no_errors (newErrors : gmap string jsstring) : bool :=
  bool_decide (size newErrors = 0%nat).

(** The [try] block after the request is built, with its [catch] and
    [finally]: the call, then [onSuccess] or the error message.  The
    last component is the exception that leaves the handler, if any. *)
Definition submit {B} (server : Api.request B -> Api.settled)
    (r : Api.request B) (done : jsstring) : list (event B) * option error :=
  match server r with
  | Api.Fulfilled _ =>
      ([SetSubmitting true; Call r; OnSuccess done; SetSubmitting false], None)
  | Api.Rejected err =>
      match Validation.getErrorMessage err with
      | Normal message =>
          ([SetSubmitting true; Call r; SetApiError (Some message);
            SetSubmitting false], None)
      | Throw e =>
          ([SetSubmitting true; Call r; SetSubmitting false], Some e)
      end
  end.

End Form.

(** ** components/PaymentForm.jsx *)

Module PaymentForm.
Import JS Validation Form.

Record formData := {
  ride_id : prim;
  amount : prim;
  payment_method : prim;
  payment_status : prim;
  payment_date : prim
}.

(** The request body: the form data with [amount] replaced by
    [parseFloat(formData.amount)] (the double nearest to this exact
    value) and the date reformatted. *)
Record submitData := {
  s_ride_id : prim;
  s_amount : exact;
  s_payment_method : prim;
  s_payment_status : prim;
  s_payment_date : jsstring
}.

(** The double nearest to 999999.99 is [M * 2^-33] for this [M], which
    lies between [2^52] and [2^53]. *)
Definition mantissa_999999_99 : N :=
  Eval vm_compute in Z.to_N ((2 * 99999999 * 2 ^ 33 + 100) / 200).

Definition exceeds_999999_99 (x : exact) : bool :=
  rounds_above x mantissa_999999_99 (-33).

Definition validateForm (fd : formData)
  : completion (gmap string jsstring * bool) :=
  let newErrors : gmap string jsstring := ∅ in
  let newErrors :=
    record_if (negb (ToBoolean_prim (ride_id fd)))
      "ride_id" (str "Please select a ride") newErrors in
  newErrors ←
    (required ← isRequired (amount fd);
     if negb required then
       mret (<["amount" := str "Amount is required"]> newErrors)
     else if negb (isValidPositiveNumber (amount fd)) then
       mret (<["amount" := str "Amount must be a positive number"]> newErrors)
     else
       decimalsOk ← hasValidDecimals (amount fd) 2;
       if negb decimalsOk then
         mret (<["amount" :=
                   str "Amount must have at most 2 decimal places"]> newErrors)
       else if exceeds_999999_99 (parseFloat (amount fd)) then
         mret (<["amount" := str "Amount cannot exceed $999,999.99"]> newErrors)
       else mret newErrors);
  let newErrors :=
    record_if (negb (ToBoolean_prim (payment_method fd)))
      "payment_method" (str "Please select a payment method") newErrors in
  let newErrors :=
    record_if (negb (ToBoolean_prim (payment_status fd)))
      "payment_status" (str "Please select a payment status") newErrors in
  newErrors ←
    record_required (payment_date fd)
      "payment_date" (str "Payment date is required") newErrors;
  mret (newErrors, no_errors newErrors).

(** [formatForBackend]: year, month and day in local time; the getters
    of an invalid date are NaN. *)
Definition formatForBackend (h : host) (dateStr : prim) : jsstring :=
  match Date_new h dateStr with
  | Some t =>
      let '(year, month, day, _, _, _) := local_fields h t in
      string_of_Z year ++ str "-" ++ pad2 (month + 1) ++ str "-" ++ pad2 day
  | None => str "NaN-NaN-NaN"
  end.

(** [payment] is the [transaction_id] of the payment being edited,
    [None] when the form creates one.  [validateForm] is called outside
    the [try] block: what it throws leaves the handler. *)
Definition handleSubmit (h : host)
    (server : Api.request submitData -> Api.settled)
    (payment : option prim) (fd : formData)
  : list (event submitData) * option error :=
  match validateForm fd with
  | Throw e => ([SetApiError None], Some e)
  | Normal (newErrors, valid) =>
      if negb valid then ([SetApiError None; SetErrors newErrors], None)
      else
        let data := {|
          s_ride_id := ride_id fd;
          s_amount := parseFloat (amount fd);
          s_payment_method := payment_method fd;
          s_payment_status := payment_status fd;
          s_payment_date := formatForBackend h (payment_date fd)
        |} in
        let '(events, exn) :=
          match payment with
          | Some transaction_id =>
              submit server (Api.paymentService_update transaction_id data)
                (str "Payment updated successfully")
          | None =>
              submit server (Api.paymentService_create data)
                (str "Payment created successfully")
          end in
        ([SetApiError None; SetErrors newErrors] ++ events, exn)
  end.

End PaymentForm.

(** ** components/RideForm.jsx *)

Module RideForm.
Import JS Validation Form.

Record formData := {
  customer_id : prim;
  driver_id : prim;
  vehicle_vin : prim;
  pickup_location : prim;
  dropoff_location : prim;
  start_time : prim;
  arrival_time : prim
}.

(** The request body: the form data with both times reformatted. *)
Record submitData := {
  s_customer_id : prim;
  s_driver_id : prim;
  s_vehicle_vin : prim;
  s_pickup_location : prim;
  s_dropoff_location : prim;
  s_start_time : jsstring;
  s_arrival_time : jsstring
}.

(** The [ride] the list hands over for editing: a row of the answer of
    the API, its values JSON scalars. *)
Module Ride.
Record t := {
  ride_id : prim;
  customer_id : prim;
  driver_id : prim;
  vehicle_vin : prim;
  pickup_location : prim;
  dropoff_location : prim;
  start_time : prim;
  arrival_time : prim
}.
End Ride.

(** [value || '']. *)
Definition or_empty (value : prim) : prim :=
  if ToBoolean_prim value then value else PStr [].

(** [formatForInput]: the local date and time to the minute, for a
    datetime-local input.  The [try] block throws nothing. *)
Definition formatForInput (h : host) (dateTimeStr : prim) : jsstring :=
  if negb (ToBoolean_prim dateTimeStr) then []
  else
    match Date_new h dateTimeStr with
    | Some t =>
        let '(year, month, day, hours, minutes, _) := local_fields h t in
        string_of_Z year ++ str "-" ++ pad2 (month + 1) ++ str "-" ++ pad2 day
        ++ str "T" ++ pad2 hours ++ str ":" ++ pad2 minutes
    | None => str "NaN-NaN-NaNTNaN:NaN"
    end.

(** The effect that populates the form when a ride is edited: the ids
    are copied as the row has them, numbers for the numeric keys. *)
Definition populate (h : host) (ride : Ride.t) : formData := {|
  customer_id := or_empty (Ride.customer_id ride);
  driver_id := or_empty (Ride.driver_id ride);
  vehicle_vin := or_empty (Ride.vehicle_vin ride);
  pickup_location := or_empty (Ride.pickup_location ride);
  dropoff_location := or_empty (Ride.dropoff_location ride);
  start_time := PStr (formatForInput h (Ride.start_time ride));
  arrival_time := PStr (formatForInput h (Ride.arrival_time ride))
|}.

(** [handleChange] on the form data: [name] and [value] are those of the
    input or select that changed, the value a string.  The errors it
    clears are not part of the form data. *)
Definition handleChange (name : string) (value : jsstring) (prev : formData)
  : formData :=
  let field (own : string) (old : formData -> prim) : prim :=
    if bool_decide (name = own) then PStr value else old prev in
  {|
    customer_id := field "customer_id" customer_id;
    driver_id := field "driver_id" driver_id;
    vehicle_vin := field "vehicle_vin" vehicle_vin;
    pickup_location := field "pickup_location" pickup_location;
    dropoff_location := field "dropoff_location" dropoff_location;
    start_time := field "start_time" start_time;
    arrival_time := field "arrival_time" arrival_time
  |}.

Definition validateForm (h : host) (fd : formData)
  : completion (gmap string jsstring * bool) :=
  let newErrors : gmap string jsstring := ∅ in
  let newErrors :=
    record_if (negb (ToBoolean_prim (customer_id fd)))
      "customer_id" (str "Please select a customer") newErrors in
  let newErrors :=
    record_if (negb (ToBoolean_prim (driver_id fd)))
      "driver_id" (str "Please select a driver") newErrors in
  let newErrors :=
    record_if (negb (ToBoolean_prim (vehicle_vin fd)))
      "vehicle_vin" (str "Please select a vehicle") newErrors in
  let newErrors :=
    record_if (negb (ToBoolean_prim (pickup_location fd)))
      "pickup_location" (str "Please select a pickup location") newErrors in
  let newErrors :=
    if negb (ToBoolean_prim (dropoff_location fd)) then
      <["dropoff_location" := str "Please select a dropoff location"]> newErrors
    else if strict_equal (pickup_location fd) (dropoff_location fd) then
      <["dropoff_location" :=
          str "Dropoff location must be different from pickup location"]> newErrors
    else newErrors in
  newErrors ←
    record_required (start_time fd)
      "start_time" (str "Start time is required") newErrors;
  newErrors ←
    (required ← isRequired (arrival_time fd);
     if negb required then
       mret (<["arrival_time" := str "Arrival time is required"]> newErrors)
     else if negb (isAfter h (start_time fd) (arrival_time fd)) then
       mret (<["arrival_time" :=
                 str "Arrival time must be after start time"]> newErrors)
     else mret newErrors);
  mret (newErrors, no_errors newErrors).

(** [formatForBackend]: the local date and time to the second. *)
Definition formatForBackend (h : host) (dateTimeStr : prim) : jsstring :=
  match Date_new h dateTimeStr with
  | Some t =>
      let '(year, month, day, hours, minutes, seconds) := local_fields h t in
      string_of_Z year ++ str "-" ++ pad2 (month + 1) ++ str "-" ++ pad2 day
      ++ str "T" ++ pad2 hours ++ str ":" ++ pad2 minutes
      ++ str ":" ++ pad2 seconds
  | None => str "NaN-NaN-NaNTNaN:NaN:NaN"
  end.

(** [ride] is the [ride_id] of the ride being edited, [None] when the
    form creates one.  [validateForm] is called outside the [try]
    block: what it throws leaves the handler. *)
Definition handleSubmit (h : host)
    (server : Api.request submitData -> Api.settled)
    (ride : option prim) (fd : formData)
  : list (event submitData) * option error :=
  match validateForm h fd with
  | Throw e => ([SetApiError None], Some e)
  | Normal (newErrors, valid) =>
      if negb valid then ([SetApiError None; SetErrors newErrors], None)
      else
        let data := {|
          s_customer_id := customer_id fd;
          s_driver_id := driver_id fd;
          s_vehicle_vin := vehicle_vin fd;
          s_pickup_location := pickup_location fd;
          s_dropoff_location := dropoff_location fd;
          s_start_time := formatForBackend h (start_time fd);
          s_arrival_time := formatForBackend h (arrival_time fd)
        |} in
        let '(events, exn) :=
          match ride with
          | Some ride_id =>
              submit server (Api.rideService_update ride_id data)
                (str "Ride updated successfully")
          | None =>
              submit server (Api.rideService_create data)
                (str "Ride created successfully")
          end in
        ([SetApiError None; SetErrors newErrors] ++ events, exn)
  end.

End RideForm.

(** ** components/VehicleForm.jsx *)

Module VehicleForm.
Import JS Validation Form.

Record formData := {
  vehicle_vin : prim;
  model : prim;
  color : prim;
  registration_year : prim;
  driver_id : prim
}.

(** [formData.<field>.trim().length]. *)
Definition trimmed_length (field : string) (p : prim) : completion nat :=
  text ← as_string_receiver (field ++ ".trim") p;
  mret (length (trim text)).

(** The validation reads [formData.vehicle_vin.trim()] and
    [formData.model.trim()], which throw when the field holds a value
    that passes [isRequired] and is not a string. *)
Definition validateForm (h : host) (fd : formData)
  : completion (gmap string jsstring * bool) :=
  let newErrors : gmap string jsstring := ∅ in
  newErrors ←
    (required ← isRequired (vehicle_vin fd);
     if negb required then
       mret (<["vehicle_vin" := str "VIN is required"]> newErrors)
     else
       len ← trimmed_length "formData.vehicle_vin" (vehicle_vin fd);
       if (len <? 11)%nat || (17 <? len)%nat then
         mret (<["vehicle_vin" :=
                   str "VIN must be between 11 and 17 characters"]> newErrors)
       else mret newErrors);
  newErrors ←
    (required ← isRequired (model fd);
     if negb required then
       mret (<["model" := str "Model is required"]> newErrors)
     else
       len ← trimmed_length "formData.model" (model fd);
       if (len <? 2)%nat then
         mret (<["model" := str "Model must be at least 2 characters"]> newErrors)
       else mret newErrors);
  newErrors ←
    record_required (color fd) "color" (str "Color is required") newErrors;
  newErrors ←
    (required ← isRequired (registration_year fd);
     if negb required then
       mret (<["registration_year" :=
                 str "Registration year is required"]> newErrors)
     else if negb (isValidYear_default h (registration_year fd)) then
       let currentYear := current_year h in
       mret (<["registration_year" :=
                 str "Please enter a valid year between 1900 and "
                 ++ string_of_Z (currentYear + 1)]> newErrors)
     else mret newErrors);
  let newErrors :=
    record_if (negb (ToBoolean_prim (driver_id fd)))
      "driver_id" (str "Please select a driver") newErrors in
  mret (newErrors, no_errors newErrors).

(** [vehicle] is the [vehicle_vin] of the vehicle being edited, [None]
    when the form creates one.  [validateForm] is called outside the
    [try] block: what it throws leaves the handler. *)
Definition handleSubmit (h : host)
    (server : Api.request formData -> Api.settled)
    (vehicle : option prim) (fd : formData)
  : list (event formData) * option error :=
  match validateForm h fd with
  | Throw e => ([SetApiError None], Some e)
  | Normal (newErrors, valid) =>
      if negb valid then ([SetApiError None; SetErrors newErrors], None)
      else
        let '(events, exn) :=
          match vehicle with
          | Some vin =>
              submit server (Api.vehicleService_update vin fd)
                (str "Vehicle updated successfully")
          | None =>
              submit server (Api.vehicleService_create fd)
                (str "Vehicle created successfully")
          end in
        ([SetApiError None; SetErrors newErrors] ++ events, exn)
  end.

End VehicleForm.

(** ** The steps the text forms share *)

Module FormSteps.
Import JS Validation Form.

(** [if (!isRequired(v)) newErrors[f] = missing;
     else if (v.trim().length < min) newErrors[f] = tooShort]. *)
Definition record_required_min (value : prim) (field : string)
    (missing : jsstring) (min : nat) (tooShort : jsstring)
    (newErrors : gmap string jsstring) : completion (gmap string jsstring) :=
  required ← isRequired value;
  if negb required then mret (<[field := missing]> newErrors)
  else
    len ← VehicleForm.trimmed_length ("formData." ++ field) value;
    if (len <? min)%nat then mret (<[field := tooShort]> newErrors)
    else mret newErrors.

(** [if (!isRequired(v)) newErrors[f] = missing;
     else if (!check(v)) newErrors[f] = invalid]. *)
Definition record_required_valid (value : prim) (field : string)
    (missing : jsstring) (check : prim -> completion bool) (invalid : jsstring)
    (newErrors : gmap string jsstring) : completion (gmap string jsstring) :=
  required ← isRequired value;
  if negb required then mret (<[field := missing]> newErrors)
  else
    ok ← check value;
    if negb ok then mret (<[field := invalid]> newErrors)
    else mret newErrors.

(** The submit handler of a form whose request body is the form data
    itself: [validateForm] outside the [try] block, then the call. *)
Definition handleSubmit_plain {F}
    (validated : completion (gmap string jsstring * bool))
    (server : Api.request F -> Api.settled)
    (r : Api.request F) (done : jsstring)
  : list (event F) * option error :=
  match validated with
  | Throw e => ([SetApiError None], Some e)
  | Normal (newErrors, valid) =>
      if negb valid then ([SetApiError None; SetErrors newErrors], None)
      else
        let '(events, exn) := submit server r done in
        ([SetApiError None; SetErrors newErrors] ++ events, exn)
  end.

End FormSteps.

(** ** components/CustomerForm.jsx *)

Module CustomerForm.
Import JS Validation Form FormSteps.

Record formData := {
  customer_name : prim;
  phone_number : prim;
  email : prim
}.

Definition validateForm (fd : formData)
  : completion (gmap string jsstring * bool) :=
  let newErrors : gmap string jsstring := ∅ in
  newErrors ←
    record_required_min (customer_name fd) "customer_name"
      (str "Customer name is required") 2
      (str "Customer name must be at least 2 characters") newErrors;
  newErrors ←
    record_required_valid (phone_number fd) "phone_number"
      (str "Phone number is required") isValidPhoneNumber
      (str "Please enter a valid phone number (e.g., 123-456-7890)") newErrors;
  newErrors ←
    record_required_valid (email fd) "email"
      (str "Email is required") isValidEmail
      (str "Please enter a valid email address (e.g., user@example.com)")
      newErrors;
  mret (newErrors, no_errors newErrors).

(** [customer] is the [customer_id] of the customer being edited,
    [None] when the form creates one. *)
Definition handleSubmit (server : Api.request formData -> Api.settled)
    (customer : option prim) (fd : formData)
  : list (event formData) * option error :=
  match customer with
  | Some customer_id =>
      handleSubmit_plain (validateForm fd) server
        (Api.customerService_update customer_id fd)
        (str "Customer updated successfully")
  | None =>
      handleSubmit_plain (validateForm fd) server
        (Api.customerService_create fd)
        (str "Customer created successfully")
  end.

End CustomerForm.

(** ** components/DriverForm.jsx *)

Module DriverForm.
Import JS Validation Form FormSteps.

Record formData := {
  driver_name : prim;
  phone_number : prim;
  license_number : prim
}.

Definition validateForm (fd : formData)
  : completion (gmap string jsstring * bool) :=
  let newErrors : gmap string jsstring := ∅ in
  newErrors ←
    record_required_min (driver_name fd) "driver_name"
      (str "Driver name is required") 2
      (str "Driver name must be at least 2 characters") newErrors;
  newErrors ←
    record_required_valid (phone_number fd) "phone_number"
      (str "Phone number is required") isValidPhoneNumber
      (str "Please enter a valid phone number (e.g., 123-456-7890)") newErrors;
  newErrors ←
    record_required_min (license_number fd) "license_number"
      (str "License number is required") 5
      (str "License number must be at least 5 characters") newErrors;
  mret (newErrors, no_errors newErrors).

(** [driver] is the [driver_id] of the driver being edited, [None] when
    the form creates one. *)
Definition handleSubmit (server : Api.request formData -> Api.settled)
    (driver : option prim) (fd : formData)
  : list (event formData) * option error :=
  match driver with
  | Some driver_id =>
      handleSubmit_plain (validateForm fd) server
        (Api.driverService_update driver_id fd)
        (str "Driver updated successfully")
  | None =>
      handleSubmit_plain (validateForm fd) server
        (Api.driverService_create fd)
        (str "Driver created successfully")
  end.

End DriverForm.

(** ** components/LocationForm.jsx *)

Module LocationForm.
Import JS Validation Form FormSteps.

Record formData := {
  address : prim;
  city : prim;
  postal_code : prim
}.

Definition validateForm (fd : formData)
  : completion (gmap string jsstring * bool) :=
  let newErrors : gmap string jsstring := ∅ in
  newErrors ←
    record_required_min (address fd) "address"
      (str "Address is required") 5
      (str "Address must be at least 5 characters") newErrors;
  newErrors ←
    record_required_min (city fd) "city"
      (str "City is required") 2
      (str "City must be at least 2 characters") newErrors;
  newErrors ←
    record_required_min (postal_code fd) "postal_code"
      (str "Postal code is required") 3
      (str "Postal code must be at least 3 characters") newErrors;
  mret (newErrors, no_errors newErrors).

(** [location] is the [location_id] of the location being edited,
    [None] when the form creates one. *)
Definition handleSubmit (server : Api.request formData -> Api.settled)
    (location : option prim) (fd : formData)
  : list (event formData) * option error :=
  match location with
  | Some location_id =>
      handleSubmit_plain (validateForm fd) server
        (Api.locationService_update location_id fd)
        (str "Location updated successfully")
  | None =>
      handleSubmit_plain (validateForm fd) server
        (Api.locationService_create fd)
        (str "Location created successfully")
  end.

End LocationForm.

(** ** components/RatingForm.jsx *)

Module RatingForm.
Import JS Validation Form FormSteps.

Record formData := {
  ride_id : prim;
  customer_rating : prim;
  driver_rating : prim;
  comments : prim
}.

(** The request body: [parseInt] of the ride and of the two ratings
    ([None] is NaN), and the comments or null. *)
Record submitData := {
  s_ride_id : option Z;
  s_customer_rating : option Z;
  s_driver_rating : option Z;
  s_comments : prim
}.

Definition check_rating (rating : prim) : completion bool :=
  mret (isValidRating rating).

Definition validateForm (fd : formData)
  : completion (gmap string jsstring * bool) :=
  let newErrors : gmap string jsstring := ∅ in
  let newErrors :=
    record_if (negb (ToBoolean_prim (ride_id fd)))
      "ride_id" (str "Please select a ride") newErrors in
  newErrors ←
    record_required_valid (customer_rating fd) "customer_rating"
      (str "Customer rating is required") check_rating
      (str "Customer rating must be between 1 and 5") newErrors;
  newErrors ←
    record_required_valid (driver_rating fd) "driver_rating"
      (str "Driver rating is required") check_rating
      (str "Driver rating must be between 1 and 5") newErrors;
  mret (newErrors, no_errors newErrors).

(** [rating] is the [rating_id] of the rating being edited, [None] when
    the form creates one. *)
Definition handleSubmit (server : Api.request submitData -> Api.settled)
    (rating : option prim) (fd : formData)
  : list (event submitData) * option error :=
  let data := {|
    s_ride_id := parseInt (ride_id fd);
    s_customer_rating := parseInt (customer_rating fd);
    s_driver_rating := parseInt (driver_rating fd);
    s_comments := if ToBoolean_prim (comments fd) then comments fd else PNull
  |} in
  match rating with
  | Some rating_id =>
      handleSubmit_plain (validateForm fd) server
        (Api.ratingService_update rating_id data)
        (str "Rating updated successfully")
  | None =>
      handleSubmit_plain (validateForm fd) server
        (Api.ratingService_create data)
        (str "Rating created successfully")
  end.

End RatingForm.

(** ** A reference host *)

(** A machine in the UTC time zone whose [Date.parse] reads the forms
    [YYYY-MM-DD], [YYYY-MM-DDTHH:mm] and [YYYY-MM-DDTHH:mm:ss] of the
    date-time string format (the values of [date] and [datetime-local]
    inputs) and takes every other string for an invalid date. *)
Module ReferenceHost.
Import JS.

(** Days between 1970-01-01 and a day of the proleptic Gregorian
    calendar, and back. *)
Definition days_from_civil (y m d : Z) : Z :=
  let y' := if (m <=? 2)%Z then (y - 1)%Z else y in
  let era := (y' / 400)%Z in
  let yoe := (y' - era * 400)%Z in
  let doy := ((153 * (if (2 <? m)%Z then m - 3 else m + 9) + 2) / 5 + d - 1)%Z in
  let doe := (yoe * 365 + yoe / 4 - yoe / 100 + doy)%Z in
  (era * 146097 + doe - 719468)%Z.

Definition civil_from_days (z : Z) : Z * Z * Z :=
  let z := (z + 719468)%Z in
  let era := (z / 146097)%Z in
  let doe := (z - era * 146097)%Z in
  let yoe := ((doe - doe / 1460 + doe / 36524 - doe / 146096) / 365)%Z in
  let doy := (doe - (365 * yoe + yoe / 4 - yoe / 100))%Z in
  let mp := ((5 * doy + 2) / 153)%Z in
  let d := (doy - (153 * mp + 2) / 5 + 1)%Z in
  let m := (if (mp <? 10)%Z then mp + 3 else mp - 9)%Z in
  let y := (yoe + era * 400)%Z in
  ((if (m <=? 2)%Z then y + 1 else y)%Z, m, d).

Definition days_in_month (y m : Z) : Z :=
  (days_from_civil (if (m =? 12)%Z then y + 1 else y)
                   (if (m =? 12)%Z then 1 else m + 1) 1
   - days_from_civil y m 1)%Z.

(** Exactly [n] digits, as a number. *)
Definition field (n : nat) (s : jsstring) : option (Z * jsstring) :=
  let ds := take n s in
  if bool_decide (length ds = n) && forallb isDigit ds
  then Some (Z.of_N (digits_value ds), drop n s)
  else None.

Definition expect (c : N) (s : jsstring) : option jsstring :=
  match s with
  | x :: t => if (x =? c)%N then Some t else None
  | [] => None
  end.

Definition parse_time (s : jsstring) : option Z :=
  '(hh, s) ← field 2 s;
  s ← expect 58 s;
  '(mm, s) ← field 2 s;
  '(ss, s) ← match s with
             | [] => Some (0%Z, [])
             | _ => s ← expect 58 s; field 2 s
             end;
  match s with
  | [] =>
      if ((hh <=? 23) && (mm <=? 59) && (ss <=? 59)
          || (hh =? 24) && (mm =? 0) && (ss =? 0))%Z
      then Some (((hh * 60 + mm) * 60 + ss) * 1000)%Z
      else None
  | _ => None
  end.

Definition parse (s : jsstring) : option Z :=
  '(y, s) ← field 4 s;
  s ← expect 45 s;
  '(m, s) ← field 2 s;
  s ← expect 45 s;
  '(d, s) ← field 2 s;
  if ((1 <=? m) && (m <=? 12) && (1 <=? d) && (d <=? days_in_month y m))%Z then
    ms ← match s with
         | [] => Some 0%Z
         | x :: t => if (x =? 84)%N then parse_time t else None
         end;
    Some (days_from_civil y m d * 86400000 + ms)%Z
  else None.

Definition fields (t : Z) : Z * Z * Z * Z * Z * Z :=
  let day := (t / 86400000)%Z in
  let ms := (t mod 86400000)%Z in
  let '(y, m, d) := civil_from_days day in
  (y, (m - 1)%Z, d, (ms / 3600000)%Z, (ms / 60000 mod 60)%Z, (ms / 1000 mod 60)%Z).

(** The host, with the clock at 2024-06-01T12:00. *)
Definition utc : host := {|
  Date_parse := parse;
  Date_now := 1717243200000;
  local_fields := fields
|}.

End ReferenceHost.

(** ** Notions used in the statements *)

Module Props.
Import JS.

(** [x * 10^d] is an integer: the decimal expansion of [x] has at most
    [d] digits after the point. *)
Definition fraction_digits_le (d : Z) (x : exact) : bool :=
  match x with
  | EDec _ m e =>
      if (0 <=? e + d)%Z then true
      else (Z.of_N m mod 10 ^ (- (e + d)) =? 0)%Z
  | _ => false
  end.

(** The integer an exact value is, if it is one. *)
Definition exact_integer (x : exact) : option Z :=
  match x with
  | EDec neg m e =>
      let sign := (if neg then -1 else 1)%Z in
      if (0 <=? e)%Z then Some (sign * Z.of_N m * 10 ^ e)%Z
      else if (Z.of_N m mod 10 ^ (- e) =? 0)%Z
           then Some (sign * (Z.of_N m / 10 ^ (- e)))%Z
           else None
  | _ => None
  end.

(** A number, or a string read as a numeric literal, is an integer
    between [lo] and [hi]. *)
Definition denotes_integer_in (lo hi : Z) (p : prim) : bool :=
  match p with
  | PNum _ | PStr _ =>
      match exact_integer (ToNumber p) with
      | Some i => (lo <=? i)%Z && (i <=? hi)%Z
      | None => false
      end
  | _ => false
  end.

(** An error text names a constraint: one of the four words
    [formatForeignKeyError] looks for occurs in it, in any case. *)
Definition names_constraint (message : jsstring) : bool :=
  let lowerMsg := toLowerCase message in
  includes lowerMsg (str "foreign key") || includes lowerMsg (str "constraint")
  || includes lowerMsg (str "unique") || includes lowerMsg (str "duplicate").

(** The texts shown in place of such an error. *)
Definition friendly_messages : list jsstring :=
  [Validation.msg_customer; Validation.msg_driver; Validation.msg_vehicle;
   Validation.msg_location; Validation.msg_ride; Validation.msg_referenced;
   Validation.msg_exists].

(** The texts shown for a record that other records refer to. *)
Definition delete_texts : list jsstring :=
  [Validation.msg_customer; Validation.msg_driver; Validation.msg_vehicle;
   Validation.msg_location; Validation.msg_ride; Validation.msg_referenced].

(** The shapes of error [getErrorMessage] knows. *)
Definition message_paths : list (list string) :=
  [["message"]; ["response"; "data"; "error"]; ["response"; "data"; "message"]].

(** Where an error carries a message, the message is a string. *)
Definition string_or_falsy (v : value) : Prop :=
  Validation.is_string v = true \/ ToBoolean v = false.

Definition messages_are_strings (error : value) : Prop :=
  forall path v,
    In path message_paths -> get_path error path = Normal v -> string_or_falsy v.

Definition truthy_at (error : value) (path : list string) : bool :=
  match get_path error path with
  | Normal v => ToBoolean v
  | Throw _ => false
  end.

(** The first of these places where the error carries a truthy value,
    and that value. *)
Definition first_message (error : value) : option value :=
  match find (truthy_at error) message_paths with
  | Some path =>
      match get_path error path with
      | Normal v => Some v
      | Throw _ => None
      end
  | None => None
  end.

(** The error is a non-empty string or carries a message at one of the
    known places. *)
Definition recognised (error : value) : bool :=
  ToBoolean error &&
  (Validation.is_string error || existsb (truthy_at error) message_paths).

(** [Number.isSafeInteger]: an integer below [2^53] in magnitude, which
    a double holds and no other integer rounds to. *)
Definition safe_integer (i : Z) : Prop := (- 2 ^ 53 < i < 2 ^ 53)%Z.

(** The sign in front of the digits of a number. *)
Definition sign_of (neg : bool) : jsstring := if neg then [45%N] else [].

(** Validation only adds entries. *)
Definition keeps (e e' : gmap string jsstring) : Prop :=
  forall field, is_Some (e !! field) -> is_Some (e' !! field).

(** Some numbers, in the representation of [number]. *)
Definition num_5 : number := Finite false (str "5") 1.
Definition num_6 : number := Finite false (str "6") 1.
Definition num_42 : number := Finite false (str "42") 2.
Definition num_4_5 : number := Finite false (str "45") 1.
Definition num_1e_7 : number := Finite false (str "1") (-6).

End Props.

(** ** Sample inputs *)

Module Samples.
Import JS.

(** The rejection axios raises for a response with status 400 whose
    body carries the database's message for a missing parent key. *)
Definition parent_key_error : value :=
  VObj [("response",
         VObj [("data",
                VObj [("success", VPrim (PBool false));
                      ("error", VPrim (PStr (str
                         "ORA-02291: integrity constraint violated - parent key not found")))]);
               ("status", VPrim (PNum (Finite false (str "4") 3)))])].

(** A vehicle form with a 9-character VIN between spaces. *)
Definition short_vin_form : VehicleForm.formData := {|
  VehicleForm.vehicle_vin := PStr (str "  1HGBH41JX ");
  VehicleForm.model := PStr (str "Toyota Camry");
  VehicleForm.color := PStr (str "Black");
  VehicleForm.registration_year := PStr (str "2020");
  VehicleForm.driver_id := PStr (str "3")
|}.

(** A ride form with the same pickup and dropoff location. *)
Definition same_place_form : RideForm.formData := {|
  RideForm.customer_id := PStr (str "1");
  RideForm.driver_id := PStr (str "2");
  RideForm.vehicle_vin := PStr (str "1HGBH41JXMN109186");
  RideForm.pickup_location := PStr (str "4");
  RideForm.dropoff_location := PStr (str "4");
  RideForm.start_time := PStr (str "2024-01-01T08:00");
  RideForm.arrival_time := PStr (str "2024-01-01T08:30")
|}.

(** A payment form whose amount is written with an exponent, and one
    with an ordinary amount. *)
Definition tiny_amount_form : PaymentForm.formData := {|
  PaymentForm.ride_id := PStr (str "3");
  PaymentForm.amount := PStr (str "1e-7");
  PaymentForm.payment_method := PStr (str "Cash");
  PaymentForm.payment_status := PStr (str "Completed");
  PaymentForm.payment_date := PStr (str "2024-01-15")
|}.

Definition ordinary_amount_form : PaymentForm.formData := {|
  PaymentForm.ride_id := PStr (str "3");
  PaymentForm.amount := PStr (str " 25.5");
  PaymentForm.payment_method := PStr (str "Cash");
  PaymentForm.payment_status := PStr (str "Completed");
  PaymentForm.payment_date := PStr (str "2024-01-15")
|}.

(** Forms filled in correctly. *)
Definition customer_form : CustomerForm.formData := {|
  CustomerForm.customer_name := PStr (str "Alice Johnson");
  CustomerForm.phone_number := PStr (str "(416) 555-0101");
  CustomerForm.email := PStr (str "alice@example.com")
|}.

Definition driver_form : DriverForm.formData := {|
  DriverForm.driver_name := PStr (str "John Driver");
  DriverForm.phone_number := PStr (str "416-555-0102");
  DriverForm.license_number := PStr (str "D1234567")
|}.

Definition location_form : LocationForm.formData := {|
  LocationForm.address := PStr (str "123 King St W");
  LocationForm.city := PStr (str "Toronto");
  LocationForm.postal_code := PStr (str "M5H 1A1")
|}.

Definition rating_form : RatingForm.formData := {|
  RatingForm.ride_id := PStr (str "7");
  RatingForm.customer_rating := PStr (str "4.6");
  RatingForm.driver_rating := PStr (str "5");
  RatingForm.comments := PStr []
|}.

Definition vehicle_form : VehicleForm.formData := {|
  VehicleForm.vehicle_vin := PStr (str "1HGBH41JXMN109186");
  VehicleForm.model := PStr (str "Honda Civic");
  VehicleForm.color := PStr (str "Blue");
  VehicleForm.registration_year := PStr (str "2020");
  VehicleForm.driver_id := PStr (str "3")
|}.

Definition ride_form : RideForm.formData := {|
  RideForm.customer_id := PStr (str "1");
  RideForm.driver_id := PStr (str "2");
  RideForm.vehicle_vin := PStr (str "1HGBH41JXMN109186");
  RideForm.pickup_location := PStr (str "4");
  RideForm.dropoff_location := PStr (str "5");
  RideForm.start_time := PStr (str "2024-01-01T08:00");
  RideForm.arrival_time := PStr (str "2024-01-01T08:30")
|}.

(** A payment form whose date is not one. *)
Definition undated_payment_form : PaymentForm.formData := {|
  PaymentForm.ride_id := PStr (str "3");
  PaymentForm.amount := PStr (str "25.50");
  PaymentForm.payment_method := PStr (str "Cash");
  PaymentForm.payment_status := PStr (str "Completed");
  PaymentForm.payment_date := PStr (str "tomorrow")
|}.

(** A ride as the API returns it, and the form a user gets who edits it
    and picks its pickup location as the dropoff. *)
Definition stored_ride : RideForm.Ride.t := {|
  RideForm.Ride.ride_id := PNum (Finite false (str "7") 1);
  RideForm.Ride.customer_id := PNum (Finite false (str "1") 1);
  RideForm.Ride.driver_id := PNum (Finite false (str "2") 1);
  RideForm.Ride.vehicle_vin := PStr (str "1HGBH41JXMN109186");
  RideForm.Ride.pickup_location := PNum (Finite false (str "4") 1);
  RideForm.Ride.dropoff_location := PNum (Finite false (str "5") 1);
  RideForm.Ride.start_time := PStr (str "2024-01-15T08:30:00");
  RideForm.Ride.arrival_time := PStr (str "2024-01-15T09:00:00")
|}.

Definition edited_ride_form : RideForm.formData :=
  RideForm.handleChange "dropoff_location" (str "4")
    (RideForm.populate ReferenceHost.utc stored_ride).

(** A server that accepts every call. *)
Definition accepting {B} (r : Api.request B) : Api.settled :=
  Api.Fulfilled (VPrim PUndefined).

End Samples.

(** * Properties *)

Import JS Validation Form Props Samples.

(** ** The embedding on known values *)

Example toString_integer : number_toString num_42 = str "42".
Proof. reflexivity. Qed.

Example toString_fraction : number_toString num_4_5 = str "4.5".
Proof. reflexivity. Qed.

Example toString_small :
  number_toString (Finite false (str "1") (-5)) = str "0.000001".
Proof. reflexivity. Qed.

Example toString_tiny : number_toString num_1e_7 = str "1e-7".
Proof. reflexivity. Qed.

Example toString_large :
  number_toString (Finite true (str "125") 22) = str "-1.25e+21".
Proof. reflexivity. Qed.

Example parseFloat_prefix :
  parseFloat (PStr (str "  12.50abc")) = EDec false 1250 (-2).
Proof. reflexivity. Qed.

Example parseFloat_point_only : parseFloat (PStr (str ".")) = ENaN.
Proof. reflexivity. Qed.

Example parseFloat_hex : parseFloat (PStr (str "0x1F")) = EDec false 0 0.
Proof. reflexivity. Qed.

Example ToNumber_hex : ToNumber (PStr (str " 0x1F ")) = EDec false 31 0.
Proof. reflexivity. Qed.

Example ToNumber_suffix : ToNumber (PStr (str "12px")) = ENaN.
Proof. reflexivity. Qed.

Example parseInt_fraction : parseInt (PStr (str " 5.9")) = Some 5%Z.
Proof. reflexivity. Qed.

Example parseInt_exponent :
  parseInt (PNum (Finite false (str "1") 22)) = Some 1%Z.
Proof. reflexivity. Qed.

Example parseInt_rounds :
  parseInt (PStr (str "9007199254740993")) = Some 9007199254740992%Z /\
  parseInt (PStr (str "9007199254740995")) = Some 9007199254740996%Z /\
  parseInt (PStr (str "0x20000000000001")) = Some 9007199254740992%Z /\
  isValidYear (PStr (str "9007199254740993")) 1900 9007199254740992 = true.
Proof. repeat split; vm_compute; reflexivity. Qed.

Example isFinite_largest :
  isFinite (PStr (str "1.7976931348623157e308")) = true /\
  isFinite (PStr (str "1.7976931348623159e308")) = false.
Proof. split; vm_compute; reflexivity. Qed.

Example underflow_is_not_positive :
  isValidPositiveNumber (PStr (str "1e-400")) = false.
Proof. vm_compute. reflexivity. Qed.

Example isValidNumber_cases :
  isValidNumber (PStr (str "12.5")) = true /\
  isValidNumber (PStr (str "12.5kg")) = false /\
  isValidNumber (PStr []) = false /\
  isValidNumber PNull = false /\
  isValidNumber (PNum NaN) = false /\
  isValidNumber (PNum (Infinity false)) = false.
Proof. repeat split; vm_compute; reflexivity. Qed.

Example isValidEmail_cases :
  isValidEmail (PStr (str " a.b+c@ex-ample.co.uk ")) = Normal true /\
  isValidEmail (PStr (str "a@b.c")) = Normal false /\
  isValidEmail (PStr (str "a@b@c.com")) = Normal false /\
  isValidEmail (PStr []) = Normal false.
Proof. repeat split; vm_compute; reflexivity. Qed.

Example isValidPhoneNumber_cases :
  isValidPhoneNumber (PStr (str "(123) 456-7890")) = Normal true /\
  isValidPhoneNumber (PStr (str "1-123-456-7890")) = Normal true /\
  isValidPhoneNumber (PStr (str "456-7890")) = Normal false.
Proof. repeat split; vm_compute; reflexivity. Qed.

Example isValidYear_cases :
  isValidYear_default ReferenceHost.utc (PStr (str "2025")) = true /\
  isValidYear_default ReferenceHost.utc (PStr (str "2026")) = false /\
  isValidYear_default ReferenceHost.utc (PStr (str "1899")) = false.
Proof. repeat split; vm_compute; reflexivity. Qed.

Example reference_parse :
  ReferenceHost.parse (str "1970-01-01") = Some 0%Z /\
  ReferenceHost.parse (str "2024-01-01T08:00") = Some 1704096000000%Z /\
  ReferenceHost.parse (str "2023-02-29") = None /\
  ReferenceHost.parse (str "yesterday") = None.
Proof. repeat split; vm_compute; reflexivity. Qed.

Example formatForBackend_minutes :
  RideForm.formatForBackend ReferenceHost.utc (PStr (str "2024-01-01T09:30"))
  = str "2024-01-01T09:30:00".
Proof. vm_compute. reflexivity. Qed.

Example exceeds_cases :
  PaymentForm.exceeds_999999_99 (parseFloat (PStr (str "999999.99"))) = false /\
  PaymentForm.exceeds_999999_99 (parseFloat (PStr (str "1000000"))) = true.
Proof. split; vm_compute; reflexivity. Qed.

Example digits_of_N_cases :
  digits_of_N 0 = str "0" /\ digits_of_N 7 = str "7" /\
  digits_of_N 1024 = str "1024" /\ digits_of_N 99999 = str "99999".
Proof. repeat split; reflexivity. Qed.

(** ** Strings *)

Lemma span_app p s : (span p s).1 ++ (span p s).2 = s.
Proof.
  induction s as [|c t IH]; simpl; [done|].
  destruct (p c); [|done].
  destruct (span p t) as [a b]; simpl in *. by rewrite IH.
Qed.

Lemma span_prefix_all p s : Forall (fun c => p c = true) (span p s).1.
Proof.
  induction s as [|c t IH]; simpl; [constructor|].
  destruct (p c) eqn:E; [|constructor].
  destruct (span p t) as [a b]; simpl in *. by constructor.
Qed.

Lemma span_all p a b :
  Forall (fun c => p c = true) a ->
  match b with c :: _ => p c = false | [] => True end ->
  span p (a ++ b) = (a, b).
Proof.
  intros Ha Hb. induction Ha as [|x a Hx _ IH]; simpl.
  - destruct b as [|c b]; simpl; [done|]. by rewrite Hb.
  - by rewrite Hx, IH.
Qed.

Lemma span_eq p s a b :
  span p s = (a, b) -> s = a ++ b /\ Forall (fun c => p c = true) a.
Proof.
  intros H. pose proof (span_app p s) as H1.
  pose proof (span_prefix_all p s) as H2. rewrite H in H1, H2. done.
Qed.

(** ** The e-mail pattern *)

(** [emailRegex_test] decides the pattern
    [^[a-zA-Z0-9._%+-]+@[a-zA-Z0-9.-]+\.[a-zA-Z]{2,}$]: the string is a
    non-empty local part, an at sign, a non-empty domain, a dot and at
    least two letters. *)
Lemma emailRegex_test_spec (s : jsstring) :
  emailRegex_test s = true <->
  exists l d t,
    s = l ++ 64%N :: d ++ 46%N :: t /\
    l <> [] /\ Forall (fun c => isLocalChar c = true) l /\
    d <> [] /\ Forall (fun c => isDomainChar c = true) d /\
    (2 <= length t)%nat /\ Forall (fun c => isLetter c = true) t.
Proof.
  unfold emailRegex_test, domain_test. split.
  - destruct (span isLocalChar s) as [l rest] eqn:Hl.
    destruct (span_eq _ _ _ _ Hl) as [Hs Hlall].
    destruct l as [|c0 l0]; [done|].
    destruct rest as [|c dm]; [done|].
    destruct (N.eqb_spec c 64) as [->|Hc].
    2: { destruct c as [|p]; [done|].
         do 7 (destruct p as [p|p|]; try done). }
    destruct (span isLetter (rev dm)) as [tld r] eqn:Ht.
    destruct (span_eq _ _ _ _ Ht) as [Hrev Htall].
    destruct r as [|c1 hr]; [done|].
    destruct (N.eqb_spec c1 46) as [->|Hc1].
    2: { destruct c1 as [|p]; [done|].
         do 6 (destruct p as [p|p|]; try done). }
    intros H. apply andb_true_iff in H as [Hlen Hhost].
    apply bool_decide_eq_true in Hlen.
    destruct hr as [|h0 hr0]; [done|].
    exists (c0 :: l0), (rev (h0 :: hr0)), (rev tld).
    assert (Hdm : dm = rev (h0 :: hr0) ++ 46%N :: rev tld).
    { rewrite <- (rev_involutive dm), Hrev, rev_app_distr. simpl.
      by rewrite <- !app_assoc. }
    split; [by rewrite Hs, Hdm|]. split; [done|]. split; [done|].
    split; [simpl; by destruct (rev hr0)|].
    split; [|split].
    + apply Forall_rev. apply Forall_forall. intros x Hx.
      apply (proj1 (forallb_forall _ _) Hhost). by apply list_elem_of_In.
    + by rewrite length_rev.
    + by apply Forall_rev.
  - intros (l & d & t & -> & Hl & Hlall & Hd & Hdall & Hlen & Htall).
    rewrite span_all by done.
    destruct l as [|c0 l0]; [done|].
    rewrite rev_app_distr. simpl. rewrite <- app_assoc. simpl.
    rewrite span_all; [|by apply Forall_rev|done].
    apply andb_true_iff. split.
    + apply bool_decide_eq_true. by rewrite length_rev.
    + destruct (rev d) as [|h0 hr0] eqn:Hrd.
      { apply (f_equal (@rev N)) in Hrd. rewrite rev_involutive in Hrd. done. }
      rewrite <- Hrd. apply forallb_forall. intros x Hx.
      apply in_rev in Hx. rewrite Forall_forall in Hdall.
      by apply Hdall, list_elem_of_In.
Qed.

(** ** Decimal places *)

(** C9. There is a positive number with more than two fractional digits
    whose string form is in exponent notation and has no point, namely
    1e-7, and [hasValidDecimals] accepts it with [maxDecimals = 2]: the
    check looks for a point in the string form. *)
Theorem hasValidDecimals_accepts_exponent_form :
  exists x : number,
    exact_gt_zero (exact_of_number x) = true /\
    fraction_digits_le 2 (exact_of_number x) = false /\
    number_toString x = str "1e-7" /\
    indexOf (number_toString x) 46 = None /\
    hasValidDecimals (PNum x) 2 = Normal true.
Proof.
  exists num_1e_7. repeat split; vm_compute; reflexivity.
Qed.

(** ** Date ordering *)

Section Dates.
Variable h : host.

Lemma Date_gt_spec a b :
  Date_gt a b = true <-> exists x y, a = Some x /\ b = Some y /\ (y < x)%Z.
Proof.
  unfold Date_gt. destruct a as [x|], b as [y|]; split;
    try discriminate; try (intros (x' & y' & ? & ? & ?); discriminate).
  - intros H. exists x, y. repeat split. by apply Z.ltb_lt.
  - intros (x' & y' & [= <-] & [= <-] & H). by apply Z.ltb_lt.
Qed.

Lemma Date_gt_irrefl a : Date_gt a a = false.
Proof. destruct a as [x|]; simpl; [apply Z.ltb_irrefl | done]. Qed.

Lemma isAfter_true_iff (a b : prim) :
  isAfter h a b = true <->
  ToBoolean_prim a = true /\ ToBoolean_prim b = true /\
  exists ta tb, Date_new h a = Some ta /\ Date_new h b = Some tb /\ (ta < tb)%Z.
Proof.
  unfold isAfter.
  destruct (ToBoolean_prim a), (ToBoolean_prim b); simpl;
    try (split; [discriminate | intros (? & ? & _); discriminate]).
  rewrite Date_gt_spec. split.
  - intros (x & y & Hb & Ha & Hlt). repeat split. by exists y, x.
  - intros (_ & _ & ta & tb & Ha & Hb & Hlt). by exists tb, ta.
Qed.

(** C4. [isAfter(a, b)] is the strict order of the two instants: it is
    true exactly when both arguments are truthy, both are valid dates
    and [b] is strictly later than [a]; it is false when the two denote
    the same instant, and [isAfter("2024-01-01T08:00",
    "2024-01-01T08:00")] is false on every host. *)
Theorem isAfter_strict_order (a b : prim) :
  (isAfter h a b = true <->
     ToBoolean_prim a = true /\ ToBoolean_prim b = true /\
     exists ta tb, Date_new h a = Some ta /\ Date_new h b = Some tb
                   /\ (ta < tb)%Z) /\
  (Date_new h a = Date_new h b -> isAfter h a b = false) /\
  isAfter h (PStr (str "2024-01-01T08:00")) (PStr (str "2024-01-01T08:00"))
    = false.
Proof.
  split; [|split].
  - apply isAfter_true_iff.
  - intros Heq. unfold isAfter.
    destruct (negb (ToBoolean_prim a) || negb (ToBoolean_prim b)); [done|].
    rewrite Heq. apply Date_gt_irrefl.
  - unfold isAfter. simpl. apply Date_gt_irrefl.
Qed.

End Dates.

Lemma isAfter_strict_order_witness :
  isAfter ReferenceHost.utc (PStr (str "2024-01-01T08:00"))
          (PStr (str "2024-01-01T09:30")) = true /\
  isAfter ReferenceHost.utc (PStr (str "2024-01-01T09:30"))
          (PStr (str "2024-01-01T09:30")) = false.
Proof.
  split.
  - apply (proj1 (isAfter_strict_order ReferenceHost.utc
                    (PStr (str "2024-01-01T08:00"))
                    (PStr (str "2024-01-01T09:30")))).
    split; [reflexivity | split; [reflexivity|]].
    exists 1704096000000%Z, 1704101400000%Z.
    split; [vm_compute; reflexivity | split; [vm_compute; reflexivity | lia]].
  - apply (proj1 (proj2 (isAfter_strict_order ReferenceHost.utc
                    (PStr (str "2024-01-01T09:30"))
                    (PStr (str "2024-01-01T09:30"))))).
    reflexivity.
Defined.

(** ** The API layer *)

Lemma get_of_truthy (v : value) (name : string) :
  ToBoolean v = true -> exists w, get v name = Normal w.
Proof.
  destruct v as [[]|props]; simpl; try discriminate; intros _; eauto.
  destruct (find _ props); eauto.
Qed.

Lemma get_of_readable (v w : value) (name name' : string) :
  get v name = Normal w -> exists w', get v name' = Normal w'.
Proof.
  destruct v as [[]|props]; simpl; try discriminate; intros _; eauto.
  destruct (find _ props); eauto.
Qed.

Lemma get_first (name : string) (v : value) (rest : list (string * value)) :
  get (VObj ((name, v) :: rest)) name = Normal v.
Proof. simpl. by rewrite bool_decide_eq_true_2. Qed.

Lemma formatForeignKeyError_string (msg : jsstring) :
  msg <> [] ->
  (names_constraint msg = false ->
     formatForeignKeyError (VPrim (PStr msg)) = Normal msg) /\
  (names_constraint msg = true ->
     exists m, formatForeignKeyError (VPrim (PStr msg)) = Normal m
               /\ In m friendly_messages).
Proof.
  intros Hne. unfold formatForeignKeyError, names_constraint.
  destruct msg as [|c msg]; [done|]. cbn [ToBoolean ToBoolean_prim negb].
  cbn [as_string_receiver mbind completion_bind].
  set (lowerMsg := toLowerCase (c :: msg)).
  destruct (includes lowerMsg (str "foreign key"));
    destruct (includes lowerMsg (str "constraint"));
    destruct (includes lowerMsg (str "unique"));
    destruct (includes lowerMsg (str "duplicate"));
    cbn [orb]; (split; [try discriminate | try discriminate]); intros _;
    try reflexivity;
    repeat match goal with
    | |- context [if ?b then _ else _] => destruct b
    end;
    eexists; (split; [reflexivity|]); unfold friendly_messages; simpl; tauto.
Qed.

(** C6, as the code has it.  The API layer hands the backend's error
    string on unchanged, as the [message] of the rejection.  What the
    views then show is that string, verbatim, only when it names no
    constraint; an error string that contains "foreign key",
    "constraint", "unique" or "duplicate" (in any case) is replaced by
    one of seven fixed user-friendly texts. *)
Theorem constraint_errors_are_reworded
    (error response data : value) (msg : jsstring) :
  get error "response" = Normal response ->
  ToBoolean response = true ->
  get response "data" = Normal data ->
  get data "error" = Normal (VPrim (PStr msg)) ->
  msg <> [] ->
  exists log reason,
    Api.onResponseError error = Normal (log, reason) /\
    get reason "message" = Normal (VPrim (PStr msg)) /\
    (names_constraint msg = false -> getErrorMessage reason = Normal msg) /\
    (names_constraint msg = true ->
       exists shown, getErrorMessage reason = Normal shown
                     /\ In shown friendly_messages).
Proof.
  intros Hresp Htruthy Hdata Herr Hne.
  destruct (get_of_truthy response "status" Htruthy) as [status Hstatus].
  destruct (get_of_readable data _ "error" "details" Herr) as [details Hdetails].
  unfold Api.onResponseError. rewrite Hresp. cbn [mbind completion_bind].
  rewrite Htruthy. cbn [get_path]. rewrite Hresp, Hdata, Herr, Hstatus, Hdetails.
  cbn [mbind completion_bind js_or].
  assert (Hmsg : ToBoolean (VPrim (PStr msg)) = true)
    by (destruct msg; [done | reflexivity]).
  rewrite Hmsg. cbn [mret completion_ret mbind completion_bind].
  do 2 eexists. split; [reflexivity|].
  assert (Hshown : getErrorMessage
            (VObj [("message", VPrim (PStr msg)); ("status", status);
                   ("details", details)])
          = formatForeignKeyError (VPrim (PStr msg))).
  { unfold getErrorMessage. cbn [ToBoolean negb].
    rewrite get_first. cbn [mbind completion_bind]. by rewrite Hmsg. }
  split; [apply get_first|].
  rewrite Hshown. by apply formatForeignKeyError_string.
Qed.

Lemma constraint_errors_are_reworded_witness :
  exists log reason,
    Api.onResponseError
      (VObj [("response",
              VObj [("data", VObj [("error", VPrim (PStr (str "Ride not found")))]);
                    ("status", VPrim (PNum (Finite false (str "404") 3)))])])
      = Normal (log, reason) /\
    getErrorMessage reason = Normal (str "Ride not found").
Proof.
  destruct (constraint_errors_are_reworded
    (VObj [("response",
            VObj [("data", VObj [("error", VPrim (PStr (str "Ride not found")))]);
                  ("status", VPrim (PNum (Finite false (str "404") 3)))])])
    (VObj [("data", VObj [("error", VPrim (PStr (str "Ride not found")))]);
           ("status", VPrim (PNum (Finite false (str "404") 3)))])
    (VObj [("error", VPrim (PStr (str "Ride not found")))])
    (str "Ride not found")
    eq_refl eq_refl eq_refl eq_refl ltac:(discriminate))
    as (log & reason & H1 & _ & H3 & _).
  exists log, reason. split; [exact H1 | apply H3; vm_compute; reflexivity].
Defined.

(** C6 as stated fails: the string the backend produces for a missing
    parent key reaches the views as another text. *)
Lemma constraint_error_not_verbatim :
  exists log reason,
    Api.onResponseError parent_key_error = Normal (log, reason) /\
    getErrorMessage reason = Normal msg_referenced /\
    msg_referenced <>
      str "ORA-02291: integrity constraint violated - parent key not found".
Proof.
  do 2 eexists. split; [vm_compute; reflexivity|].
  split; [vm_compute; reflexivity | discriminate].
Qed.

(** C7. The client is configured with a time budget of 10 seconds, and
    an error without a response but with a request (what the HTTP client
    raises when the budget runs out or the network fails) is turned into
    one fixed rejection: the generic network message and status 0,
    whatever the error holds.  The message the views show for it is that
    generic text. *)
Theorem network_failure_reported_generically (error response request : value) :
  get error "response" = Normal response ->
  ToBoolean response = false ->
  get error "request" = Normal request ->
  ToBoolean request = true ->
  Api.timeout Api.apiClient = (10 * 1000)%Z /\
  (exists log,
     Api.onResponseError error =
       Normal (log, VObj [("message", VPrim (PStr Api.msg_network));
                          ("status", Api.num_zero)])) /\
  getErrorMessage (VObj [("message", VPrim (PStr Api.msg_network));
                         ("status", Api.num_zero)])
    = Normal Api.msg_network.
Proof.
  intros Hresp Hfalsy Hreq Htruthy. split; [reflexivity|]. split.
  - unfold Api.onResponseError. rewrite Hresp. cbn [mbind completion_bind].
    rewrite Hfalsy, Hreq. cbn [mbind completion_bind]. rewrite Htruthy.
    by eexists.
  - vm_compute. reflexivity.
Qed.

Lemma network_failure_reported_generically_witness :
  exists log,
    Api.onResponseError
      (VObj [("code", VPrim (PStr (str "ECONNABORTED")));
             ("message", VPrim (PStr (str "timeout of 10000ms exceeded")));
             ("request", VObj [("path", VPrim (PStr (str "/rides")))])])
    = Normal (log, VObj [("message", VPrim (PStr Api.msg_network));
                         ("status", Api.num_zero)]).
Proof.
  apply (proj1 (proj2 (network_failure_reported_generically
           (VObj [("code", VPrim (PStr (str "ECONNABORTED")));
                  ("message", VPrim (PStr (str "timeout of 10000ms exceeded")));
                  ("request", VObj [("path", VPrim (PStr (str "/rides")))])])
           (VPrim PUndefined)
           (VObj [("path", VPrim (PStr (str "/rides")))])
           eq_refl eq_refl eq_refl eq_refl))).
Defined.

(** ** Forms *)

Lemma bind_Normal {A B} (c : completion A) (f : A -> completion B) (r : B) :
  c ≫= f = Normal r -> exists a, c = Normal a /\ f a = Normal r.
Proof. destruct c as [a|e]; simpl; [eauto | discriminate]. Qed.

Lemma isRequired_Normal (p : prim) :
  isRequired p =
    Normal (match p with
            | PUndefined | PNull => false
            | _ => bool_decide (0 < length (trim (ToString p)))%nat
            end).
Proof. by destruct p. Qed.

Lemma no_errors_false (newErrors : gmap string jsstring) (field : string) :
  is_Some (newErrors !! field) -> no_errors newErrors = false.
Proof.
  intros [m Hm]. unfold no_errors. apply bool_decide_eq_false.
  intros Hsize. apply map_size_empty_iff in Hsize. subst newErrors.
  by rewrite lookup_empty in Hm.
Qed.

Lemma keeps_refl e : keeps e e.
Proof. by intros ?. Qed.

Lemma keeps_insert e field m : keeps e (<[field := m]> e).
Proof. intros f H. rewrite lookup_insert_is_Some'. by right. Qed.

Lemma keeps_trans e1 e2 e3 : keeps e1 e2 -> keeps e2 e3 -> keeps e1 e3.
Proof. intros H1 H2 f H. by apply H2, H1. Qed.

Lemma keeps_record_if c field m e : keeps e (record_if c field m e).
Proof. unfold record_if. destruct c; [apply keeps_insert | apply keeps_refl]. Qed.

Lemma keeps_record_required p field m e e' :
  record_required p field m e = Normal e' -> keeps e e'.
Proof.
  unfold record_required. rewrite isRequired_Normal. simpl.
  intros [= <-]. apply keeps_record_if.
Qed.

Create HintDb forms.
#[local] Hint Resolve keeps_refl keeps_insert keeps_record_if : forms.

Lemma submit_calls {B} server (r : Api.request B) done ev :
  In ev (submit server r done).1 -> is_call ev = true -> ev = Call r.
Proof.
  unfold submit. destruct (server r) as [?|err].
  - simpl. intros [<-|[<-|[<-|[<-|[]]]]]; simpl; congruence.
  - destruct (getErrorMessage err); simpl;
      intros H; repeat (destruct H as [<-|H]; [simpl; congruence|]); destruct H.
Qed.

Lemma trimmed_length_Normal field p n :
  VehicleForm.trimmed_length field p = Normal n ->
  exists s, p = PStr s /\ n = length (trim s).
Proof.
  unfold VehicleForm.trimmed_length. destruct p; simpl; try discriminate.
  intros [= <-]. eauto.
Qed.

(** What the VIN step of the vehicle form leaves in [newErrors]. *)
Lemma vehicle_validate_vin h fd errs ok :
  VehicleForm.validateForm h fd = Normal (errs, ok) ->
  ok = no_errors errs /\
  ((exists vin, VehicleForm.vehicle_vin fd = PStr vin /\
                (11 <= length (trim vin) <= 17)%nat)
   \/ is_Some (errs !! "vehicle_vin")).
Proof.
  unfold VehicleForm.validateForm. intros H.
  apply bind_Normal in H as (e1 & H1 & H).
  apply bind_Normal in H as (e2 & H2 & H).
  apply bind_Normal in H as (e3 & H3 & H).
  apply bind_Normal in H as (e4 & H4 & H).
  injection H as <- <-. split; [done|].
  assert (K : keeps e1 (record_if (negb (ToBoolean_prim (VehicleForm.driver_id fd)))
                          "driver_id" (str "Please select a driver") e4)).
  { apply keeps_trans with e4; [|auto with forms].
    apply keeps_trans with e3.
    - apply keeps_trans with e2; [|by eapply keeps_record_required].
      rewrite isRequired_Normal in H2. simpl in H2.
      repeat match type of H2 with
      | context [if ?b then _ else _] => destruct b; simpl in H2
      | _ ≫= _ = Normal _ => apply bind_Normal in H2 as (? & _ & H2)
      end; injection H2 as <-; auto with forms.
    - rewrite isRequired_Normal in H4. simpl in H4.
      repeat match type of H4 with
      | context [if ?b then _ else _] => destruct b; simpl in H4
      end; injection H4 as <-; auto with forms. }
  rewrite isRequired_Normal in H1. cbn [mbind completion_bind] in H1.
  destruct (negb _) eqn:Hreq in H1.
  - injection H1 as <-. right. apply K. rewrite lookup_insert_eq. eauto.
  - apply bind_Normal in H1 as (len & Hlen & H1).
    apply trimmed_length_Normal in Hlen as (vin & Hvin & ->).
    destruct (_ || _) eqn:Hrange in H1; injection H1 as <-.
    + right. apply K. rewrite lookup_insert_eq. eauto.
    + left. exists vin. split; [done|].
      apply orb_false_iff in Hrange as [Hlo Hhi].
      apply Nat.ltb_ge in Hlo, Hhi. lia.
Qed.

Lemma vehicle_submit_call h server vehicle fd ev :
  In ev (VehicleForm.handleSubmit h server vehicle fd).1 ->
  is_call ev = true ->
  exists errs, VehicleForm.validateForm h fd = Normal (errs, true).
Proof.
  unfold VehicleForm.handleSubmit.
  destruct (VehicleForm.validateForm h fd) as [[errs ok]|e].
  - destruct ok; simpl.
    + intros _ _. by exists errs.
    + intros [<-|[<-|[]]]; discriminate.
  - simpl. intros [<-|[]]; discriminate.
Qed.

Lemma vehicle_validate_total h fd vin m :
  VehicleForm.vehicle_vin fd = PStr vin ->
  VehicleForm.model fd = PStr m ->
  exists errs ok, VehicleForm.validateForm h fd = Normal (errs, ok).
Proof.
  intros Hvin Hmodel. unfold VehicleForm.validateForm, record_required.
  rewrite !isRequired_Normal, Hvin, Hmodel.
  unfold VehicleForm.trimmed_length. cbn [as_string_receiver mbind completion_bind].
  cbn [mbind completion_bind mret completion_ret].
  repeat (match goal with
          | |- context [if ?b then _ else _] => destruct b
          end; cbn [mbind completion_bind mret completion_ret]);
    eauto.
Qed.

(** C10. The vehicle form lets a VIN through only when it is a string
    whose trimmed length is between 11 and 17: a create or update call
    is issued only for such a VIN, and for a VIN whose trimmed length is
    below 11 or above 17 no call is issued and [validateForm], which
    returns whenever the VIN and the model are strings, records an error
    for the VIN field and answers false. *)
Theorem vehicle_vin_length_enforced
    (h : host) (server : Api.request VehicleForm.formData -> Api.settled)
    (vehicle : option prim) (fd : VehicleForm.formData) :
  (forall ev, In ev (VehicleForm.handleSubmit h server vehicle fd).1 ->
     is_call ev = true ->
     exists vin, VehicleForm.vehicle_vin fd = PStr vin /\
                 (11 <= length (trim vin) <= 17)%nat) /\
  (forall vin,
     VehicleForm.vehicle_vin fd = PStr vin ->
     (length (trim vin) < 11 \/ 17 < length (trim vin))%nat ->
     Forall (fun ev => is_call ev = false)
       (VehicleForm.handleSubmit h server vehicle fd).1 /\
     (forall errs ok, VehicleForm.validateForm h fd = Normal (errs, ok) ->
        is_Some (errs !! "vehicle_vin") /\ ok = false) /\
     (forall m, VehicleForm.model fd = PStr m ->
        exists errs, VehicleForm.validateForm h fd = Normal (errs, false))).
Proof.
  assert (Hcall : forall ev,
    In ev (VehicleForm.handleSubmit h server vehicle fd).1 ->
    is_call ev = true ->
    exists vin, VehicleForm.vehicle_vin fd = PStr vin /\
                (11 <= length (trim vin) <= 17)%nat).
  { intros ev Hin Hev.
    destruct (vehicle_submit_call _ _ _ _ _ Hin Hev) as [errs Hval].
    destruct (vehicle_validate_vin _ _ _ _ Hval) as [Hok [Hvin|Hsome]]; [done|].
    apply no_errors_false in Hsome. congruence. }
  assert (Hrec : forall vin,
    VehicleForm.vehicle_vin fd = PStr vin ->
    (length (trim vin) < 11 \/ 17 < length (trim vin))%nat ->
    forall errs ok, VehicleForm.validateForm h fd = Normal (errs, ok) ->
      is_Some (errs !! "vehicle_vin") /\ ok = false).
  { intros vin Hvin Hlen errs ok Hval.
    destruct (vehicle_validate_vin _ _ _ _ Hval) as [Hok [Hin|Hsome]].
    - destruct Hin as (vin' & Hvin' & Hrange). rewrite Hvin in Hvin'.
      injection Hvin' as <-. lia.
    - split; [done|]. rewrite Hok. by eapply no_errors_false. }
  split; [exact Hcall|]. intros vin Hvin Hlen. split; [|split].
  - apply Forall_forall. intros ev Hin.
    destruct (is_call ev) eqn:Hev; [|done].
    destruct (Hcall ev) as (vin' & Hvin' & Hrange); [by apply list_elem_of_In|done|].
    rewrite Hvin in Hvin'. injection Hvin' as <-. lia.
  - by apply Hrec with vin.
  - intros m Hm.
    destruct (vehicle_validate_total h fd vin m Hvin Hm) as (errs & ok & Hval).
    destruct (Hrec vin Hvin Hlen errs ok Hval) as [_ ->]. eauto.
Qed.

Lemma vehicle_vin_length_enforced_witness :
  Forall (fun ev => is_call ev = false)
    (VehicleForm.handleSubmit ReferenceHost.utc
       (fun _ => Api.Fulfilled (VPrim PUndefined)) None short_vin_form).1.
Proof.
  apply (proj1 (proj2 (vehicle_vin_length_enforced ReferenceHost.utc
           (fun _ => Api.Fulfilled (VPrim PUndefined)) None short_vin_form)
         (str "  1HGBH41JX ") eq_refl
         ltac:(left; vm_compute; lia))).
Defined.

(** The ride form's validation always returns, and records the two
    checks between fields under [dropoff_location] and [arrival_time]. *)
Lemma ride_validate_spec (h : host) (fd : RideForm.formData) :
  exists errs,
    RideForm.validateForm h fd = Normal (errs, no_errors errs) /\
    (strict_equal (RideForm.pickup_location fd) (RideForm.dropoff_location fd)
       = true -> is_Some (errs !! "dropoff_location")) /\
    (isAfter h (RideForm.start_time fd) (RideForm.arrival_time fd) = false ->
       is_Some (errs !! "arrival_time")).
Proof.
  unfold RideForm.validateForm, record_required.
  rewrite !isRequired_Normal. cbn [mbind completion_bind mret completion_ret].
  set (e4 := record_if _ "pickup_location" _ _).
  set (e5 := if negb (ToBoolean_prim (RideForm.dropoff_location fd)) then _ else _).
  set (e6 := record_if _ "start_time" _ e5).
  assert (H5 : strict_equal (RideForm.pickup_location fd)
                 (RideForm.dropoff_location fd) = true ->
               is_Some (e5 !! "dropoff_location")).
  { intros Heq. subst e5. rewrite Heq.
    destruct (negb (ToBoolean_prim (RideForm.dropoff_location fd)));
      rewrite lookup_insert_eq; eauto. }
  assert (K : keeps e5 e6) by (subst e6; auto with forms).
  destruct (negb _) eqn:Hreq at 1.
  - eexists. split; [reflexivity|]. split.
    + intros Heq. apply keeps_insert, K, H5, Heq.
    + intros _. rewrite lookup_insert_eq. eauto.
  - destruct (isAfter h _ _) eqn:Hafter; cbn [negb].
    + eexists. split; [reflexivity|]. split; [|discriminate].
      intros Heq. apply K, H5, Heq.
    + eexists. split; [reflexivity|]. split.
      * intros Heq. apply keeps_insert, K, H5, Heq.
      * intros _. rewrite lookup_insert_eq. eauto.
Qed.

Lemma ride_submit_call h server ride fd ev :
  In ev (RideForm.handleSubmit h server ride fd).1 ->
  is_call ev = true ->
  (exists errs, RideForm.validateForm h fd = Normal (errs, true)) /\
  exists r, ev = Call r /\
    RideForm.s_pickup_location (Api.request_body r) = RideForm.pickup_location fd /\
    RideForm.s_dropoff_location (Api.request_body r) = RideForm.dropoff_location fd /\
    RideForm.s_start_time (Api.request_body r)
      = RideForm.formatForBackend h (RideForm.start_time fd) /\
    RideForm.s_arrival_time (Api.request_body r)
      = RideForm.formatForBackend h (RideForm.arrival_time fd).
Proof.
  unfold RideForm.handleSubmit.
  destruct (RideForm.validateForm h fd) as [[errs ok]|e].
  - destruct ok; cbn [negb].
    + intros Hin Hev. split; [by exists errs|].
      destruct ride as [ride_id|];
        match type of Hin with
        | context [submit server ?r ?d] =>
            destruct (submit server r d) as [events exn] eqn:Hs;
            assert (Hc : forall ev, In ev (submit server r d).1 ->
                           is_call ev = true -> ev = Call r)
              by (intros; by eapply submit_calls);
            rewrite Hs in Hc; simpl in Hin, Hc;
            destruct Hin as [<-|[<-|Hin]]; try discriminate;
            exists r; split; [by apply Hc|by repeat split]
        end.
    + simpl. intros [<-|[<-|[]]]; discriminate.
  - simpl. intros [<-|[]]; discriminate.
Qed.

(** What the ride form does enforce.  Whenever the pickup location is
    strictly equal ([===]) to the dropoff location, or the two times do
    not parse to instants of which the second is later, [validateForm]
    returns false and the submit handler issues no create or update
    call.  Hence a call is issued only for form values that are not
    strictly equal and whose arrival instant is strictly later than the
    start instant; its body carries these locations and the two
    instants as formatted for the backend, in local time to the
    second. *)
Theorem ride_validation_blocks
    (h : host) (server : Api.request RideForm.submitData -> Api.settled)
    (ride : option prim) (fd : RideForm.formData) :
  (strict_equal (RideForm.pickup_location fd) (RideForm.dropoff_location fd) = true
   \/ ~ (exists ts ta,
           Date_new h (RideForm.start_time fd) = Some ts /\
           Date_new h (RideForm.arrival_time fd) = Some ta /\ (ts < ta)%Z) ->
   (exists errs, RideForm.validateForm h fd = Normal (errs, false)) /\
   Forall (fun ev => is_call ev = false)
     (RideForm.handleSubmit h server ride fd).1) /\
  (forall ev, In ev (RideForm.handleSubmit h server ride fd).1 ->
     is_call ev = true ->
     strict_equal (RideForm.pickup_location fd) (RideForm.dropoff_location fd)
       = false /\
     (exists ts ta,
        Date_new h (RideForm.start_time fd) = Some ts /\
        Date_new h (RideForm.arrival_time fd) = Some ta /\ (ts < ta)%Z) /\
     exists r, ev = Call r /\
       RideForm.s_pickup_location (Api.request_body r)
         = RideForm.pickup_location fd /\
       RideForm.s_dropoff_location (Api.request_body r)
         = RideForm.dropoff_location fd /\
       RideForm.s_start_time (Api.request_body r)
         = RideForm.formatForBackend h (RideForm.start_time fd) /\
       RideForm.s_arrival_time (Api.request_body r)
         = RideForm.formatForBackend h (RideForm.arrival_time fd)).
Proof.
  destruct (ride_validate_spec h fd) as (errs & Hval & Hloc & Htime).
  assert (Hbad :
    strict_equal (RideForm.pickup_location fd) (RideForm.dropoff_location fd) = true
    \/ isAfter h (RideForm.start_time fd) (RideForm.arrival_time fd) = false ->
    no_errors errs = false).
  { intros [H|H]; [apply Hloc in H | apply Htime in H];
      by eapply no_errors_false. }
  split.
  - intros H.
    assert (H' :
      strict_equal (RideForm.pickup_location fd) (RideForm.dropoff_location fd)
        = true
      \/ isAfter h (RideForm.start_time fd) (RideForm.arrival_time fd) = false).
    { destruct H as [H|H]; [by left|right].
      destruct (isAfter h _ _) eqn:E; [|done].
      apply isAfter_true_iff in E as (_ & _ & E). contradiction. }
    apply Hbad in H'. rewrite H' in Hval. split; [by exists errs|].
    unfold RideForm.handleSubmit. rewrite Hval. simpl.
    repeat constructor.
  - intros ev Hin Hev.
    destruct (ride_submit_call _ _ _ _ _ Hin Hev) as [[errs' Hval'] Hbody].
    rewrite Hval in Hval'. injection Hval' as _ Hok.
    split; [|split; [|exact Hbody]].
    + destruct (strict_equal _ _) eqn:E; [|done].
      rewrite Hbad in Hok by (by left). discriminate.
    + destruct (isAfter h (RideForm.start_time fd) (RideForm.arrival_time fd))
        eqn:E.
      * apply isAfter_true_iff in E as (_ & _ & ts & ta & ? & ? & ?).
        by exists ts, ta.
      * rewrite Hbad in Hok by (by right). discriminate.
Qed.

Lemma ride_validation_blocks_witness :
  Forall (fun ev => is_call ev = false)
    (RideForm.handleSubmit ReferenceHost.utc
       (fun _ => Api.Fulfilled (VPrim PUndefined)) None same_place_form).1.
Proof.
  apply (proj1 (ride_validation_blocks ReferenceHost.utc
           (fun _ => Api.Fulfilled (VPrim PUndefined)) None same_place_form)).
  left. vm_compute. reflexivity.
Defined.

Lemma submit_has_call {B} server (r : Api.request B) done :
  In (Call r) (submit server r done).1.
Proof.
  unfold submit. destruct (server r) as [?|err]; [simpl; tauto|].
  destruct (getErrorMessage err); simpl; tauto.
Qed.

(** C5 fails on the code.  The ride form compares the two locations
    with [===].  When the pickup location is a number, as it is in a
    form filled from the ride being edited, and the dropoff location is
    the string a select yields, the comparison is false also when both
    name the same location.  If the other checks pass, [validateForm]
    then records no error and answers true, and the handler issues the
    call, whose body carries that location as pickup and as dropoff. *)
Theorem ride_form_submits_same_location
    (h : host) (server : Api.request RideForm.submitData -> Api.settled)
    (ride : option prim) (fd : RideForm.formData)
    (n : number) (s : jsstring) :
  RideForm.pickup_location fd = PNum n ->
  RideForm.dropoff_location fd = PStr s ->
  ToNumber (PStr s) = ToNumber (PNum n) ->
  ToBoolean_prim (PNum n) = true ->
  ToBoolean_prim (PStr s) = true ->
  ToBoolean_prim (RideForm.customer_id fd) = true ->
  ToBoolean_prim (RideForm.driver_id fd) = true ->
  ToBoolean_prim (RideForm.vehicle_vin fd) = true ->
  isRequired (RideForm.start_time fd) = Normal true ->
  isRequired (RideForm.arrival_time fd) = Normal true ->
  isAfter h (RideForm.start_time fd) (RideForm.arrival_time fd) = true ->
  RideForm.validateForm h fd = Normal (∅, true) /\
  exists r,
    In (Call r) (RideForm.handleSubmit h server ride fd).1 /\
    RideForm.s_pickup_location (Api.request_body r) = PNum n /\
    RideForm.s_dropoff_location (Api.request_body r) = PStr s /\
    ToNumber (RideForm.s_pickup_location (Api.request_body r))
    = ToNumber (RideForm.s_dropoff_location (Api.request_body r)).
Proof.
  intros Hpick Hdrop Hsame Hn Hs Hc Hd Hv Hstart Harrival Hafter.
  assert (Hval : RideForm.validateForm h fd = Normal (∅, true)).
  { unfold RideForm.validateForm, record_required, record_if.
    rewrite Hc, Hd, Hv, Hpick, Hdrop, Hn, Hs. cbn [negb strict_equal].
    rewrite Hstart, Harrival.
    cbn [mbind completion_bind mret completion_ret negb].
    rewrite Hafter. done. }
  split; [done|].
  unfold RideForm.handleSubmit. rewrite Hval. cbn [negb].
  destruct ride as [ride_id|];
    match goal with
    | |- context [submit server ?r ?d] =>
        pose proof (submit_has_call server r d) as Hin;
        destruct (submit server r d) as [events exn];
        exists r; cbn [fst] in *;
        split; [simpl; tauto|];
        cbn [Api.request_body Api.rideService_update Api.rideService_create
             RideForm.s_pickup_location RideForm.s_dropoff_location];
        rewrite Hpick, Hdrop; by repeat split
    end.
Qed.

Lemma ride_form_submits_same_location_witness :
  exists r,
    In (Call r)
      (RideForm.handleSubmit ReferenceHost.utc accepting
         (Some (RideForm.Ride.ride_id stored_ride)) edited_ride_form).1 /\
    RideForm.s_pickup_location (Api.request_body r)
    = PNum (Finite false (str "4") 1) /\
    RideForm.s_dropoff_location (Api.request_body r) = PStr (str "4").
Proof.
  destruct (ride_form_submits_same_location ReferenceHost.utc accepting
    (Some (RideForm.Ride.ride_id stored_ride)) edited_ride_form
    (Finite false (str "4") 1) (str "4"))
    as [_ (r & Hin & Hpick & Hdrop & _)];
    try (vm_compute; reflexivity).
  exists r. split; [exact Hin|]. split; [exact Hpick|exact Hdrop].
Defined.

(** ** Totality of the validation predicates and of the error mapping *)

Lemma hasValidDecimals_Normal (p : prim) (maxDecimals : Z) :
  exists b, hasValidDecimals p maxDecimals = Normal b.
Proof.
  unfold hasValidDecimals. destruct (isValidNumber p) eqn:Hvalid; simpl; [|eauto].
  destruct p; try discriminate; simpl;
    match goal with |- context [indexOf ?s ?c] => destruct (indexOf s c) end;
    eauto.
Qed.

(** C3, as the code has it.  The predicates have no effect on any
    state.  [isValidYear], [isValidRating], [isValidPositiveNumber] and
    [isAfter] call no method of their arguments and are boolean
    functions of them ([bool] is their type above).  [hasValidDecimals]
    returns a boolean for every primitive, its call of [toString] being
    guarded.  [isValidEmail] and
    [isValidPhoneNumber] return a boolean for every string, and for the
    falsy numbers; for any other number they throw a TypeError, because
    a number has no [trim] or [replace] method. *)
Theorem validation_predicates_total :
  (forall s, exists b, isValidEmail (PStr s) = Normal b) /\
  (forall s, exists b, isValidPhoneNumber (PStr s) = Normal b) /\
  (forall p maxDecimals, exists b, hasValidDecimals p maxDecimals = Normal b) /\
  (forall x, isValidEmail (PNum x) =
     if ToBoolean_number x
     then Throw (TypeError "email.trim is not a function")
     else Normal false) /\
  (forall x, isValidPhoneNumber (PNum x) =
     if ToBoolean_number x
     then Throw (TypeError "phone.replace is not a function")
     else Normal false).
Proof.
  repeat split.
  - intros s. unfold isValidEmail. destruct s; simpl; eauto.
  - intros s. unfold isValidPhoneNumber. destruct s; simpl; eauto.
  - apply hasValidDecimals_Normal.
  - intros x. unfold isValidEmail. simpl. by destruct (ToBoolean_number x).
  - intros x. unfold isValidPhoneNumber. simpl. by destruct (ToBoolean_number x).
Qed.

(** C3 as stated fails: [isValidEmail(5)] throws. *)
Lemma isValidEmail_number_throws :
  isValidEmail (PNum num_5) = Throw (TypeError "email.trim is not a function")
  /\ ~ exists b, isValidEmail (PNum num_5) = Normal b.
Proof. split; [reflexivity | intros [b H]; discriminate]. Qed.

Lemma friendly_messages_nonempty (m : jsstring) :
  In m friendly_messages -> m <> [].
Proof.
  unfold friendly_messages. simpl.
  intros H; repeat (destruct H as [<-|H]; [discriminate|]); destruct H.
Qed.

Lemma formatForeignKeyError_shown (v : value) :
  string_or_falsy v -> ToBoolean v = true ->
  exists shown, formatForeignKeyError v = Normal shown /\ shown <> [].
Proof.
  intros [Hs|Hf] Ht; [|congruence].
  destruct v as [[]|]; try discriminate.
  assert (Hne : s <> []) by (by destruct s).
  destruct (formatForeignKeyError_string s Hne) as [Hfree Hnamed].
  destruct (names_constraint s).
  - destruct Hnamed as (m & Hm & Hin); [done|].
    exists m. split; [done|]. by apply friendly_messages_nonempty.
  - exists s. split; [by apply Hfree | done].
Qed.

(** Where every message of an error is a string, a non-empty string is
    returned. *)
Lemma getErrorMessage_strings (error : value) :
  messages_are_strings error ->
  exists shown,
    getErrorMessage error = Normal shown /\ shown <> [] /\
    (recognised error = false -> shown = msg_unexpected).
Proof.
  intros Htyped. unfold getErrorMessage, recognised.
  assert (Hfallback : forall P : Prop, exists shown,
            Normal msg_unexpected = Normal shown /\ shown <> [] /\
            (P -> shown = msg_unexpected))
    by (intros P; exists msg_unexpected; split; [done|split; [discriminate|done]]).
  destruct (ToBoolean error) eqn:Et; cbn [negb andb]; [|apply Hfallback].
  destruct (get_of_truthy error "message" Et) as [m Hm].
  rewrite Hm. cbn [mbind completion_bind].
  assert (Hpath1 : get_path error ["message"] = Normal m)
    by (cbn [get_path]; by rewrite Hm).
  unfold message_paths. cbn [existsb]. unfold truthy_at at 1. rewrite Hpath1.
  destruct (ToBoolean m) eqn:Em.
  { destruct (formatForeignKeyError_shown m) as (shown & Hshown & Hne);
      [apply (Htyped ["message"]); [simpl; tauto | done] | done |].
    exists shown. split; [done|]. split; [done|].
    rewrite orb_true_r. discriminate. }
  destruct (is_string error) eqn:Es.
  { destruct (formatForeignKeyError_shown error) as (shown & Hshown & Hne);
      [by left | done |].
    exists shown. split; [done|]. split; [done|discriminate]. }
  cbn [orb].
  destruct (get_of_truthy error "response" Et) as [r Hr].
  unfold js_and. rewrite Hr. cbn [mbind completion_bind].
  unfold truthy_at. cbn [get_path]. rewrite Hr.
  destruct (ToBoolean r) eqn:Er.
  2: { cbn [mret completion_ret mbind completion_bind]. rewrite Er.
       destruct r as [[]|]; try discriminate; apply Hfallback. }
  destruct (get_of_truthy r "data" Er) as [d Hd]. rewrite Hd.
  cbn [mbind completion_bind].
  destruct (ToBoolean d) eqn:Ed.
  2: { destruct d as [[]|]; try discriminate; apply Hfallback. }
  destruct (get_of_truthy d "error" Ed) as [de Hde].
  destruct (get_of_truthy d "message" Ed) as [dm Hdm].
  rewrite Hde, Hdm. cbn [mbind completion_bind].
  destruct (ToBoolean de) eqn:Ede.
  { destruct (formatForeignKeyError_shown de) as (shown & Hshown & Hne); [|done|].
    - apply (Htyped ["response"; "data"; "error"]); [simpl; tauto|].
      cbn [get_path]. by rewrite Hr, Hd, Hde.
    - exists shown. split; [done|]. split; [done|discriminate]. }
  destruct (ToBoolean dm) eqn:Edm.
  { destruct (formatForeignKeyError_shown dm) as (shown & Hshown & Hne); [|done|].
    - apply (Htyped ["response"; "data"; "message"]); [simpl; tauto|].
      cbn [get_path]. by rewrite Hr, Hd, Hdm.
    - exists shown. split; [done|]. split; [done|discriminate]. }
  apply Hfallback.
Qed.

(** The value [getErrorMessage] formats: the first truthy one among the
    three places, else the error itself when it is a non-empty string,
    else nothing. *)
Lemma getErrorMessage_selects (error : value) :
  getErrorMessage error =
  match first_message error with
  | Some v => formatForeignKeyError v
  | None =>
      if ToBoolean error && is_string error then formatForeignKeyError error
      else mret msg_unexpected
  end.
Proof.
  unfold getErrorMessage, first_message, message_paths.
  destruct (ToBoolean error) eqn:Et; cbn [negb andb].
  2: { assert (Hnone : forall path, truthy_at error path = false \/ path = []).
       { intros [|name rest]; [by right|left]. unfold truthy_at. cbn [get_path].
         destruct error as [[]|]; try discriminate; try done;
           destruct rest; done. }
       cbn [find].
       destruct (Hnone ["message"]) as [->|]; [|done].
       destruct (Hnone ["response"; "data"; "error"]) as [->|]; [|done].
       destruct (Hnone ["response"; "data"; "message"]) as [->|]; [|done].
       done. }
  destruct (get_of_truthy error "message" Et) as [m Hm].
  rewrite Hm. cbn [mbind completion_bind].
  assert (H1 : truthy_at error ["message"] = ToBoolean m).
  { unfold truthy_at. cbn [get_path]. by rewrite Hm. }
  cbn [find]. rewrite H1.
  destruct (ToBoolean m) eqn:Em.
  { cbn [get_path]. by rewrite Hm. }
  destruct (get_of_truthy error "response" Et) as [r Hr].
  destruct (is_string error) eqn:Es.
  { assert (r = VPrim PUndefined) as ->.
    { destruct error as [[]|]; try discriminate. simpl in Hr. by injection Hr. }
    unfold truthy_at. cbn [get_path]. rewrite Hr. done. }
  unfold js_and. rewrite Hr. cbn [mbind completion_bind].
  unfold truthy_at. cbn [get_path]. rewrite Hr.
  destruct (ToBoolean r) eqn:Er.
  2: { cbn [mret completion_ret mbind completion_bind]. rewrite Er.
       destruct r as [[]|]; try discriminate; done. }
  destruct (get_of_truthy r "data" Er) as [d Hd]. rewrite Hd.
  cbn [mbind completion_bind].
  destruct (ToBoolean d) eqn:Ed.
  2: { destruct d as [[]|]; try discriminate; done. }
  destruct (get_of_truthy d "error" Ed) as [de Hde].
  destruct (get_of_truthy d "message" Ed) as [dm Hdm].
  rewrite Hde, Hdm. cbn [mbind completion_bind].
  destruct (ToBoolean de) eqn:Ede.
  { cbn [get_path]. by rewrite Hr, Hd, Hde. }
  destruct (ToBoolean dm) eqn:Edm; [|done].
  cbn [get_path]. by rewrite Hr, Hd, Hdm.
Qed.

Lemma first_message_truthy (error v : value) :
  first_message error = Some v -> ToBoolean v = true.
Proof.
  unfold first_message.
  destruct (find (truthy_at error) message_paths) as [path|] eqn:Hfind; [|done].
  apply find_some in Hfind as [_ Ht]. unfold truthy_at in Ht.
  destruct (get_path error path) as [w|]; [|done]. by intros [= <-].
Qed.

Lemma truthy_at_truthy (error : value) (path : list string) :
  In path message_paths -> truthy_at error path = true -> ToBoolean error = true.
Proof.
  intros Hin. destruct error as [p|props]; [|done].
  unfold message_paths in Hin. simpl in Hin.
  destruct Hin as [<-|[<-|[<-|[]]]]; unfold truthy_at; destruct p; discriminate.
Qed.

Lemma first_message_recognised (error v : value) :
  first_message error = Some v -> recognised error = true.
Proof.
  unfold first_message, recognised.
  destruct (find (truthy_at error) message_paths) as [path|] eqn:Hfind; [|done].
  apply find_some in Hfind as [Hin Hpath]. intros _.
  rewrite (truthy_at_truthy error path Hin Hpath).
  assert (Hex : existsb (truthy_at error) message_paths = true)
    by (apply existsb_exists; eauto).
  by rewrite Hex, orb_true_r.
Qed.

Lemma formatForeignKeyError_throws (v : value) :
  ToBoolean v = true -> is_string v = false ->
  exists e, formatForeignKeyError v = Throw e.
Proof.
  intros Ht Hs. unfold formatForeignKeyError. rewrite Ht. cbn [negb].
  destruct v as [[]|]; try discriminate; cbn; eauto.
Qed.

(** C8, as the code has it.  For every error whose messages, where it
    has any (its [message], [response.data.error] and
    [response.data.message]), are strings, [getErrorMessage] returns a
    non-empty string.  On every value it either returns a non-empty
    string or throws; it throws exactly when the first truthy value
    among these three places is not a string; and it returns 'An
    unexpected error occurred' for every value it does not recognise:
    null, undefined and the other falsy values, and values that are
    neither a string nor carry a truthy value at one of these places. *)
Theorem getErrorMessage_total (error : value) :
  (messages_are_strings error ->
   exists shown,
     getErrorMessage error = Normal shown /\ shown <> [] /\
     (recognised error = false -> shown = msg_unexpected)) /\
  ((exists e, getErrorMessage error = Throw e) <->
   exists v, first_message error = Some v /\ is_string v = false) /\
  (forall shown, getErrorMessage error = Normal shown -> shown <> []) /\
  (recognised error = false -> getErrorMessage error = Normal msg_unexpected).
Proof.
  split; [apply getErrorMessage_strings|].
  rewrite getErrorMessage_selects.
  assert (Hstring : forall v, ToBoolean v = true -> is_string v = true ->
            exists shown, formatForeignKeyError v = Normal shown /\ shown <> []).
  { intros v Ht Hs. apply formatForeignKeyError_shown; [by left|done]. }
  destruct (first_message error) as [v|] eqn:Hfirst.
  - pose proof (first_message_truthy _ _ Hfirst) as Ht.
    destruct (is_string v) eqn:Hs.
    + destruct (Hstring v Ht Hs) as (shown & -> & Hne).
      split; [|split].
      * split; [intros [e He]; discriminate|].
        intros (w & [= <-] & Hw). congruence.
      * by intros ? [= <-].
      * rewrite (first_message_recognised _ _ Hfirst). discriminate.
    + destruct (formatForeignKeyError_throws v Ht Hs) as [e He].
      rewrite He. split; [|split].
      * split; [intros _; by exists v | intros _; by exists e].
      * discriminate.
      * rewrite (first_message_recognised _ _ Hfirst). discriminate.
  - assert (Hnone : forall c : completion jsstring,
      (exists shown, c = Normal shown /\ shown <> []) ->
      ((exists e, c = Throw e) <->
       exists v : value, None = Some v /\ is_string v = false) /\
      (forall shown, c = Normal shown -> shown <> [])).
    { intros c (shown & -> & Hne). split.
      - split; [intros [e He]; discriminate | intros (w & Hw & _); discriminate].
      - by intros ? [= <-]. }
    destruct (ToBoolean error && is_string error) eqn:Hes.
    + apply andb_true_iff in Hes as [Ht Hs].
      destruct (Hnone (formatForeignKeyError error) (Hstring error Ht Hs))
        as [H1 H2].
      split; [done|]. split; [done|].
      unfold recognised. rewrite Ht, Hs. discriminate.
    + destruct (Hnone (mret msg_unexpected)) as [H1 H2].
      { exists msg_unexpected. split; [done|discriminate]. }
      split; [done|]. split; [done|]. done.
Qed.

Lemma getErrorMessage_total_witness :
  exists shown,
    getErrorMessage (VObj [("response",
        VObj [("data", VObj [("message", VPrim (PStr (str "Driver not found")))])])])
      = Normal shown /\ shown <> [].
Proof.
  destruct (proj1 (getErrorMessage_total
    (VObj [("response",
        VObj [("data", VObj [("message", VPrim (PStr (str "Driver not found")))])])])))
    as (shown & H1 & H2 & _).
  - intros path v Hin Hget. simpl in Hin.
    destruct Hin as [<-|[<-|[<-|[]]]]; vm_compute in Hget;
      injection Hget as <-; [by right | by right | by left].
  - exists shown. by split.
Defined.

(** C8 as stated fails: an object whose [message] is the number 42 is an
    object with a message property, and [getErrorMessage] throws on
    it. *)
Lemma getErrorMessage_number_message_throws :
  getErrorMessage (VObj [("message", VPrim (PNum num_42))])
    = Throw (TypeError "errorMessage.toLowerCase is not a function")
  /\ ~ exists shown,
         getErrorMessage (VObj [("message", VPrim (PNum num_42))]) = Normal shown.
Proof. split; [reflexivity | intros [b H]; discriminate]. Qed.

(** ** Rounding to a double *)

Lemma round_double_small (i : Z) :
  (- 2 ^ 53 < i < 2 ^ 53)%Z -> round_double i = i.
Proof.
  intros H. unfold round_double.
  assert ((Z.abs i <? 2 ^ 53)%Z = true) as -> by (apply Z.ltb_lt; lia). done.
Qed.

(** An integer of magnitude [2^53] or more stays one when rounded, on
    the same side of zero. *)
Lemma round_double_large (i : Z) :
  (2 ^ 53 <= Z.abs i)%Z ->
  (0 <= i -> 2 ^ 53 <= round_double i)%Z /\
  (i <= 0 -> round_double i <= - 2 ^ 53)%Z.
Proof.
  intros H. unfold round_double.
  assert ((Z.abs i <? 2 ^ 53)%Z = false) as -> by (apply Z.ltb_ge; lia).
  set (a := Z.abs i) in *. set (k := (Z.log2 a - 52)%Z).
  assert (Ha : (0 < a)%Z) by lia.
  assert (Hlog : (53 <= Z.log2 a)%Z).
  { apply Z.log2_le_pow2; [done|]. exact H. }
  destruct (Z.log2_spec a Ha) as [Hlo _].
  assert (Hk : (1 <= k)%Z) by (subst k; lia).
  assert (Hpow : (2 ^ Z.log2 a = 2 ^ 52 * 2 ^ k)%Z).
  { subst k. rewrite <- Z.pow_add_r by lia. f_equal. lia. }
  assert (Hk0 : (0 < 2 ^ k)%Z) by (apply Z.pow_pos_nonneg; lia).
  assert (Hq : (2 ^ 52 <= a / 2 ^ k)%Z).
  { apply Z.div_le_lower_bound; [done|]. rewrite Z.mul_comm. lia. }
  assert (Hk2 : (2 <= 2 ^ k)%Z).
  { change 2%Z with (2 ^ 1)%Z at 1. apply Z.pow_le_mono_r; lia. }
  match goal with |- context [if ?c then _ else _] => set (up := c) end.
  set (q' := if up then _ else _).
  assert (Hq' : (2 ^ 52 <= q')%Z) by (subst q'; destruct up; lia).
  assert (Hbig : (2 ^ 53 <= q' * 2 ^ k)%Z).
  { change (2 ^ 53)%Z with (2 ^ 52 * 2)%Z. apply Z.mul_le_mono_nonneg; lia. }
  split; intros Hi.
  - assert (Z.sgn i = 1)%Z as -> by (apply Z.sgn_pos; lia). lia.
  - assert (Z.sgn i = -1)%Z as -> by (apply Z.sgn_neg; lia). lia.
Qed.

(** Rounding changes no comparison with an integer below [2^53] in
    magnitude. *)
Lemma round_double_ge (lo i : Z) :
  (- 2 ^ 53 < lo < 2 ^ 53)%Z -> (lo <=? round_double i)%Z = (lo <=? i)%Z.
Proof.
  intros Hlo.
  destruct (Z.lt_ge_cases (Z.abs i) (2 ^ 53)) as [Hi|Hi].
  { rewrite round_double_small by lia. done. }
  destruct (round_double_large i Hi) as [Hpos Hneg].
  destruct (Z.le_ge_cases 0 i) as [H0|H0].
  - specialize (Hpos H0).
    assert ((lo <=? round_double i)%Z = true) as -> by (apply Z.leb_le; lia).
    symmetry. apply Z.leb_le. lia.
  - specialize (Hneg H0).
    assert ((lo <=? round_double i)%Z = false) as -> by (apply Z.leb_gt; lia).
    symmetry. apply Z.leb_gt. lia.
Qed.

Lemma round_double_le (hi i : Z) :
  (- 2 ^ 53 < hi < 2 ^ 53)%Z -> (round_double i <=? hi)%Z = (i <=? hi)%Z.
Proof.
  intros Hhi.
  destruct (Z.lt_ge_cases (Z.abs i) (2 ^ 53)) as [Hi|Hi].
  { rewrite round_double_small by lia. done. }
  destruct (round_double_large i Hi) as [Hpos Hneg].
  destruct (Z.le_ge_cases 0 i) as [H0|H0].
  - specialize (Hpos H0).
    assert ((round_double i <=? hi)%Z = false) as -> by (apply Z.leb_gt; lia).
    symmetry. apply Z.leb_gt. lia.
  - specialize (Hneg H0).
    assert ((round_double i <=? hi)%Z = true) as -> by (apply Z.leb_le; lia).
    symmetry. apply Z.leb_le. lia.
Qed.

(** ** Digits *)

Lemma isDigit_range (c : N) : isDigit c = true <-> (48 <= c <= 57)%N.
Proof. unfold isDigit. rewrite andb_true_iff, !N.leb_le. tauto. Qed.

Lemma isRadixDigit_10 (c : N) : isRadixDigit 10 c = isDigit c.
Proof.
  unfold isRadixDigit, radix_digit.
  destruct (isDigit c) eqn:Hd.
  - apply isDigit_range in Hd.
    assert (H : (c - 48 <? 10)%N = true) by (apply N.ltb_lt; lia).
    by rewrite H.
  - destruct ((97 <=? c) && (c <=? 122))%N eqn:Hl.
    + apply andb_true_iff in Hl as [H1 H2]. apply N.leb_le in H1.
      assert (H : (c - 87 <? 10)%N = false) by (apply N.ltb_ge; lia).
      by rewrite H.
    + destruct ((65 <=? c) && (c <=? 90))%N eqn:Hu; [|done].
      apply andb_true_iff in Hu as [H1 H2]. apply N.leb_le in H1.
      assert (H : (c - 55 <? 10)%N = false) by (apply N.ltb_ge; lia).
      by rewrite H.
Qed.

Lemma span_isRadixDigit_10 (s : jsstring) :
  span (isRadixDigit 10) s = span isDigit s.
Proof.
  induction s as [|c t IH]; simpl; [done|].
  by rewrite isRadixDigit_10, IH.
Qed.

Lemma radix_digit_10 (c : N) :
  isDigit c = true -> default 0%N (radix_digit 10 c) = digit_val c.
Proof.
  intros Hd. unfold radix_digit. rewrite Hd. apply isDigit_range in Hd.
  assert (H : (c - 48 <? 10)%N = true) by (apply N.ltb_lt; lia).
  by rewrite H.
Qed.

Lemma radix_value_10 (ds : jsstring) :
  Forall (fun c => isDigit c = true) ds -> radix_value 10 ds = digits_value ds.
Proof.
  unfold radix_value, digits_value. intros Hall.
  assert (H : forall acc,
    fold_left (fun a c => a * 10 + default 0 (radix_digit 10 c))%N ds acc
    = fold_left (fun a c => a * 10 + digit_val c)%N ds acc); [|apply H].
  induction Hall as [|c t Hc _ IH]; intros acc; cbn [fold_left]; [done|].
  rewrite radix_digit_10 by done. apply IH.
Qed.

Lemma digits_value_acc (ds : jsstring) (acc : N) :
  fold_left (fun a c => a * 10 + digit_val c)%N ds acc
  = (acc * 10 ^ N.of_nat (length ds) + digits_value ds)%N.
Proof.
  unfold digits_value. revert acc.
  induction ds as [|c t IH]; intros acc.
  - simpl. lia.
  - cbn [fold_left length]. rewrite IH, (IH (0 * 10 + digit_val c)%N).
    rewrite Nat2N.inj_succ, N.pow_succ_r'. lia.
Qed.

Lemma digits_value_app (a b : jsstring) :
  digits_value (a ++ b)
  = (digits_value a * 10 ^ N.of_nat (length b) + digits_value b)%N.
Proof.
  unfold digits_value at 1. rewrite fold_left_app.
  fold (digits_value a). apply digits_value_acc.
Qed.

Lemma digits_value_bound (ds : jsstring) :
  Forall (fun c => isDigit c = true) ds ->
  (digits_value ds < 10 ^ N.of_nat (length ds))%N.
Proof.
  induction ds as [|c t IH] using rev_ind; intros Hall.
  - reflexivity.
  - apply Forall_app in Hall as [Ht Hc]. inversion Hc; subst.
    match goal with H : isDigit _ = true |- _ => apply isDigit_range in H end.
    rewrite digits_value_app, length_app. simpl.
    rewrite Nat2N.inj_add, N.pow_add_r. specialize (IH Ht).
    unfold digits_value at 2. simpl. unfold digit_val.
    change (N.of_nat 1) with 1%N. rewrite N.pow_1_r. lia.
Qed.

Lemma digits_value_zeros (j : nat) : digits_value (replicate j 48%N) = 0%N.
Proof.
  induction j as [|j IH]; [done|].
  change (replicate (S j) 48%N) with ([48%N] ++ replicate j 48%N).
  rewrite digits_value_app, IH. done.
Qed.

Lemma digits_value_take (s : jsstring) (n : nat) :
  Forall (fun c => isDigit c = true) s ->
  (n <= length s)%nat ->
  digits_value (take n s)
  = (digits_value s / 10 ^ N.of_nat (length s - n))%N.
Proof.
  intros Hall Hn.
  rewrite <- (take_drop n s) at 2. rewrite digits_value_app.
  rewrite length_drop.
  assert (Hb : (digits_value (drop n s) < 10 ^ N.of_nat (length s - n))%N).
  { rewrite <- (length_drop s n). apply digits_value_bound.
    by apply Forall_drop. }
  rewrite N.div_add_l by (apply N.pow_nonzero; lia).
  rewrite (N.div_small _ _ Hb). lia.
Qed.

(** ** The string form of numbers *)

Ltac cases_N :=
  repeat match goal with
  | |- context [(?a <=? ?b)%N] => destruct (N.leb_spec a b); try lia
  | |- context [(?a =? ?b)%N] => destruct (N.eqb_spec a b); try lia
  end.

Lemma isWhiteSpace_digit (c : N) : isDigit c = true -> isWhiteSpace c = false.
Proof.
  intros H. apply isDigit_range in H. unfold isWhiteSpace. cases_N; try done.
Qed.

Lemma scan_sign_digit (c : N) (t : jsstring) :
  isDigit c = true -> scan_sign (c :: t) = (false, c :: t).
Proof.
  intros H. apply isDigit_range in H. unfold scan_sign. cases_N; try done.
Qed.

Lemma trimStart_signed (neg : bool) (c : N) (t : jsstring) :
  isDigit c = true ->
  trimStart (sign_of neg ++ c :: t) = sign_of neg ++ c :: t.
Proof.
  intros H. destruct neg; simpl; [done|]. by rewrite isWhiteSpace_digit.
Qed.

Lemma scan_sign_signed (neg : bool) (c : N) (t : jsstring) :
  isDigit c = true -> scan_sign (sign_of neg ++ c :: t) = (neg, c :: t).
Proof.
  intros H. destruct neg; [done|]. by apply scan_sign_digit.
Qed.

Lemma starts_with_head_ne (p c : N) (pre t : jsstring) :
  p <> c -> starts_with (p :: pre) (c :: t) = false.
Proof. intros H. cbn [starts_with]. by apply N.eqb_neq in H as ->. Qed.

(** A string that starts with digits, after an optional minus sign, is
    read by [parseFloat] as a number, not as NaN. *)
Lemma parseFloat_string_signed_digit (neg : bool) (c : N) (t : jsstring) :
  isDigit c = true ->
  exact_isNaN (parseFloat_string (sign_of neg ++ c :: t)) = false.
Proof.
  intros H. unfold parseFloat_string, scan_decimal.
  rewrite trimStart_signed, scan_sign_signed by done.
  assert (starts_with (str "Infinity") (c :: t) = false) as ->.
  { change (str "Infinity") with (73%N :: str "nfinity").
    apply starts_with_head_ne. apply isDigit_range in H. lia. }
  cbn [span]. rewrite H. destruct (span isDigit t) as [ip s2].
  destruct s2 as [|c2 t2]; [|destruct (c2 =? 46)%N; [destruct (span isDigit t2)|]];
    cbn [app];
    match goal with
    | |- context [scan_exponent ?s] => by destruct (scan_exponent s)
    end.
Qed.

(** [parseInt] on digits, after an optional minus sign and before the
    end of the string or a point. *)
Lemma parseInt_string_signed_digits (neg : bool) (ds rest : jsstring) :
  ds <> [] ->
  Forall (fun c => isDigit c = true) ds ->
  (rest = [] \/ exists t, rest = 46%N :: t) ->
  parseInt_string (sign_of neg ++ ds ++ rest)
  = Some (if neg then - Z.of_N (digits_value ds) else Z.of_N (digits_value ds))%Z.
Proof.
  intros Hne Hall Hrest. destruct ds as [|z ds]; [done|].
  inversion Hall as [|? ? Hz Hds]; subst.
  unfold parseInt_string. cbn [app].
  rewrite trimStart_signed, scan_sign_signed by done.
  assert (Hradix : scan_radix (z :: ds ++ rest) = (10%N, z :: ds ++ rest)).
  { unfold scan_radix. destruct (ds ++ rest) as [|p t] eqn:Hp; [done|].
    assert (Hp' : isDigit p = true \/ p = 46%N).
    { destruct ds as [|d ds']; simpl in Hp.
      - destruct Hrest as [->|[t' ->]]; [done|]. injection Hp as <- _. by right.
      - injection Hp as <- _. left. by inversion Hds. }
    assert ((p =? 120) || (p =? 88) = false)%N as ->; [|by rewrite andb_false_r].
    destruct Hp' as [Hd| ->]; [|done].
    apply isDigit_range in Hd. cases_N; try done. }
  rewrite Hradix. rewrite span_isRadixDigit_10.
  change (z :: ds ++ rest) with ((z :: ds) ++ rest).
  rewrite span_all; [|done|].
  - by rewrite radix_value_10.
  - destruct Hrest as [->|[t ->]]; done.
Qed.

Lemma wf_digits_head (s : jsstring) :
  wf_digits s -> exists c t, s = c :: t /\ isDigit c = true /\ c <> 48%N.
Proof.
  intros (Hall & (c & t & -> & Hc) & _). exists c, t.
  inversion Hall; subst. done.
Qed.

(** The string form of a finite number starts, after the sign, with a
    digit. *)
Lemma number_toString_head (neg : bool) (s : jsstring) (n : Z) :
  wf_digits s ->
  exists c t, number_toString (Finite neg s n) = sign_of neg ++ c :: t
              /\ isDigit c = true.
Proof.
  intros Hwf. destruct (wf_digits_head s Hwf) as (c & t & -> & Hc & _).
  unfold number_toString.
  change (if neg then str "-" else []) with (sign_of neg).
  destruct ((Z.of_nat (length (c :: t)) <=? n) && (n <=? 21))%Z;
    [eexists c, _; split; [reflexivity|done]|].
  destruct ((0 <? n) && (n <=? 21))%Z eqn:Hn.
  { apply andb_true_iff in Hn as [Hn _]. apply Z.ltb_lt in Hn.
    destruct (Z.to_nat n) as [|m] eqn:Hm; [lia|].
    cbn [take]. eexists c, _; split; [reflexivity|done]. }
  destruct ((-6 <? n) && (n <=? 0))%Z;
    [eexists 48%N, _; split; [reflexivity|done]|].
  destruct t; eexists c, _; (split; [reflexivity|done]).
Qed.

(** Without exponent, the string form consists of the sign, the digits
    of the integer part, and nothing or a point and more. *)
Lemma number_toString_plain (neg : bool) (s : jsstring) (n : Z) :
  wf_digits s -> (-6 < n <= 21)%Z ->
  exists ds rest,
    number_toString (Finite neg s n) = sign_of neg ++ ds ++ rest /\
    ds <> [] /\ Forall (fun c => isDigit c = true) ds /\
    (rest = [] \/ exists t, rest = 46%N :: t) /\
    Z.of_N (digits_value ds) = trunc_digits s n.
Proof.
  intros Hwf Hn. pose proof Hwf as (Hall & _ & _).
  destruct (wf_digits_head s Hwf) as (c & t & Hs & Hc & _).
  assert (Hk : (1 <= Z.of_nat (length s))%Z) by (subst s; simpl; lia).
  pose proof (digits_value_bound s Hall) as Hbound.
  unfold number_toString, trunc_digits.
  change (if neg then str "-" else []) with (sign_of neg).
  set (k := Z.of_nat (length s)) in *.
  destruct (Z.leb_spec k n) as [Hkn|Hkn]; cbn [andb].
  - assert ((n <=? 21)%Z = true) as -> by (apply Z.leb_le; lia).
    exists (s ++ replicate (Z.to_nat (n - k)) 48%N), [].
    rewrite app_nil_r. split; [done|]. split; [subst s; done|].
    split; [|split; [by left|]].
    + apply Forall_app. split; [done|]. by apply Forall_replicate.
    + rewrite digits_value_app, digits_value_zeros, length_replicate.
      rewrite N.add_0_r, N2Z.inj_mul, N2Z.inj_pow, nat_N_Z, Z2Nat.id by lia.
      done.
  - destruct (Z.ltb_spec 0 n) as [Hpos|Hpos]; cbn [andb].
    + assert ((n <=? 21)%Z = true) as -> by (apply Z.leb_le; lia).
      exists (take (Z.to_nat n) s), (str "." ++ drop (Z.to_nat n) s).
      split; [done|]. split; [|split; [|split]].
      * subst s. destruct (Z.to_nat n) eqn:E; [lia|done].
      * by apply Forall_take.
      * right. by eexists.
      * rewrite digits_value_take by (done || (subst k; lia)).
        rewrite N2Z.inj_div, N2Z.inj_pow, nat_N_Z. f_equal. f_equal.
        subst k. lia.
    + assert (((-6 <? n) && (n <=? 0))%Z = true) as ->.
      { apply andb_true_iff. split; [apply Z.ltb_lt|apply Z.leb_le]; lia. }
      exists [48%N], (46%N :: replicate (Z.to_nat (- n)) 48%N ++ s).
      split; [done|]. split; [done|]. split; [by repeat constructor|].
      split; [right; by eexists|].
      rewrite Z.div_small; [done|]. split; [lia|].
      apply Z.lt_le_trans with (10 ^ k)%Z.
      * subst k. rewrite <- nat_N_Z, <- (N2Z.inj_pow 10). lia.
      * apply Z.pow_le_mono_r; lia.
Qed.

Lemma isValidNumber_finite (neg : bool) (s : jsstring) (n : Z) :
  wf_digits s -> isValidNumber (PNum (Finite neg s n)) = true.
Proof.
  intros Hwf. unfold isValidNumber, parseFloat. cbn [strict_equal orb ToString isFinite].
  destruct (number_toString_head neg s n Hwf) as (c & t & -> & Hc).
  by rewrite parseFloat_string_signed_digit.
Qed.

(** ** Payment amounts *)

(** C2 fails on the code.  The amount "1e-7" passes the four checks of
    the payment form ([isRequired], [isValidPositiveNumber],
    [hasValidDecimals] with 2, the upper bound): [validateForm] records
    no error and answers true, and the handler posts a payment whose
    amount is [parseFloat("1e-7")], that is 0.0000001, with seven
    fractional digits. *)
Theorem payment_form_accepts_exponent_amount :
  isRequired (PaymentForm.amount tiny_amount_form) = Normal true /\
  isValidPositiveNumber (PaymentForm.amount tiny_amount_form) = true /\
  hasValidDecimals (PaymentForm.amount tiny_amount_form) 2 = Normal true /\
  PaymentForm.exceeds_999999_99
    (parseFloat (PaymentForm.amount tiny_amount_form)) = false /\
  PaymentForm.validateForm tiny_amount_form = Normal (∅, true) /\
  (exists body,
     In (Call (Api.Post (str "/payments") body))
        (PaymentForm.handleSubmit ReferenceHost.utc
           (fun _ => Api.Fulfilled (VPrim PUndefined)) None tiny_amount_form).1
     /\ PaymentForm.s_amount body = EDec false 1 (-7)
     /\ fraction_digits_le 2 (PaymentForm.s_amount body) = false
     /\ fraction_digits_le 7 (PaymentForm.s_amount body) = true).
Proof.
  split; [reflexivity|]. split; [vm_compute; reflexivity|].
  split; [reflexivity|]. split; [vm_compute; reflexivity|].
  assert (Hval : PaymentForm.validateForm tiny_amount_form = Normal (∅, true))
    by (vm_compute; reflexivity).
  split; [exact Hval|].
  unfold PaymentForm.handleSubmit. rewrite Hval. cbn [negb].
  eexists. split; [|split; [|split]].
  - unfold submit. cbn [fst app]. right. right. right. left. reflexivity.
  - reflexivity.
  - reflexivity.
  - reflexivity.
Qed.

Lemma trimStart_decomp (s : jsstring) :
  exists ws, s = ws ++ trimStart s /\ Forall (fun c => isWhiteSpace c = true) ws.
Proof.
  induction s as [|c t (ws & Ht & Hws)]; [by exists []|].
  simpl. destruct (isWhiteSpace c) eqn:Hc.
  - exists (c :: ws). split; [simpl; congruence | by constructor].
  - by exists [].
Qed.

Lemma scan_sign_decomp (t s1 : jsstring) (neg : bool) :
  scan_sign t = (neg, s1) ->
  exists sg, t = sg ++ s1 /\ Forall (fun c => c = 45%N \/ c = 43%N) sg.
Proof.
  unfold scan_sign. destruct t as [|c t']; [intros [= <- <-]; by exists []|].
  destruct (N.eqb_spec c 45) as [->|_].
  { intros [= <- <-]. exists [45%N]. split; [done|]. repeat constructor. }
  destruct (N.eqb_spec c 43) as [->|_]; intros [= <- <-].
  - exists [43%N]. split; [done|]. constructor; [by right|constructor].
  - by exists [].
Qed.

Lemma indexOf_first (a b : jsstring) (x : N) :
  Forall (fun c => c <> x) a -> indexOf (a ++ x :: b) x = Some (length a).
Proof.
  induction 1 as [|c a Hc _ IH]; simpl.
  - by rewrite N.eqb_refl.
  - apply N.eqb_neq in Hc as ->. by rewrite IH.
Qed.

Lemma substring_after (a b : jsstring) (x : N) :
  substring (a ++ x :: b) (length a + 1) = b.
Proof. unfold substring. induction a as [|c a IH]; [done | exact IH]. Qed.

Lemma isWhiteSpace_not_point (c : N) : isWhiteSpace c = true -> c <> 46%N.
Proof. intros H ->. discriminate. Qed.

Lemma isDigit_not_point (c : N) : isDigit c = true -> c <> 46%N.
Proof. intros H ->. discriminate. Qed.

(** Where [parseFloat] finds a finite value in a string without [e] and
    [E], the decimal exponent of the value is minus the number of
    digits after the first point, which all lie in what [indexOf] and
    [substring] cut out. *)
Lemma parseFloat_string_plain (v : jsstring) (neg : bool) (m : N) (e : Z) :
  parseFloat_string v = EDec neg m e ->
  Forall (fun c => c <> 101%N /\ c <> 69%N) v ->
  (e <= 0)%Z /\
  match indexOf v 46 with
  | None => e = 0%Z
  | Some i => (- e <= Z.of_nat (length (substring v (i + 1))))%Z
  end.
Proof.
  intros Hparse Hplain. unfold parseFloat_string in Hparse.
  destruct (trimStart_decomp v) as (ws & Hv & Hws).
  destruct (scan_decimal (trimStart v)) as [[x rest]|] eqn:Hscan; [|done].
  subst x. unfold scan_decimal in Hscan.
  destruct (scan_sign (trimStart v)) as [neg' s1] eqn:Hsign.
  destruct (scan_sign_decomp _ _ _ Hsign) as (sg & Ht & Hsg).
  destruct (starts_with (str "Infinity") s1); [done|].
  destruct (span isDigit s1) as [ip s2] eqn:Hip.
  destruct (span_eq _ _ _ _ Hip) as [Hs1 Hipd].
  assert (Hpre : Forall (fun c => c <> 46%N) (ws ++ sg ++ ip)).
  { rewrite !Forall_app. repeat split.
    - eapply Forall_impl; [exact Hws|]. apply isWhiteSpace_not_point.
    - eapply Forall_impl; [exact Hsg|]. intros c [-> | ->]; done.
    - eapply Forall_impl; [exact Hipd|]. apply isDigit_not_point. }
  assert (Hno_exp : forall s3, (exists pre, v = pre ++ s3) ->
                     scan_exponent s3 = (0%Z, s3)).
  { intros s3 [pre Hpre3]. unfold scan_exponent. destruct s3 as [|c t3]; [done|].
    assert (Hc : c <> 101%N /\ c <> 69%N).
    { rewrite Forall_forall in Hplain. apply Hplain. rewrite Hpre3.
      apply list_elem_of_In, in_app_iff. right. by left. }
    destruct Hc as [H1 H2]. apply N.eqb_neq in H1, H2. by rewrite H1, H2. }
  destruct s2 as [|c t2].
  - (* the string ends after the integer digits *)
    destruct (ip ++ []) as [|d ds]; [done|].
    rewrite (Hno_exp []) in Hscan by (exists v; by rewrite app_nil_r).
    injection Hscan as _ _ He _. subst e. split; [done|].
    destruct (indexOf v 46) as [i|]; [|done]. simpl. lia.
  - destruct (N.eqb_spec c 46) as [->|Hc].
    + (* a point, then the fraction digits *)
      destruct (span isDigit t2) as [fp s3] eqn:Hfp.
      destruct (span_eq _ _ _ _ Hfp) as [Ht2 Hfpd].
      assert (Hv' : v = (ws ++ sg ++ ip) ++ 46%N :: fp ++ s3).
      { rewrite Hv, Ht, Hs1, Ht2. by rewrite <- !app_assoc. }
      assert (Hidx : indexOf v 46 = Some (length (ws ++ sg ++ ip)))
        by (rewrite Hv'; by apply indexOf_first).
      assert (Hsub : substring v (length (ws ++ sg ++ ip) + 1) = fp ++ s3).
      { rewrite Hv'. apply substring_after. }
      assert (Hexp : scan_exponent s3 = (0%Z, s3)).
      { apply Hno_exp. exists ((ws ++ sg ++ ip) ++ 46%N :: fp). rewrite Hv'.
        by rewrite <- !app_assoc. }
      destruct (ip ++ fp) as [|d ds]; [done|].
      rewrite Hexp in Hscan. injection Hscan as _ _ He _. subst e.
      split; [lia|]. rewrite Hidx, Hsub, length_app. lia.
    + (* no point after the integer digits *)
      assert (Hexp : scan_exponent (c :: t2) = (0%Z, c :: t2)).
      { apply Hno_exp. exists (ws ++ sg ++ ip). rewrite Hv, Ht, Hs1.
        by rewrite <- !app_assoc. }
      destruct (ip ++ []) as [|d ds]; [done|].
      rewrite Hexp in Hscan. injection Hscan as _ _ He _. subst e.
      split; [done|]. destruct (indexOf v 46); [simpl; lia | done].
Qed.

(** What the amount step of the payment form leaves in [newErrors]. *)
Lemma payment_validate_amount (fd : PaymentForm.formData) errs ok :
  PaymentForm.validateForm fd = Normal (errs, ok) ->
  ok = no_errors errs /\
  ((isValidPositiveNumber (PaymentForm.amount fd) = true /\
    hasValidDecimals (PaymentForm.amount fd) 2 = Normal true /\
    PaymentForm.exceeds_999999_99 (parseFloat (PaymentForm.amount fd)) = false)
   \/ is_Some (errs !! "amount")).
Proof.
  unfold PaymentForm.validateForm. intros H.
  apply bind_Normal in H as (e2 & H2 & H).
  apply bind_Normal in H as (e5 & H5 & H).
  injection H as <- <-. split; [done|].
  assert (K : keeps e2 e5).
  { eapply keeps_trans; [|by eapply keeps_record_required].
    eapply keeps_trans; auto with forms. }
  rewrite isRequired_Normal in H2. cbn [mbind completion_bind] in H2.
  destruct (negb _) in H2.
  { injection H2 as <-. right. apply K. rewrite lookup_insert_eq. eauto. }
  destruct (isValidPositiveNumber (PaymentForm.amount fd)); cbn [negb] in H2.
  2: { injection H2 as <-. right. apply K. rewrite lookup_insert_eq. eauto. }
  apply bind_Normal in H2 as (decimalsOk & Hdec & H2).
  destruct decimalsOk; cbn [negb] in H2.
  2: { injection H2 as <-. right. apply K. rewrite lookup_insert_eq. eauto. }
  destruct (PaymentForm.exceeds_999999_99 _).
  { injection H2 as <-. right. apply K. rewrite lookup_insert_eq. eauto. }
  by left.
Qed.

Lemma payment_submit_call h server payment fd ev :
  In ev (PaymentForm.handleSubmit h server payment fd).1 ->
  is_call ev = true ->
  (exists errs, PaymentForm.validateForm fd = Normal (errs, true)) /\
  exists r, ev = Call r /\
    PaymentForm.s_amount (Api.request_body r) = parseFloat (PaymentForm.amount fd).
Proof.
  unfold PaymentForm.handleSubmit.
  destruct (PaymentForm.validateForm fd) as [[errs ok]|e].
  - destruct ok; cbn [negb].
    + intros Hin Hev. split; [by exists errs|].
      destruct payment as [transaction_id|];
        match type of Hin with
        | context [submit server ?r ?d] =>
            destruct (submit server r d) as [events exn] eqn:Hs;
            assert (Hc : forall ev, In ev (submit server r d).1 ->
                           is_call ev = true -> ev = Call r)
              by (intros; by eapply submit_calls);
            rewrite Hs in Hc; simpl in Hin, Hc;
            destruct Hin as [<-|[<-|Hin]]; try discriminate;
            exists r; split; [by apply Hc|done]
        end.
    + simpl. intros [<-|[<-|[]]]; discriminate.
  - simpl. intros [<-|[]]; discriminate.
Qed.

(** What the payment form does enforce.  When the string form of the
    amount has no [e] and no [E], every payment the form submits has a
    positive amount [m * 10^e] with [-2 <= e <= 0], that is with at most
    two fractional digits. *)
Theorem payment_amount_without_exponent
    (h : host) (server : Api.request PaymentForm.submitData -> Api.settled)
    (payment : option prim) (fd : PaymentForm.formData)
    (ev : event PaymentForm.submitData) :
  In ev (PaymentForm.handleSubmit h server payment fd).1 ->
  is_call ev = true ->
  Forall (fun c => c <> 101%N /\ c <> 69%N) (ToString (PaymentForm.amount fd)) ->
  exists r m e,
    ev = Call r /\
    PaymentForm.s_amount (Api.request_body r) = EDec false m e /\
    (-2 <= e <= 0)%Z /\
    exact_gt_zero (EDec false m e) = true /\
    fraction_digits_le 2 (EDec false m e) = true.
Proof.
  intros Hin Hev Hplain.
  destruct (payment_submit_call _ _ _ _ _ Hin Hev)
    as [[errs Hval] (r & -> & Hamount)].
  destruct (payment_validate_amount _ _ _ Hval) as [Hok [Hpass|Hsome]].
  2: { apply no_errors_false in Hsome. congruence. }
  destruct Hpass as (Hpos & Hdec & Hmax).
  unfold isValidPositiveNumber in Hpos.
  destruct (isValidNumber (PaymentForm.amount fd)) eqn:Hnum; [|done].
  cbn [negb] in Hpos.
  unfold hasValidDecimals in Hdec. rewrite Hnum in Hdec. cbn [negb] in Hdec.
  assert (Hstr : call_toString (PaymentForm.amount fd)
                 = Normal (ToString (PaymentForm.amount fd))).
  { destruct (PaymentForm.amount fd); done. }
  rewrite Hstr in Hdec. cbn [mbind completion_bind] in Hdec.
  unfold parseFloat in *.
  set (v := ToString (PaymentForm.amount fd)) in *.
  destruct (parseFloat_string v) as [|neg|neg m e] eqn:Hparse;
    [done | by destruct neg | ].
  destruct neg; [done|].
  destruct (parseFloat_string_plain v false m e Hparse Hplain) as [He Hfrac].
  assert (He2 : (-2 <= e)%Z).
  { destruct (indexOf v 46) as [i|]; [|lia].
    injection Hdec as Hdec. apply Z.leb_le in Hdec. lia. }
  exists r, m, e. split; [done|]. split; [done|]. split; [lia|].
  split; [done|].
  unfold fraction_digits_le.
  assert ((0 <=? e + 2)%Z = true) as -> by (apply Z.leb_le; lia). done.
Qed.

Lemma payment_amount_without_exponent_witness :
  exists r m e,
    PaymentForm.s_amount (Api.request_body r) = EDec false m e /\
    (-2 <= e <= 0)%Z.
Proof.
  destruct (payment_amount_without_exponent ReferenceHost.utc
    (fun _ => Api.Fulfilled (VPrim PUndefined)) None ordinary_amount_form
    (Call (Api.paymentService_create {|
       PaymentForm.s_ride_id := PStr (str "3");
       PaymentForm.s_amount := EDec false 255 (-1);
       PaymentForm.s_payment_method := PStr (str "Cash");
       PaymentForm.s_payment_status := PStr (str "Completed");
       PaymentForm.s_payment_date := str "2024-01-15" |})))
    as (r & m & e & _ & H1 & H2 & _).
  - vm_compute. tauto.
  - reflexivity.
  - vm_compute. repeat constructor; discriminate.
  - by exists r, m, e.
Defined.

(** * Further properties *)

(** ** Blank and required values *)

Lemma trimStart_nil_iff (s : jsstring) :
  trimStart s = [] <-> Forall (fun c => isWhiteSpace c = true) s.
Proof.
  induction s as [|c t IH]; simpl; [by split|].
  destruct (isWhiteSpace c) eqn:Hc.
  - rewrite IH. split; [by constructor | by inversion 1].
  - split; [done|]. inversion 1; congruence.
Qed.

Lemma trimStart_head (s : jsstring) (c : N) (t : jsstring) :
  trimStart s = c :: t -> isWhiteSpace c = false.
Proof.
  induction s as [|x u IH]; simpl; [done|].
  destruct (isWhiteSpace x) eqn:Hx; [exact IH|]. by intros [= <- _].
Qed.

Lemma trim_nil_iff (s : jsstring) :
  trim s = [] <-> Forall (fun c => isWhiteSpace c = true) s.
Proof.
  unfold trim, trimEnd. rewrite <- trimStart_nil_iff. split.
  - intros H. apply (f_equal (@rev N)) in H. rewrite rev_involutive in H.
    simpl in H. apply trimStart_nil_iff in H.
    destruct (trimStart s) as [|c t] eqn:Ht; [done|].
    apply trimStart_head in Ht. apply Forall_rev in H.
    rewrite rev_involutive in H. inversion H; congruence.
  - by intros ->.
Qed.

(** The trimmed string is the original between two runs of white
    space. *)
Lemma trim_decomp (s : jsstring) :
  exists a b, s = a ++ trim s ++ b /\
    Forall (fun c => isWhiteSpace c = true) a /\
    Forall (fun c => isWhiteSpace c = true) b.
Proof.
  destruct (trimStart_decomp s) as (a & Hs & Ha).
  destruct (trimStart_decomp (rev (trimStart s))) as (b & Hr & Hb).
  exists a, (rev b). split; [|split; [done|by apply Forall_rev]].
  unfold trim, trimEnd. rewrite <- rev_app_distr, <- Hr, rev_involutive. done.
Qed.

(** [isRequired] accepts exactly the values other than null and
    undefined whose string form has a character that is not white
    space; in particular it accepts [false], and rejects a string of
    blanks. *)
Theorem isRequired_spec (p : prim) :
  isRequired p = Normal true <->
  p <> PNull /\ p <> PUndefined /\
  Exists (fun c => isWhiteSpace c = false) (ToString p).
Proof.
  rewrite isRequired_Normal.
  assert (H : forall s, bool_decide (0 < length (trim s))%nat = true <->
                        Exists (fun c => isWhiteSpace c = false) s).
  { intros s. rewrite bool_decide_eq_true.
    assert (Hnil : (0 < length (trim s))%nat <-> trim s <> []).
    { destruct (trim s); simpl; split; (done || lia). }
    rewrite Hnil, trim_nil_iff. rewrite <- Exists_Forall_neg.
    - split; intros HE; (eapply Exists_impl; [exact HE|]); cbv beta;
        intros c Hc; destruct (isWhiteSpace c); try done; by destruct Hc.
    - intros c. destruct (isWhiteSpace c); [by left|by right]. }
  destruct p; simpl ToString.
  - split; [discriminate|]. intros (_ & ? & _). done.
  - split; [discriminate|]. intros (? & _ & _). done.
  - split.
    + intros [= Hb]. repeat split; try discriminate. by apply H.
    + intros (_ & _ & He). f_equal. by apply H.
  - split.
    + intros [= Hb]. repeat split; try discriminate. by apply H.
    + intros (_ & _ & He). f_equal. by apply H.
  - split.
    + intros [= Hb]. repeat split; try discriminate. by apply H.
    + intros (_ & _ & He). f_equal. by apply H.
Qed.

Lemma isRequired_spec_witness :
  isRequired (PStr (str "  x ")) = Normal true /\
  isRequired (PBool false) = Normal true.
Proof.
  split.
  - apply (proj2 (isRequired_spec (PStr (str "  x ")))).
    split; [discriminate|]. split; [discriminate|].
    apply Exists_cons_tl, Exists_cons_tl, Exists_cons_hd. reflexivity.
  - apply (proj2 (isRequired_spec (PBool false))).
    split; [discriminate|]. split; [discriminate|].
    apply Exists_cons_hd. reflexivity.
Defined.

(** ** E-mail addresses and phone numbers *)

(** On a string, [isValidEmail] is true exactly when the string without
    the white space around it is a non-empty local part, an at sign, a
    non-empty domain, a dot and at least two letters. *)
Theorem isValidEmail_spec (s : jsstring) :
  isValidEmail (PStr s) = Normal true <->
  exists l d t,
    trim s = l ++ 64%N :: d ++ 46%N :: t /\
    l <> [] /\ Forall (fun c => isLocalChar c = true) l /\
    d <> [] /\ Forall (fun c => isDomainChar c = true) d /\
    (2 <= length t)%nat /\ Forall (fun c => isLetter c = true) t.
Proof.
  rewrite <- emailRegex_test_spec. unfold isValidEmail.
  destruct s as [|c s]; simpl.
  - split; [discriminate|]. done.
  - split; [by intros [= ->] | by intros ->].
Qed.

Lemma isValidEmail_spec_witness :
  isValidEmail (PStr (str " ann@ex.org")) = Normal true.
Proof.
  apply (proj2 (isValidEmail_spec (str " ann@ex.org"))).
  exists (str "ann"), (str "ex"), (str "org").
  split; [vm_compute; reflexivity|].
  split; [discriminate|]. split; [by repeat constructor|].
  split; [discriminate|]. split; [by repeat constructor|].
  split; [simpl; lia | by repeat constructor].
Defined.

Lemma filter_digits_insert (a b : jsstring) (c : N) :
  isDigit c = false ->
  filter (fun x => isDigit x = true) (a ++ c :: b)
  = filter (fun x => isDigit x = true) (a ++ b).
Proof.
  intros Hc. rewrite !filter_app, filter_cons_False; [done|congruence].
Qed.

(** On a string, [isValidPhoneNumber] only counts the ASCII digits: it
    is true exactly when there are 10 or 11 of them, and adding or
    removing any other character, anywhere, does not change the
    answer. *)
Theorem isValidPhoneNumber_counts_digits :
  (forall s,
     isValidPhoneNumber (PStr s) = Normal true <->
     (10 <= length (filter (fun x => isDigit x = true) s) <= 11)%nat) /\
  (forall a b c,
     isDigit c = false ->
     isValidPhoneNumber (PStr (a ++ c :: b)) = isValidPhoneNumber (PStr (a ++ b))).
Proof.
  assert (H : forall s, isValidPhoneNumber (PStr s) =
    Normal (bool_decide (10 <= length (filter (fun x => isDigit x = true) s))%nat
            && bool_decide (length (filter (fun x => isDigit x = true) s) <= 11)%nat)).
  { intros [|c s]; [done|]. reflexivity. }
  split.
  - intros s. rewrite H. split.
    + intros [= Hb]. apply andb_true_iff in Hb as [H1 H2].
      apply bool_decide_eq_true in H1, H2. lia.
    + intros [H1 H2]. f_equal. apply andb_true_iff.
      split; by apply bool_decide_eq_true.
  - intros a b c Hc. rewrite !H. by rewrite filter_digits_insert.
Qed.

Lemma isValidPhoneNumber_counts_digits_witness :
  isValidPhoneNumber (PStr (str "416-5550101"))
  = isValidPhoneNumber (PStr (str "4165550101")).
Proof.
  apply (proj2 isValidPhoneNumber_counts_digits
           (str "416") (str "5550101") 45%N).
  reflexivity.
Defined.

(** ** Past, future and the order of dates *)

Section MoreDates.
Variable h : host.

(** A date is never both in the past and in the future; a falsy value
    or an invalid date is in neither, and a valid date is in one of them
    unless it is the current instant. *)
Theorem isInPast_isInFuture_exclusive (d : prim) :
  (isInPast h d = true -> isInFuture h d = false) /\
  (ToBoolean_prim d = false \/ Date_new h d = None ->
     isInPast h d = false /\ isInFuture h d = false) /\
  (forall t, ToBoolean_prim d = true -> Date_new h d = Some t ->
     (isInPast h d = true <-> (t < Date_now h)%Z) /\
     (isInFuture h d = true <-> (Date_now h < t)%Z)).
Proof.
  unfold isInPast, isInFuture. split; [|split].
  - destruct (ToBoolean_prim d); simpl; [|done].
    destruct (Date_new h d) as [t|]; simpl; [|done].
    rewrite Z.ltb_lt. intros H. apply Z.ltb_ge. lia.
  - intros [-> | ->]; simpl; [done|]. by destruct (ToBoolean_prim d).
  - intros t -> ->. simpl. by rewrite !Z.ltb_lt.
Qed.

(** [isAfter] is a strict order on dates: it is irreflexive, asymmetric
    and transitive. *)
Theorem isAfter_strict_partial_order (a b c : prim) :
  isAfter h a a = false /\
  (isAfter h a b = true -> isAfter h b a = false) /\
  (isAfter h a b = true -> isAfter h b c = true -> isAfter h a c = true).
Proof.
  split; [|split].
  - destruct (isAfter h a a) eqn:E; [|done].
    apply isAfter_true_iff in E as (_ & _ & ta & tb & Ha & Hb & Hlt).
    rewrite Ha in Hb. injection Hb as <-. lia.
  - intros Hab. destruct (isAfter h b a) eqn:Hba; [|done].
    apply isAfter_true_iff in Hab as (_ & _ & ta & tb & Ha & Hb & Hlt).
    apply isAfter_true_iff in Hba as (_ & _ & tb' & ta' & Hb' & Ha' & Hlt').
    rewrite Ha in Ha'. rewrite Hb in Hb'.
    injection Ha' as <-. injection Hb' as <-. lia.
  - intros Hab Hbc.
    apply isAfter_true_iff in Hab as (Hta & _ & ta & tb & Ha & Hb & Hlt).
    apply isAfter_true_iff in Hbc as (_ & Htc & tb' & tc & Hb' & Hc & Hlt').
    rewrite Hb in Hb'. injection Hb' as <-.
    apply isAfter_true_iff. repeat split; [done|done|].
    exists ta, tc. repeat split; [done|done|lia].
Qed.

End MoreDates.

Lemma isInPast_isInFuture_exclusive_witness :
  isInFuture ReferenceHost.utc (PStr (str "2024-01-01T08:00")) = false.
Proof.
  apply (proj1 (isInPast_isInFuture_exclusive ReferenceHost.utc
                  (PStr (str "2024-01-01T08:00")))).
  vm_compute. reflexivity.
Defined.

Lemma isAfter_strict_partial_order_witness :
  isAfter ReferenceHost.utc (PStr (str "2024-01-01T09:30"))
          (PStr (str "2024-01-01T08:00")) = false.
Proof.
  apply (proj1 (proj2 (isAfter_strict_partial_order ReferenceHost.utc
                  (PStr (str "2024-01-01T08:00"))
                  (PStr (str "2024-01-01T09:30")) PNull))).
  vm_compute. reflexivity.
Defined.

(** ** Error texts *)

Lemma starts_with_spec (pre s : jsstring) :
  starts_with pre s = true <-> exists post, s = pre ++ post.
Proof.
  revert s. induction pre as [|p pre IH]; intros s; simpl.
  - split; [intros _; by exists s | done].
  - destruct s as [|c s]; [split; [done|by intros [? ?]]|].
    rewrite andb_true_iff, N.eqb_eq, IH. split.
    + intros [-> [post ->]]. by exists post.
    + intros [post [= -> ->]]. split; [done|by exists post].
Qed.

Lemma includes_spec (s needle : jsstring) :
  includes s needle = true <-> exists pre post, s = pre ++ needle ++ post.
Proof.
  induction s as [|c s IH]; simpl.
  - rewrite orb_false_r, starts_with_spec. split.
    + intros [post H]. by exists [], post.
    + intros (pre & post & H). destruct pre; [by exists post|done].
  - rewrite orb_true_iff, starts_with_spec, IH. split.
    + intros [[post H]|(pre & post & ->)]; [by exists [], post|].
      by exists (c :: pre), post.
    + intros (pre & post & H). destruct pre as [|x pre].
      * left. by exists post.
      * right. injection H as -> ->. by exists pre, post.
Qed.

(** [formatForeignKeyError] is idempotent on strings: the text it
    returns is returned unchanged when it is formatted again, as happens
    to a message that passed through it once and is shown by another
    view. *)
Theorem formatForeignKeyError_idempotent (m : jsstring) :
  exists shown,
    formatForeignKeyError (VPrim (PStr m)) = Normal shown /\
    formatForeignKeyError (VPrim (PStr shown)) = Normal shown.
Proof.
  destruct m as [|c m]; [exists msg_error; split; vm_compute; reflexivity|].
  destruct (formatForeignKeyError_string (c :: m)) as [Hfree Hnamed]; [done|].
  destruct (names_constraint (c :: m)).
  - destruct Hnamed as (shown & Hshown & Hin); [done|].
    exists shown. split; [done|].
    unfold friendly_messages in Hin. simpl in Hin.
    repeat (destruct Hin as [<-|Hin]; [vm_compute; reflexivity|]). done.
  - exists (c :: m). split; by apply Hfree.
Qed.

(** A message that mentions a constraint or a foreign key is replaced by
    one of the six texts about deleting a record, also when it reports a
    duplicate value; the text about a value that already exists is the
    answer only for a message that mentions "unique" or "duplicate" and
    neither "constraint" nor "foreign key" (or is that text itself). *)
Theorem formatForeignKeyError_constraint_first (m : jsstring) :
  m <> [] ->
  let lowerMsg := toLowerCase m in
  (includes lowerMsg (str "foreign key") || includes lowerMsg (str "constraint")
     = true ->
   exists shown, formatForeignKeyError (VPrim (PStr m)) = Normal shown /\
                 In shown delete_texts) /\
  (formatForeignKeyError (VPrim (PStr m)) = Normal msg_exists <->
   m = msg_exists \/
   (includes lowerMsg (str "unique") || includes lowerMsg (str "duplicate") = true
    /\ includes lowerMsg (str "foreign key") || includes lowerMsg (str "constraint")
       = false)).
Proof.
  intros Hne lowerMsg. subst lowerMsg. unfold formatForeignKeyError.
  assert (Ht : ToBoolean (VPrim (PStr m)) = true) by (by destruct m).
  rewrite Ht. cbn [negb as_string_receiver mbind completion_bind].
  assert (Hself : m = msg_exists ->
    includes (toLowerCase m) (str "unique")
      || includes (toLowerCase m) (str "duplicate") = false /\
    includes (toLowerCase m) (str "foreign key")
      || includes (toLowerCase m) (str "constraint") = false)
    by (intros ->; split; vm_compute; reflexivity).
  set (lowerMsg := toLowerCase m) in *.
  destruct (includes lowerMsg (str "foreign key") || includes lowerMsg (str "constraint"))
    eqn:Hfk.
  - split.
    + intros _.
      repeat match goal with
      | |- context [if ?b then _ else _] => destruct b
      end; eexists; (split; [reflexivity|]); unfold delete_texts; simpl; tauto.
    + repeat match goal with
      | |- context [if ?b then _ else _] => destruct b
      end; (split; [intros [= H]; discriminate H|]);
        (intros [H|[_ H]]; [apply Hself in H as [_ H]|]; discriminate H).
  - split; [discriminate|].
    destruct (includes lowerMsg (str "unique") || includes lowerMsg (str "duplicate"))
      eqn:Hud.
    + split; [intros _; by right | done].
    + split.
      * intros [= H]. by left.
      * intros [->|[H _]]; [done|discriminate H].
Qed.

Lemma formatForeignKeyError_constraint_first_witness :
  exists shown,
    formatForeignKeyError
      (VPrim (PStr (str "ORA-00001: unique constraint (RIDES.UQ_EMAIL) violated")))
      = Normal shown /\ In shown delete_texts.
Proof.
  apply (proj1 (formatForeignKeyError_constraint_first
    (str "ORA-00001: unique constraint (RIDES.UQ_EMAIL) violated")
    ltac:(discriminate))).
  vm_compute. reflexivity.
Defined.

(** ** The response interceptor *)

Lemma js_or_default (c : completion value) (d v : value) :
  js_or c (mret d) = Normal v -> ToBoolean d = true -> ToBoolean v = true.
Proof.
  unfold js_or. destruct c as [x|e]; simpl; [|done].
  destruct (ToBoolean x) eqn:Hx; intros [= <-]; done.
Qed.

(** Whenever the interceptor produces a rejection, the rejection has a
    truthy [message]; if that message is a string, [getErrorMessage]
    turns the rejection into a non-empty text.  So a failed call never
    shows an empty error. *)
Theorem onResponseError_has_message (error : value) log reason :
  Api.onResponseError error = Normal (log, reason) ->
  exists message,
    get reason "message" = Normal message /\
    ToBoolean message = true /\
    (is_string message = true ->
     exists shown, getErrorMessage reason = Normal shown /\ shown <> []).
Proof.
  unfold Api.onResponseError. intros H.
  apply bind_Normal in H as (response & _ & H).
  assert (Hshow : forall message rest,
    ToBoolean message = true ->
    exists m, get (VObj (("message", message) :: rest)) "message" = Normal m /\
      ToBoolean m = true /\
      (is_string m = true ->
       exists shown,
         getErrorMessage (VObj (("message", message) :: rest)) = Normal shown
         /\ shown <> [])).
  { intros message rest Ht. exists message. rewrite get_first.
    split; [done|]. split; [done|]. intros Hs.
    unfold getErrorMessage. cbn [ToBoolean negb]. rewrite get_first.
    cbn [mbind completion_bind]. rewrite Ht.
    apply formatForeignKeyError_shown; [by left|done]. }
  destruct (ToBoolean response).
  - apply bind_Normal in H as (data & _ & H).
    apply bind_Normal in H as (message & Hm & H).
    apply bind_Normal in H as (status & _ & H).
    apply bind_Normal in H as (details & _ & H).
    injection H as _ <-. apply Hshow. by eapply js_or_default.
  - apply bind_Normal in H as (request & _ & H).
    destruct (ToBoolean request).
    + injection H as _ <-. by apply Hshow.
    + apply bind_Normal in H as (logged & _ & H).
      apply bind_Normal in H as (message & Hm & H).
      injection H as _ <-. apply Hshow. by eapply js_or_default.
Qed.

Lemma onResponseError_has_message_witness :
  exists message,
    get (VObj [("message", VPrim (PStr (str "An error occurred")));
               ("status", VPrim (PNum (Finite false (str "5") 3)));
               ("details", VPrim PUndefined)]) "message" = Normal message /\
    ToBoolean message = true.
Proof.
  destruct (onResponseError_has_message
    (VObj [("response",
            VObj [("data", VPrim (PStr (str "<html>Bad gateway</html>")));
                  ("status", VPrim (PNum (Finite false (str "5") 3)))])])
    [VPrim (PStr (str "API Error:"));
     VPrim (PStr (str "<html>Bad gateway</html>"))]
    (VObj [("message", VPrim (PStr (str "An error occurred")));
           ("status", VPrim (PNum (Finite false (str "5") 3)));
           ("details", VPrim PUndefined)])
    ltac:(vm_compute; reflexivity)) as (message & H1 & H2 & _).
  by exists message.
Defined.

(** The interceptor itself fails when the server answered without a
    body: reading [error.response.data.error] throws, and the caller
    gets that TypeError instead of a message. *)
Theorem onResponseError_throws_without_body (error response data : value) :
  get error "response" = Normal response ->
  ToBoolean response = true ->
  get response "data" = Normal data ->
  data = VPrim PUndefined \/ data = VPrim PNull ->
  exists e, Api.onResponseError error = Throw e.
Proof.
  intros Hresp Ht Hdata Hnull. unfold Api.onResponseError.
  rewrite Hresp. cbn [mbind completion_bind]. rewrite Ht.
  cbn [get_path]. rewrite Hresp, Hdata. cbn [mbind completion_bind js_or].
  destruct Hnull as [-> | ->]; simpl; eauto.
Qed.

Lemma onResponseError_throws_without_body_witness :
  exists e,
    Api.onResponseError
      (VObj [("response",
              VObj [("data", VPrim PNull);
                    ("status", VPrim (PNum (Finite false (str "5") 3)))])])
    = Throw e.
Proof.
  apply (onResponseError_throws_without_body
           (VObj [("response",
              VObj [("data", VPrim PNull);
                    ("status", VPrim (PNum (Finite false (str "5") 3)))])])
           (VObj [("data", VPrim PNull);
                  ("status", VPrim (PNum (Finite false (str "5") 3)))])
           (VPrim PNull) eq_refl eq_refl eq_refl).
  by right.
Defined.

(** ** Years and ratings typed as digits *)

Lemma trim_digits (ds : jsstring) :
  Forall (fun c => isDigit c = true) ds -> trim ds = ds.
Proof.
  intros Hall.
  assert (Hstart : forall s, Forall (fun c => isDigit c = true) s ->
                             trimStart s = s).
  { intros [|c t] Hs; [done|]. inversion Hs; subst. simpl.
    by rewrite isWhiteSpace_digit. }
  unfold trim, trimEnd. rewrite (Hstart ds Hall).
  rewrite Hstart by (by apply Forall_rev). apply rev_involutive.
Qed.

Lemma trim_no_blank (s : jsstring) :
  Forall (fun c => isWhiteSpace c = false) s -> trim s = s.
Proof.
  intros Hall.
  assert (Hstart : forall u, Forall (fun c => isWhiteSpace c = false) u ->
                             trimStart u = u).
  { intros [|c t] Hu; [done|]. inversion Hu as [|? ? Hc _]; subst. simpl.
    by rewrite Hc. }
  unfold trim, trimEnd. rewrite (Hstart s Hall).
  rewrite Hstart by (by apply Forall_rev). apply rev_involutive.
Qed.

Lemma scan_non_decimal_other (z : N) (rest : jsstring) :
  z <> 48%N -> scan_non_decimal (z :: rest) = None.
Proof.
  intros Hz. unfold scan_non_decimal. destruct z as [|pz]; [done|].
  do 7 (try (destruct pz as [pz|pz|]; try done)).
Qed.

Lemma scan_non_decimal_digits (ds : jsstring) :
  Forall (fun c => isDigit c = true) ds -> scan_non_decimal ds = None.
Proof.
  intros Hall. destruct ds as [|z [|p t]]; [done| |].
  - destruct (N.eq_dec z 48%N) as [->|Hz]; [done|].
    by apply scan_non_decimal_other.
  - inversion Hall as [|? ? _ Hrest]; subst. inversion Hrest as [|? ? Hp _]; subst.
    apply isDigit_range in Hp.
    destruct (N.eq_dec z 48%N) as [->|Hz]; [|by apply scan_non_decimal_other].
    unfold scan_non_decimal.
    assert (Hradix : (if ((p =? 120) || (p =? 88))%N then Some 16%N
                      else if ((p =? 111) || (p =? 79))%N then Some 8%N
                      else if ((p =? 98) || (p =? 66))%N then Some 2%N
                      else None) = None) by (cases_N; done).
    by rewrite Hradix.
Qed.

Lemma scan_decimal_digits (ds : jsstring) :
  ds <> [] -> Forall (fun c => isDigit c = true) ds ->
  scan_decimal ds = Some (EDec false (digits_value ds) 0, []).
Proof.
  intros Hne Hall. destruct ds as [|c t]; [done|].
  inversion Hall as [|? ? Hc Ht]; subst.
  unfold scan_decimal. rewrite scan_sign_digit by done.
  assert (starts_with (str "Infinity") (c :: t) = false) as ->.
  { change (str "Infinity") with (73%N :: str "nfinity").
    apply starts_with_head_ne. apply isDigit_range in Hc. lia. }
  pose proof (span_all isDigit (c :: t) [] Hall I) as Hspan.
  rewrite app_nil_r in Hspan. rewrite Hspan. by rewrite app_nil_r.
Qed.

(** A non-empty string of digits is a valid number unless it overflows,
    and [parseInt] reads its value. *)
Lemma digit_string_number (ds : jsstring) :
  ds <> [] -> Forall (fun c => isDigit c = true) ds ->
  isValidNumber (PStr ds)
    = (Z.of_N (digits_value ds) <? (2 ^ 54 - 1) * 2 ^ 970)%Z /\
  parseInt (PStr ds) = Some (round_double (Z.of_N (digits_value ds))).
Proof.
  intros Hne Hall. split.
  - assert (Hnan : exact_isNaN (parseFloat_string ds) = false).
    { destruct ds as [|c t]; [done|]. inversion Hall; subst.
      by apply (parseFloat_string_signed_digit false). }
    unfold isValidNumber, parseFloat. cbn [ToString isFinite ToNumber].
    unfold StringToNumber. rewrite Hnan, trim_digits by done.
    rewrite scan_non_decimal_digits, scan_decimal_digits by done.
    destruct ds as [|c t]; [done|]. cbn [strict_equal orb negb andb].
    rewrite bool_decide_eq_false_2 by done.
    cbn [orb]. unfold rounds_to_finite, dec_lt_dyadic. simpl Z.max.
    by rewrite !Z.mul_1_r.
  - unfold parseInt. cbn [ToString].
    pose proof (parseInt_string_signed_digits false ds [] Hne Hall) as H.
    rewrite app_nil_r in H. cbn [sign_of app] in H.
    rewrite H by (by left). done.
Qed.

(** ** Ratings, on every input *)

(** Where [parseInt] finds an integer, [parseFloat] finds a number. *)
Lemma parseInt_string_parseFloat (s : jsstring) (i : Z) :
  parseInt_string s = Some i -> exact_isNaN (parseFloat_string s) = false.
Proof.
  unfold parseInt_string, parseFloat_string, scan_decimal.
  destruct (scan_sign (trimStart s)) as [neg s1] eqn:Hsign.
  destruct (scan_radix s1) as [radix s2] eqn:Hradix.
  destruct (span (isRadixDigit radix) s2) as [ds rest] eqn:Hspan.
  intros Hi.
  assert (Hhead : exists c t, s1 = c :: t /\ isDigit c = true).
  { destruct ds as [|d ds']; [done|].
    unfold scan_radix in Hradix.
    destruct s1 as [|z [|p t]].
    - by injection Hradix as <- <-.
    - injection Hradix as <- <-. rewrite span_isRadixDigit_10 in Hspan.
      simpl in Hspan. destruct (isDigit z) eqn:Hz; [eauto|done].
    - destruct ((z =? 48) && ((p =? 120) || (p =? 88)))%N eqn:Hx.
      + apply andb_true_iff in Hx as [Hz _]. apply N.eqb_eq in Hz as ->.
        by exists 48%N, (p :: t).
      + injection Hradix as <- <-. rewrite span_isRadixDigit_10 in Hspan.
        cbn [span] in Hspan. destruct (isDigit z) eqn:Hz; [eauto|done]. }
  destruct Hhead as (c & t & -> & Hc).
  assert (starts_with (str "Infinity") (c :: t) = false) as ->.
  { change (str "Infinity") with (73%N :: str "nfinity").
    apply starts_with_head_ne. apply isDigit_range in Hc. lia. }
  cbn [span]. rewrite Hc. destruct (span isDigit t) as [ip s2'].
  destruct s2' as [|c2 t2]; [|destruct (c2 =? 46)%N; [destruct (span isDigit t2)|]];
    cbn [app];
    match goal with
    | |- context [scan_exponent ?u] => by destruct (scan_exponent u)
    end.
Qed.

(** [isValidRating] on every value: the value is finite as a Number and
    the integer [parseInt] reads at the start of its string form is
    between 1 and 5. *)
Lemma isValidRating_iff (p : prim) :
  isValidRating p = true <->
  isFinite p = true /\ exists i, parseInt p = Some i /\ (1 <= i <= 5)%Z.
Proof.
  unfold isValidRating, isValidNumber. split.
  - destruct (strict_equal p (PStr []) || strict_equal p PNull
              || strict_equal p PUndefined); cbn [negb]; [done|].
    destruct (exact_isNaN (parseFloat p)); cbn [negb andb]; [done|].
    destruct (isFinite p); cbn [negb]; [|done].
    destruct (parseInt p) as [i|]; [|done]. cbn [int_ge int_le].
    rewrite andb_true_iff, !Z.leb_le. intros H. split; [done|]. by exists i.
  - intros [Hfin (i & Hi & Hrange)].
    assert (Hnan : exact_isNaN (parseFloat p) = false).
    { unfold parseInt in Hi. unfold parseFloat.
      destruct (parseInt_string (ToString p)) as [j|] eqn:Hj; [|done].
      by eapply parseInt_string_parseFloat. }
    assert (Hguard : strict_equal p (PStr []) || strict_equal p PNull
                     || strict_equal p PUndefined = false).
    { destruct p as [| | |x|[|c t]]; try done; by vm_compute in Hi. }
    rewrite Hguard, Hnan, Hfin, Hi. cbn [negb andb int_ge int_le].
    apply andb_true_iff. rewrite !Z.leb_le. lia.
Qed.

Lemma scan_non_decimal_plain (s : jsstring) :
  Forall (fun c => isDigit c = true \/ c = 46%N) s -> scan_non_decimal s = None.
Proof.
  intros Hall. destruct s as [|z [|p t]]; [done| |].
  - destruct (N.eq_dec z 48%N) as [->|Hz]; [done|].
    by apply scan_non_decimal_other.
  - inversion Hall as [|? ? _ Hrest]; subst. inversion Hrest as [|? ? Hp _]; subst.
    destruct (N.eq_dec z 48%N) as [->|Hz]; [|by apply scan_non_decimal_other].
    unfold scan_non_decimal.
    assert (Hradix : (if ((p =? 120) || (p =? 88))%N then Some 16%N
                      else if ((p =? 111) || (p =? 79))%N then Some 8%N
                      else if ((p =? 98) || (p =? 66))%N then Some 2%N
                      else None) = None).
    { destruct Hp as [Hp| ->]; [|done]. apply isDigit_range in Hp.
      cases_N; done. }
    by rewrite Hradix.
Qed.

(** A string of digits, a point and digits, as a Number. *)
Lemma decimal_string_ToNumber (ds fs : jsstring) :
  ds <> [] ->
  Forall (fun c => isDigit c = true) ds ->
  Forall (fun c => isDigit c = true) fs ->
  StringToNumber (ds ++ 46%N :: fs)
  = EDec false (digits_value (ds ++ fs)) (- Z.of_nat (length fs)).
Proof.
  intros Hne Hds Hfs. unfold StringToNumber.
  assert (Hplain : Forall (fun c => isDigit c = true \/ c = 46%N)
                     (ds ++ 46%N :: fs)).
  { apply Forall_app. split; [|constructor; [by right|]];
      (eapply Forall_impl; [eassumption|]); cbv beta; tauto. }
  rewrite trim_no_blank.
  2: { eapply Forall_impl; [exact Hplain|]. cbv beta.
       intros c [Hc| ->]; [by apply isWhiteSpace_digit|done]. }
  rewrite scan_non_decimal_plain by done.
  destruct ds as [|c t]; [done|]. inversion Hds as [|? ? Hc Ht]; subst.
  cbn [app]. unfold scan_decimal. rewrite scan_sign_digit by done.
  assert (starts_with (str "Infinity") (c :: t ++ 46%N :: fs) = false) as ->.
  { change (str "Infinity") with (73%N :: str "nfinity").
    apply starts_with_head_ne. apply isDigit_range in Hc. lia. }
  change (c :: t ++ 46%N :: fs) with ((c :: t) ++ 46%N :: fs).
  rewrite (span_all isDigit (c :: t) (46%N :: fs)) by done.
  change (46 =? 46)%N with true. cbv iota.
  pose proof (span_all isDigit fs [] Hfs I) as Hspan.
  rewrite app_nil_r in Hspan. rewrite Hspan.
  cbn [app scan_exponent]. f_equal.
Qed.

(** C1, as the code has it.  [isValidRating] answers false for 0, true
    for 5 and false for 6, as numbers and as strings.  On every input it
    is true exactly when the input is finite as a Number and the integer
    [parseInt] reads at the start of its string form lies between 1 and
    5: it asks for an integer part, not for an integer.  So a finite
    number whose string form has no exponent is accepted exactly when it
    is positive and its integer part lies between 1 and 5 (4.5 is
    accepted); a string of digits exactly when its value does; digits, a
    point and digits exactly when the digits before the point do; and a
    string that is not a numeric literal, such as "5abc", never. *)
Theorem isValidRating_integer_part :
  isValidRating (PNum (Zero false)) = false /\
  isValidRating (PNum num_5) = true /\
  isValidRating (PNum num_6) = false /\
  isValidRating (PStr (str "0")) = false /\
  isValidRating (PStr (str "5")) = true /\
  isValidRating (PStr (str "6")) = false /\
  isValidRating (PNum num_4_5) = true /\
  isValidRating (PStr (str "5abc")) = false /\
  (forall p : prim,
     isValidRating p = true <->
     isFinite p = true /\ exists i, parseInt p = Some i /\ (1 <= i <= 5)%Z) /\
  (forall (neg : bool) (s : jsstring) (n : Z),
     wf_digits s -> (-6 < n <= 21)%Z ->
     isValidRating (PNum (Finite neg s n))
     = negb neg && (1 <=? trunc_digits s n)%Z && (trunc_digits s n <=? 5)%Z) /\
  (forall ds : jsstring,
     ds <> [] -> Forall (fun c => isDigit c = true) ds ->
     isValidRating (PStr ds)
     = (1 <=? Z.of_N (digits_value ds))%Z && (Z.of_N (digits_value ds) <=? 5)%Z) /\
  (forall ds fs : jsstring,
     ds <> [] -> Forall (fun c => isDigit c = true) ds ->
     Forall (fun c => isDigit c = true) fs ->
     isValidRating (PStr (ds ++ 46%N :: fs))
     = (1 <=? Z.of_N (digits_value ds))%Z && (Z.of_N (digits_value ds) <=? 5)%Z) /\
  (forall s : jsstring,
     StringToNumber s = ENaN -> isValidRating (PStr s) = false).
Proof.
  do 8 (split; [vm_compute; reflexivity|]).
  split; [exact isValidRating_iff|].
  assert (Hsafe1 : (- 2 ^ 53 < 1 < 2 ^ 53)%Z) by (vm_compute; split; reflexivity).
  assert (Hsafe5 : (- 2 ^ 53 < 5 < 2 ^ 53)%Z) by (vm_compute; split; reflexivity).
  split; [|split; [|split]].
  - intros neg s n Hwf Hn. unfold isValidRating.
    rewrite isValidNumber_finite by done. cbn [negb].
    unfold parseInt. cbn [ToString].
    destruct (number_toString_plain neg s n Hwf Hn)
      as (ds & rest & -> & Hne & Hall & Hrest & <-).
    rewrite parseInt_string_signed_digits by done.
    cbn [fmap option_fmap option_map int_ge int_le].
    rewrite round_double_ge, round_double_le by done.
    destruct neg; cbn [negb andb]; [|done].
    assert ((1 <=? - Z.of_N (digits_value ds))%Z = false) as ->; [|done].
    apply Z.leb_gt. lia.
  - intros ds Hne Hall. unfold isValidRating.
    destruct (digit_string_number ds Hne Hall) as [-> ->].
    cbn [int_ge int_le]. rewrite round_double_ge, round_double_le by done.
    destruct (Z.ltb_spec (Z.of_N (digits_value ds)) ((2 ^ 54 - 1) * 2 ^ 970));
      cbn [negb]; [done|].
    symmetry. apply andb_false_iff. right. apply Z.leb_gt.
    assert (5 < (2 ^ 54 - 1) * 2 ^ 970)%Z by (vm_compute; reflexivity).
    lia.
  - intros ds fs Hne Hds Hfs.
    set (v := Z.of_N (digits_value ds)).
    destruct ((1 <=? v)%Z && (v <=? 5)%Z) eqn:Hrange.
    + apply isValidRating_iff. apply andb_true_iff in Hrange as [H1 H5].
      apply Z.leb_le in H1, H5. split.
      * cbn [isFinite ToNumber]. rewrite decimal_string_ToNumber by done.
        unfold rounds_to_finite, dec_lt_dyadic. apply Z.ltb_lt.
        rewrite digits_value_app.
        pose proof (digits_value_bound fs Hfs) as Hb.
        set (k := length fs) in *.
        replace (Z.max 0 (- Z.of_nat k)) with 0%Z by lia.
        replace (Z.max 0 (- - Z.of_nat k)) with (Z.of_nat k) by lia.
        replace (Z.max 0 (- (970)))%Z with 0%Z by reflexivity.
        change (Z.max 0 970) with 970%Z.
        rewrite !Z.pow_0_r, !Z.mul_1_r.
        rewrite N2Z.inj_add, N2Z.inj_mul, N2Z.inj_pow, nat_N_Z. fold v.
        assert (Hb' : (Z.of_N (digits_value fs) < 10 ^ Z.of_nat k)%Z).
        { rewrite <- nat_N_Z, <- (N2Z.inj_pow 10). lia. }
        assert (Hp : (0 < 10 ^ Z.of_nat k)%Z) by (apply Z.pow_pos_nonneg; lia).
        assert (H6 : (6 < (2 ^ 54 - 1) * 2 ^ 970)%Z) by (vm_compute; reflexivity).
        set (big := ((2 ^ 54 - 1) * 2 ^ 970)%Z) in *.
        set (t := (10 ^ Z.of_nat k)%Z) in *. nia.
      * exists v. split; [|lia]. unfold parseInt. cbn [ToString].
        pose proof (parseInt_string_signed_digits false ds (46%N :: fs) Hne Hds)
          as H. cbn [sign_of app] in H. rewrite H by (right; by eexists).
        cbn [fmap option_fmap option_map]. f_equal. subst v.
        apply round_double_small. lia.
    + destruct (isValidRating (PStr (ds ++ 46%N :: fs))) eqn:Hr; [|done].
      apply isValidRating_iff in Hr as [_ (i & Hi & Hrange')].
      unfold parseInt in Hi. cbn [ToString] in Hi.
      pose proof (parseInt_string_signed_digits false ds (46%N :: fs) Hne Hds)
        as H. cbn [sign_of app] in H. rewrite H in Hi by (right; by eexists).
      cbn [fmap option_fmap option_map] in Hi. injection Hi as <-.
      exfalso. apply andb_false_iff in Hrange.
      rewrite <- (round_double_ge 1), <- (round_double_le 5) in Hrange by done.
      fold v in Hrange'. destruct Hrange as [Hr|Hr]; apply Z.leb_gt in Hr; lia.
  - intros s Hnan. unfold isValidRating, isValidNumber.
    cbn [isFinite ToNumber]. rewrite Hnan. cbn [rounds_to_finite].
    rewrite andb_false_r. by destruct (_ || _).
Qed.

Lemma isValidRating_integer_part_witness :
  isValidRating (PNum (Finite false (str "375") 1)) = true.
Proof.
  destruct isValidRating_integer_part
    as (_ & _ & _ & _ & _ & _ & _ & _ & _ & Hnum & _).
  rewrite (Hnum false (str "375") 1%Z).
  - vm_compute. reflexivity.
  - split; [by repeat constructor|].
    split; [by exists 51%N, (str "75") | by exists 53%N, (str "37")].
  - lia.
Defined.

(** C1 as stated fails: 4.5 is accepted and is not an integer. *)
Lemma isValidRating_accepts_fraction :
  isValidRating (PNum num_4_5) = true /\
  number_toString num_4_5 = str "4.5" /\
  denotes_integer_in 1 5 (PNum num_4_5) = false.
Proof. repeat split; vm_compute; reflexivity. Qed.

(** For bounds that are safe integers, and a year given as a non-empty
    string of digits or as a number whose string form has no exponent,
    [isValidYear] is the range check on the integer part: fractions are
    dropped, not rejected. *)
Theorem isValidYear_range (minYear maxYear : Z) :
  safe_integer minYear -> safe_integer maxYear ->
  (forall ds : jsstring,
     ds <> [] -> Forall (fun c => isDigit c = true) ds ->
     isValidYear (PStr ds) minYear maxYear
     = (minYear <=? Z.of_N (digits_value ds))%Z
       && (Z.of_N (digits_value ds) <=? maxYear)%Z) /\
  (forall (neg : bool) (s : jsstring) (n : Z),
     wf_digits s -> (-6 < n <= 21)%Z ->
     let year := (if neg then - trunc_digits s n else trunc_digits s n)%Z in
     isValidYear (PNum (Finite neg s n)) minYear maxYear
     = (minYear <=? year)%Z && (year <=? maxYear)%Z).
Proof.
  intros Hmin Hmax. unfold safe_integer in Hmin, Hmax. split.
  - intros ds Hne Hall. unfold isValidYear.
    destruct (digit_string_number ds Hne Hall) as [-> ->].
    cbn [int_ge int_le]. rewrite round_double_ge, round_double_le by done.
    destruct (Z.ltb_spec (Z.of_N (digits_value ds)) ((2 ^ 54 - 1) * 2 ^ 970));
      cbn [negb]; [done|].
    symmetry. apply andb_false_iff. right. apply Z.leb_gt.
    assert (2 ^ 53 < (2 ^ 54 - 1) * 2 ^ 970)%Z by (vm_compute; reflexivity).
    lia.
  - intros neg s n Hwf Hn year. unfold isValidYear.
    rewrite isValidNumber_finite by done. cbn [negb].
    unfold parseInt. cbn [ToString].
    destruct (number_toString_plain neg s n Hwf Hn)
      as (ds & rest & -> & Hne & Hall & Hrest & Hval).
    rewrite parseInt_string_signed_digits by done.
    cbn [fmap option_fmap option_map int_ge int_le].
    rewrite round_double_ge, round_double_le by done.
    subst year. rewrite <- Hval. by destruct neg.
Qed.

Lemma isValidYear_range_witness :
  isValidYear (PStr (str "2024")) 1900 2025 = true /\
  isValidYear (PNum (Finite false (str "20209") 4)) 1900 2025 = true.
Proof.
  assert (H1900 : safe_integer 1900) by (vm_compute; split; reflexivity).
  assert (H2025 : safe_integer 2025) by (vm_compute; split; reflexivity).
  split.
  - rewrite (proj1 (isValidYear_range 1900 2025 H1900 H2025) (str "2024")).
    + vm_compute. reflexivity.
    + discriminate.
    + by repeat constructor.
  - rewrite (proj2 (isValidYear_range 1900 2025 H1900 H2025)
               false (str "20209") 4%Z).
    + vm_compute. reflexivity.
    + split; [by repeat constructor|].
      split; [by exists 50%N, (str "0209") | by exists 57%N, (str "2020")].
    + lia.
Defined.

(** For a rating given as a non-empty string of digits, [isValidRating]
    is exactly the test that its value is between 1 and 5. *)
Theorem isValidRating_digits (ds : jsstring) :
  ds <> [] -> Forall (fun c => isDigit c = true) ds ->
  isValidRating (PStr ds)
  = (1 <=? Z.of_N (digits_value ds))%Z && (Z.of_N (digits_value ds) <=? 5)%Z.
Proof.
  intros Hne Hall. unfold isValidRating.
  destruct (digit_string_number ds Hne Hall) as [-> ->].
  cbn [int_ge int_le].
  rewrite round_double_ge, round_double_le by (vm_compute; split; reflexivity).
  destruct (Z.ltb_spec (Z.of_N (digits_value ds)) ((2 ^ 54 - 1) * 2 ^ 970));
    cbn [negb]; [done|].
  symmetry. apply andb_false_iff. right. apply Z.leb_gt.
  assert (5 < (2 ^ 54 - 1) * 2 ^ 970)%Z by (vm_compute; reflexivity).
  lia.
Qed.

Lemma isValidRating_digits_witness :
  isValidRating (PStr (str "04")) = true.
Proof.
  rewrite (isValidRating_digits (str "04")).
  - vm_compute. reflexivity.
  - discriminate.
  - by repeat constructor.
Defined.

(** ** Decimal places of numbers *)

Lemma indexOf_absent (s : jsstring) (x : N) :
  Forall (fun c => c <> x) s -> indexOf s x = None.
Proof.
  induction 1 as [|c s Hc _ IH]; simpl; [done|].
  apply N.eqb_neq in Hc as ->. by rewrite IH.
Qed.

Lemma sign_of_no_point (neg : bool) : Forall (fun c => c <> 46%N) (sign_of neg).
Proof. destruct neg; by repeat constructor. Qed.

Lemma digits_no_point (s : jsstring) :
  Forall (fun c => isDigit c = true) s -> Forall (fun c => c <> 46%N) s.
Proof. intros H. eapply Forall_impl; [exact H|]. apply isDigit_not_point. Qed.

Lemma digits_value_last (s : jsstring) :
  wf_digits s -> (digits_value s mod 10 <> 0)%N.
Proof.
  intros (Hall & _ & (c & t & -> & Hc)).
  apply Forall_app in Hall as [_ Hlast]. inversion Hlast as [|? ? Hd _]; subst.
  apply isDigit_range in Hd.
  rewrite digits_value_app. simpl length. change (N.of_nat 1) with 1%N.
  rewrite N.pow_1_r, N.add_comm, N.Div0.mod_add.
  unfold digits_value. simpl. unfold digit_val.
  rewrite N.mod_small by lia. lia.
Qed.

(** Where the point is in the string form of a number without
    exponent: nowhere if the number is an integer, and otherwise before
    exactly [k - n] digits. *)
Lemma number_toString_point (neg : bool) (s : jsstring) (n : Z) :
  wf_digits s -> (-6 < n <= 21)%Z ->
  let k := Z.of_nat (length s) in
  let text := number_toString (Finite neg s n) in
  if (k <=? n)%Z then indexOf text 46 = None
  else exists i, indexOf text 46 = Some i /\
                 Z.of_nat (length (substring text (i + 1))) = (k - n)%Z.
Proof.
  intros Hwf Hn k text. pose proof Hwf as (Hall & _ & _).
  subst text. unfold number_toString.
  change (if neg then str "-" else []) with (sign_of neg). fold k.
  destruct (Z.leb_spec k n) as [Hkn|Hkn]; cbn [andb].
  - assert ((n <=? 21)%Z = true) as -> by (apply Z.leb_le; lia).
    apply indexOf_absent. rewrite !Forall_app. split; [apply sign_of_no_point|].
    split; [by apply digits_no_point|]. apply Forall_replicate. done.
  - destruct (Z.ltb_spec 0 n) as [Hpos|Hpos]; cbn [andb].
    + assert ((n <=? 21)%Z = true) as -> by (apply Z.leb_le; lia).
      exists (length (sign_of neg ++ take (Z.to_nat n) s)).
      change (str ".") with [46%N]. rewrite app_assoc. cbn [app].
      split.
      * apply indexOf_first. rewrite Forall_app.
        split; [apply sign_of_no_point|].
        apply digits_no_point. by apply Forall_take.
      * rewrite substring_after, length_drop. subst k. lia.
    + assert (((-6 <? n) && (n <=? 0))%Z = true) as ->.
      { apply andb_true_iff. split; [apply Z.ltb_lt|apply Z.leb_le]; lia. }
      exists (length (sign_of neg ++ [48%N])).
      change (str "0.") with ([48%N] ++ [46%N]).
      rewrite <- (app_assoc [48%N]), app_assoc. cbn [app].
      split.
      * apply indexOf_first. rewrite Forall_app.
        split; [apply sign_of_no_point|]. by repeat constructor.
      * rewrite substring_after, length_app, length_replicate. subst k. lia.
Qed.

(** On a number whose string form has no exponent, [hasValidDecimals]
    is exact: it answers whether the number has at most [maxDecimals]
    digits after the point. *)
Theorem hasValidDecimals_exact_on_plain_numbers
    (neg : bool) (s : jsstring) (n : Z) (maxDecimals : Z) :
  wf_digits s -> (-6 < n <= 21)%Z -> (0 <= maxDecimals)%Z ->
  hasValidDecimals (PNum (Finite neg s n)) maxDecimals
  = Normal (fraction_digits_le maxDecimals (exact_of_number (Finite neg s n))).
Proof.
  intros Hwf Hn Hmax. unfold hasValidDecimals.
  rewrite isValidNumber_finite by done.
  cbn [negb call_toString ToString mbind completion_bind].
  pose proof (number_toString_point neg s n Hwf Hn) as Hpoint.
  cbv zeta in Hpoint. unfold fraction_digits_le, exact_of_number.
  set (k := Z.of_nat (length s)) in *.
  destruct (Z.leb_spec k n) as [Hkn|Hkn].
  - rewrite Hpoint.
    assert ((0 <=? n - k + maxDecimals)%Z = true) as ->
      by (apply Z.leb_le; lia). done.
  - destruct Hpoint as (i & -> & Hlen). rewrite Hlen. f_equal.
    destruct (Z.leb_spec (k - n) maxDecimals) as [Hle|Hgt].
    + assert ((0 <=? n - k + maxDecimals)%Z = true) as ->
        by (apply Z.leb_le; lia). done.
    + assert ((0 <=? n - k + maxDecimals)%Z = false) as ->
        by (apply Z.leb_gt; lia).
      symmetry. apply Z.eqb_neq. intros Hmod.
      apply (digits_value_last s Hwf).
      apply Z.mod_divide in Hmod; [|apply Z.pow_nonzero; lia].
      assert (Hten : (10 | 10 ^ (- (n - k + maxDecimals)))%Z).
      { exists (10 ^ (- (n - k + maxDecimals) - 1))%Z.
        rewrite Z.mul_comm, <- Z.pow_succ_r by lia. f_equal. lia. }
      pose proof (Z.divide_trans _ _ _ Hten Hmod) as Hdiv.
      apply Z.mod_divide in Hdiv; [|lia].
      change 10%Z with (Z.of_N 10) in Hdiv. rewrite <- N2Z.inj_mod in Hdiv. lia.
Qed.

Lemma hasValidDecimals_exact_on_plain_numbers_witness :
  hasValidDecimals (PNum (Finite false (str "12345") 2)) 2 = Normal false.
Proof.
  rewrite (hasValidDecimals_exact_on_plain_numbers false (str "12345") 2 2).
  - vm_compute. reflexivity.
  - split; [by repeat constructor|].
    split; [by exists 49%N, (str "2345") | by exists 53%N, (str "1234")].
  - lia.
  - lia.
Defined.

(** ** What the forms let through *)

Lemma no_errors_empty (newErrors : gmap string jsstring) :
  no_errors newErrors = true -> newErrors = ∅.
Proof.
  unfold no_errors. intros H. apply bool_decide_eq_true in H.
  by apply map_size_empty_iff.
Qed.

Lemma keeps_empty e field : keeps e ∅ -> ~ is_Some (e !! field).
Proof.
  intros K H. apply K in H. rewrite lookup_empty in H. by destruct H.
Qed.

Lemma record_if_spec c field m e :
  c = false \/ is_Some (record_if c field m e !! field).
Proof.
  destruct c; [right|by left]. unfold record_if. rewrite lookup_insert_eq. eauto.
Qed.

Lemma record_required_spec p field m e e' :
  record_required p field m e = Normal e' ->
  keeps e e' /\ (isRequired p = Normal true \/ is_Some (e' !! field)).
Proof.
  intros H. split; [by eapply keeps_record_required|].
  unfold record_required in H. destruct (isRequired p) as [[]|] eqn:Hp;
    simpl in H; [by left| |done].
  injection H as <-. right. unfold record_if. rewrite lookup_insert_eq. eauto.
Qed.

Lemma record_required_min_spec p field missing min tooShort e e' :
  FormSteps.record_required_min p field missing min tooShort e = Normal e' ->
  keeps e e' /\
  ((exists s, p = PStr s /\ (min <= length (trim s))%nat
              /\ isRequired p = Normal true)
   \/ is_Some (e' !! field)).
Proof.
  unfold FormSteps.record_required_min. intros H.
  destruct (isRequired p) as [[]|] eqn:Hp; cbn [mbind completion_bind negb] in H;
    [| |done].
  - apply bind_Normal in H as (len & Hlen & H).
    apply trimmed_length_Normal in Hlen as (s & -> & ->).
    destruct (Nat.ltb_spec (length (trim s)) min); injection H as <-.
    + split; [apply keeps_insert|]. right. rewrite lookup_insert_eq. eauto.
    + split; [apply keeps_refl|]. left. by exists s.
  - injection H as <-. split; [apply keeps_insert|]. right.
    rewrite lookup_insert_eq. eauto.
Qed.

Lemma record_required_valid_spec p field missing check invalid e e' :
  FormSteps.record_required_valid p field missing check invalid e = Normal e' ->
  keeps e e' /\
  ((isRequired p = Normal true /\ check p = Normal true)
   \/ is_Some (e' !! field)).
Proof.
  unfold FormSteps.record_required_valid. intros H.
  destruct (isRequired p) as [[]|] eqn:Hp; cbn [mbind completion_bind negb] in H;
    [| |done].
  - apply bind_Normal in H as (ok & Hok & H).
    destruct ok; cbn [negb] in H; injection H as <-.
    + split; [apply keeps_refl|]. by left.
    + split; [apply keeps_insert|]. right. rewrite lookup_insert_eq. eauto.
  - injection H as <-. split; [apply keeps_insert|]. right.
    rewrite lookup_insert_eq. eauto.
Qed.

Lemma handleSubmit_plain_call {F} validated server (r : Api.request F) done ev :
  In ev (FormSteps.handleSubmit_plain validated server r done).1 ->
  is_call ev = true ->
  (exists errs, validated = Normal (errs, true)) /\ ev = Call r.
Proof.
  unfold FormSteps.handleSubmit_plain.
  destruct validated as [[errs ok]|e].
  - destruct ok; cbn [negb].
    + intros Hin Hev. split; [by exists errs|].
      destruct (submit server r done) as [events exn] eqn:Hs.
      pose proof (submit_calls server r done ev) as Hc. rewrite Hs in Hc.
      simpl in Hin, Hc. destruct Hin as [<-|[<-|Hin]]; try discriminate.
      by apply Hc.
    + simpl. intros [<-|[<-|[]]]; discriminate.
  - simpl. intros [<-|[]]; discriminate.
Qed.

Lemma isValidPhoneNumber_true (p : prim) :
  isValidPhoneNumber p = Normal true ->
  exists s, p = PStr s /\
    (10 <= length (filter (fun x => isDigit x = true) s) <= 11)%nat.
Proof.
  unfold isValidPhoneNumber. destruct (ToBoolean_prim p) eqn:Ht; [|done].
  destruct p; try discriminate. simpl. intros [= H].
  apply andb_true_iff in H as [H1 H2]. apply bool_decide_eq_true in H1, H2.
  by exists s.
Qed.

Lemma isValidEmail_true (p : prim) :
  isValidEmail p = Normal true ->
  exists s, p = PStr s /\ emailRegex_test (trim s) = true.
Proof.
  unfold isValidEmail. destruct (ToBoolean_prim p) eqn:Ht; [|done].
  destruct p; try discriminate. simpl. intros [= H]. by exists s.
Qed.

Lemma isValidRating_true (p : prim) :
  isValidRating p = true -> exists i, parseInt p = Some i /\ (1 <= i <= 5)%Z.
Proof.
  unfold isValidRating. destruct (isValidNumber p); [|done]. cbn [negb].
  destruct (parseInt p) as [i|]; [|done]. simpl.
  rewrite andb_true_iff, !Z.leb_le. intros H. by exists i.
Qed.

(** The customer form issues a create or update call only when the name
    is a string of at least 2 characters after trimming, the phone
    number is a string with 10 or 11 digits and the e-mail is a string
    that matches the pattern once trimmed; the body of the call is the
    form data as typed, untrimmed. *)
Theorem customer_form_submits_valid
    (server : Api.request CustomerForm.formData -> Api.settled)
    (customer : option prim) (fd : CustomerForm.formData)
    (ev : event CustomerForm.formData) :
  In ev (CustomerForm.handleSubmit server customer fd).1 ->
  is_call ev = true ->
  exists name phone mail r,
    CustomerForm.customer_name fd = PStr name /\
    CustomerForm.phone_number fd = PStr phone /\
    CustomerForm.email fd = PStr mail /\
    (2 <= length (trim name))%nat /\
    (10 <= length (filter (fun x => isDigit x = true) phone) <= 11)%nat /\
    emailRegex_test (trim mail) = true /\
    ev = Call r /\ Api.request_body r = fd.
Proof.
  intros Hin Hev.
  assert (Hval : (exists errs, CustomerForm.validateForm fd = Normal (errs, true))
                 /\ exists r, ev = Call r /\ Api.request_body r = fd).
  { unfold CustomerForm.handleSubmit in Hin. destruct customer;
      destruct (handleSubmit_plain_call _ _ _ _ _ Hin Hev) as [Hv ->];
      (split; [done|]); by eexists. }
  destruct Hval as [[errs Hval] (r & -> & Hbody)].
  unfold CustomerForm.validateForm in Hval.
  apply bind_Normal in Hval as (e1 & H1 & Hval).
  apply bind_Normal in Hval as (e2 & H2 & Hval).
  apply bind_Normal in Hval as (e3 & H3 & Hval).
  injection Hval as <- Hok. apply no_errors_empty in Hok. subst e3.
  apply record_required_valid_spec in H3 as [K3 [[_ Hmail]|Hbad]];
    [|by apply (keeps_empty _ _ (keeps_refl ∅)) in Hbad].
  apply record_required_valid_spec in H2 as [K2 [[_ Hphone]|Hbad]];
    [|by apply (keeps_empty _ _ K3) in Hbad].
  apply record_required_min_spec in H1 as [K1 [(name & Hname & Hlen & _)|Hbad]];
    [|by apply (keeps_empty _ _ (keeps_trans _ _ _ K2 K3)) in Hbad].
  apply isValidPhoneNumber_true in Hphone as (phone & Hp & Hdigits).
  apply isValidEmail_true in Hmail as (mail & Hm & Hpattern).
  by exists name, phone, mail, r.
Qed.

Lemma customer_form_submits_valid_witness :
  exists name,
    CustomerForm.customer_name customer_form = PStr name /\
    (2 <= length (trim name))%nat.
Proof.
  destruct (customer_form_submits_valid accepting None customer_form
              (Call (Api.customerService_create customer_form)))
    as (name & phone & mail & r & Hname & _ & _ & Hlen & _).
  - vm_compute. tauto.
  - reflexivity.
  - by exists name.
Defined.

(** The driver form issues a create or update call only when the name
    is a string of at least 2 characters after trimming, the phone
    number is a string with 10 or 11 digits and the license number is a
    string of at least 5 characters after trimming. *)
Theorem driver_form_submits_valid
    (server : Api.request DriverForm.formData -> Api.settled)
    (driver : option prim) (fd : DriverForm.formData)
    (ev : event DriverForm.formData) :
  In ev (DriverForm.handleSubmit server driver fd).1 ->
  is_call ev = true ->
  exists name phone license r,
    DriverForm.driver_name fd = PStr name /\
    DriverForm.phone_number fd = PStr phone /\
    DriverForm.license_number fd = PStr license /\
    (2 <= length (trim name))%nat /\
    (10 <= length (filter (fun x => isDigit x = true) phone) <= 11)%nat /\
    (5 <= length (trim license))%nat /\
    ev = Call r /\ Api.request_body r = fd.
Proof.
  intros Hin Hev.
  assert (Hval : (exists errs, DriverForm.validateForm fd = Normal (errs, true))
                 /\ exists r, ev = Call r /\ Api.request_body r = fd).
  { unfold DriverForm.handleSubmit in Hin. destruct driver;
      destruct (handleSubmit_plain_call _ _ _ _ _ Hin Hev) as [Hv ->];
      (split; [done|]); by eexists. }
  destruct Hval as [[errs Hval] (r & -> & Hbody)].
  unfold DriverForm.validateForm in Hval.
  apply bind_Normal in Hval as (e1 & H1 & Hval).
  apply bind_Normal in Hval as (e2 & H2 & Hval).
  apply bind_Normal in Hval as (e3 & H3 & Hval).
  injection Hval as <- Hok. apply no_errors_empty in Hok. subst e3.
  apply record_required_min_spec in H3 as [K3 [(license & Hl & Hllen & _)|Hbad]];
    [|by apply (keeps_empty _ _ (keeps_refl ∅)) in Hbad].
  apply record_required_valid_spec in H2 as [K2 [[_ Hphone]|Hbad]];
    [|by apply (keeps_empty _ _ K3) in Hbad].
  apply record_required_min_spec in H1 as [K1 [(name & Hname & Hlen & _)|Hbad]];
    [|by apply (keeps_empty _ _ (keeps_trans _ _ _ K2 K3)) in Hbad].
  apply isValidPhoneNumber_true in Hphone as (phone & Hp & Hdigits).
  by exists name, phone, license, r.
Qed.

Lemma driver_form_submits_valid_witness :
  exists license,
    DriverForm.license_number driver_form = PStr license /\
    (5 <= length (trim license))%nat.
Proof.
  destruct (driver_form_submits_valid accepting None driver_form
              (Call (Api.driverService_create driver_form)))
    as (name & phone & license & r & _ & _ & Hl & _ & _ & Hlen & _).
  - vm_compute. tauto.
  - reflexivity.
  - by exists license.
Defined.

(** The location form issues a create or update call only when the
    address, the city and the postal code are strings of at least 5, 2
    and 3 characters after trimming. *)
Theorem location_form_submits_valid
    (server : Api.request LocationForm.formData -> Api.settled)
    (location : option prim) (fd : LocationForm.formData)
    (ev : event LocationForm.formData) :
  In ev (LocationForm.handleSubmit server location fd).1 ->
  is_call ev = true ->
  exists address city postal r,
    LocationForm.address fd = PStr address /\
    LocationForm.city fd = PStr city /\
    LocationForm.postal_code fd = PStr postal /\
    (5 <= length (trim address))%nat /\
    (2 <= length (trim city))%nat /\
    (3 <= length (trim postal))%nat /\
    ev = Call r /\ Api.request_body r = fd.
Proof.
  intros Hin Hev.
  assert (Hval : (exists errs, LocationForm.validateForm fd = Normal (errs, true))
                 /\ exists r, ev = Call r /\ Api.request_body r = fd).
  { unfold LocationForm.handleSubmit in Hin. destruct location;
      destruct (handleSubmit_plain_call _ _ _ _ _ Hin Hev) as [Hv ->];
      (split; [done|]); by eexists. }
  destruct Hval as [[errs Hval] (r & -> & Hbody)].
  unfold LocationForm.validateForm in Hval.
  apply bind_Normal in Hval as (e1 & H1 & Hval).
  apply bind_Normal in Hval as (e2 & H2 & Hval).
  apply bind_Normal in Hval as (e3 & H3 & Hval).
  injection Hval as <- Hok. apply no_errors_empty in Hok. subst e3.
  apply record_required_min_spec in H3 as [K3 [(postal & Hp & Hplen & _)|Hbad]];
    [|by apply (keeps_empty _ _ (keeps_refl ∅)) in Hbad].
  apply record_required_min_spec in H2 as [K2 [(city & Hc & Hclen & _)|Hbad]];
    [|by apply (keeps_empty _ _ K3) in Hbad].
  apply record_required_min_spec in H1 as [K1 [(address & Ha & Halen & _)|Hbad]];
    [|by apply (keeps_empty _ _ (keeps_trans _ _ _ K2 K3)) in Hbad].
  by exists address, city, postal, r.
Qed.

Lemma location_form_submits_valid_witness :
  exists postal,
    LocationForm.postal_code location_form = PStr postal /\
    (3 <= length (trim postal))%nat.
Proof.
  destruct (location_form_submits_valid accepting None location_form
              (Call (Api.locationService_create location_form)))
    as (address & city & postal & r & _ & _ & Hp & _ & _ & Hlen & _).
  - vm_compute. tauto.
  - reflexivity.
  - by exists postal.
Defined.

(** Every rating the rating form submits carries a customer rating and
    a driver rating that are integers between 1 and 5, whatever was
    typed (4.6 is sent as 4), for a ride that was selected; the comments
    are sent as typed, or as null when left empty. *)
Theorem rating_form_submits_integers
    (server : Api.request RatingForm.submitData -> Api.settled)
    (rating : option prim) (fd : RatingForm.formData)
    (ev : event RatingForm.submitData) :
  In ev (RatingForm.handleSubmit server rating fd).1 ->
  is_call ev = true ->
  exists r c d,
    ev = Call r /\
    RatingForm.s_customer_rating (Api.request_body r) = Some c /\ (1 <= c <= 5)%Z /\
    RatingForm.s_driver_rating (Api.request_body r) = Some d /\ (1 <= d <= 5)%Z /\
    ToBoolean_prim (RatingForm.ride_id fd) = true /\
    RatingForm.s_ride_id (Api.request_body r) = parseInt (RatingForm.ride_id fd) /\
    (RatingForm.s_comments (Api.request_body r) = PNull \/
     RatingForm.s_comments (Api.request_body r) = RatingForm.comments fd /\
     ToBoolean_prim (RatingForm.comments fd) = true).
Proof.
  intros Hin Hev.
  assert (Hval : (exists errs, RatingForm.validateForm fd = Normal (errs, true))
    /\ exists r, ev = Call r /\
         RatingForm.s_customer_rating (Api.request_body r)
           = parseInt (RatingForm.customer_rating fd) /\
         RatingForm.s_driver_rating (Api.request_body r)
           = parseInt (RatingForm.driver_rating fd) /\
         RatingForm.s_ride_id (Api.request_body r)
           = parseInt (RatingForm.ride_id fd) /\
         RatingForm.s_comments (Api.request_body r)
           = if ToBoolean_prim (RatingForm.comments fd)
             then RatingForm.comments fd else PNull).
  { unfold RatingForm.handleSubmit in Hin. destruct rating;
      destruct (handleSubmit_plain_call _ _ _ _ _ Hin Hev) as [Hv ->];
      (split; [done|]); by eexists. }
  destruct Hval as [[errs Hval] (r & -> & Hc & Hd & Hride & Hcomments)].
  unfold RatingForm.validateForm in Hval.
  apply bind_Normal in Hval as (e2 & H2 & Hval).
  apply bind_Normal in Hval as (e3 & H3 & Hval).
  injection Hval as <- Hok. apply no_errors_empty in Hok. subst e3.
  apply record_required_valid_spec in H3 as [K3 [[_ Hdr]|Hbad]];
    [|by apply (keeps_empty _ _ (keeps_refl ∅)) in Hbad].
  apply record_required_valid_spec in H2 as [K2 [[_ Hcr]|Hbad]];
    [|by apply (keeps_empty _ _ K3) in Hbad].
  injection Hdr as Hdr. injection Hcr as Hcr.
  apply isValidRating_true in Hdr as (d & Hdi & Hdrange).
  apply isValidRating_true in Hcr as (c & Hci & Hcrange).
  exists r, c, d. split; [done|]. rewrite Hc, Hd, Hride, Hcomments.
  repeat split; try done; try lia.
  - destruct (record_if_spec (negb (ToBoolean_prim (RatingForm.ride_id fd)))
                "ride_id" (str "Please select a ride") ∅) as [Hr|Hbad].
    + by apply negb_false_iff in Hr.
    + by apply (keeps_empty _ _ (keeps_trans _ _ _ K2 K3)) in Hbad.
  - destruct (ToBoolean_prim (RatingForm.comments fd)); [by right|by left].
Qed.

Lemma rating_form_submits_integers_witness :
  exists r,
    RatingForm.s_customer_rating (Api.request_body r) = Some 4%Z /\
    RatingForm.s_comments (Api.request_body r) = PNull.
Proof.
  destruct (rating_form_submits_integers accepting None rating_form
    (Call (Api.ratingService_create {|
       RatingForm.s_ride_id := Some 7%Z;
       RatingForm.s_customer_rating := Some 4%Z;
       RatingForm.s_driver_rating := Some 5%Z;
       RatingForm.s_comments := PNull |})))
    as (r & c & d & Hr & _).
  - vm_compute. tauto.
  - reflexivity.
  - exists r. injection Hr as <-. split; reflexivity.
Defined.

(** ** The required fields of the ride, payment and vehicle forms *)

Lemma record_if_negb_spec (b : bool) field m e :
  b = true \/ is_Some (record_if (negb b) field m e !! field).
Proof.
  destruct b; [by left|right]. unfold record_if. cbn [negb].
  rewrite lookup_insert_eq. eauto.
Qed.

Lemma isRequired_total (p : prim) : exists b, isRequired p = Normal b.
Proof. rewrite isRequired_Normal. eauto. Qed.

Lemma ride_validate_all (h : host) (fd : RideForm.formData) errs :
  RideForm.validateForm h fd = Normal (errs, true) ->
  ToBoolean_prim (RideForm.customer_id fd) = true /\
  ToBoolean_prim (RideForm.driver_id fd) = true /\
  ToBoolean_prim (RideForm.vehicle_vin fd) = true /\
  ToBoolean_prim (RideForm.pickup_location fd) = true /\
  ToBoolean_prim (RideForm.dropoff_location fd) = true /\
  isRequired (RideForm.start_time fd) = Normal true /\
  isRequired (RideForm.arrival_time fd) = Normal true.
Proof.
  unfold RideForm.validateForm. intros H.
  set (e1 := record_if _ "customer_id" _ _) in H.
  set (e2 := record_if _ "driver_id" _ _) in H.
  set (e3 := record_if _ "vehicle_vin" _ _) in H.
  set (e4 := record_if _ "pickup_location" _ _) in H.
  set (e5 := if negb (ToBoolean_prim (RideForm.dropoff_location fd))
             then _ else _) in H.
  apply bind_Normal in H as (e6 & H6 & H).
  apply bind_Normal in H as (e7 & H7 & H).
  injection H as <- Hok. apply no_errors_empty in Hok. subst e7.
  assert (K6 : keeps e6 ∅ /\ isRequired (RideForm.arrival_time fd) = Normal true).
  { destruct (isRequired (RideForm.arrival_time fd)) as [[]|];
      cbn [mbind completion_bind negb] in H7; [| |done].
    - split; [|done].
      destruct (negb (isAfter h _ _)) in H7; injection H7 as H7;
        rewrite <- H7; auto with forms.
    - injection H7 as H7. apply (f_equal (fun e => e !! "arrival_time")) in H7.
      by rewrite lookup_insert_eq, lookup_empty in H7. }
  destruct K6 as [K6 Harrival].
  apply record_required_spec in H6 as [K56 [Hstart|Hbad]];
    [|by apply (keeps_empty _ _ K6) in Hbad].
  assert (K5 : keeps e5 ∅) by (by eapply keeps_trans).
  assert (K4 : keeps e4 ∅).
  { eapply keeps_trans; [|exact K5]. subst e5.
    repeat match goal with
           | |- context [if ?b then _ else _] => destruct b
           end; auto with forms. }
  assert (K3 : keeps e3 ∅)
    by (eapply keeps_trans; [|exact K4]; subst e4; auto with forms).
  assert (K2 : keeps e2 ∅)
    by (eapply keeps_trans; [|exact K3]; subst e3; auto with forms).
  assert (K1 : keeps e1 ∅)
    by (eapply keeps_trans; [|exact K2]; subst e2; auto with forms).
  assert (Hdrop : ToBoolean_prim (RideForm.dropoff_location fd) = true).
  { destruct (ToBoolean_prim (RideForm.dropoff_location fd)) eqn:Hd; [done|].
    exfalso. apply (keeps_empty e5 "dropoff_location" K5). subst e5.
    cbn [negb]. rewrite lookup_insert_eq. eauto. }
  repeat split; try done.
  - destruct (record_if_negb_spec (ToBoolean_prim (RideForm.customer_id fd))
      "customer_id" (str "Please select a customer") ∅) as [|Hbad]; [done|].
    by apply (keeps_empty _ _ K1) in Hbad.
  - destruct (record_if_negb_spec (ToBoolean_prim (RideForm.driver_id fd))
      "driver_id" (str "Please select a driver") e1) as [|Hbad]; [done|].
    by apply (keeps_empty _ _ K2) in Hbad.
  - destruct (record_if_negb_spec (ToBoolean_prim (RideForm.vehicle_vin fd))
      "vehicle_vin" (str "Please select a vehicle") e2) as [|Hbad]; [done|].
    by apply (keeps_empty _ _ K3) in Hbad.
  - destruct (record_if_negb_spec (ToBoolean_prim (RideForm.pickup_location fd))
      "pickup_location" (str "Please select a pickup location") e3)
      as [|Hbad]; [done|].
    by apply (keeps_empty _ _ K4) in Hbad.
Qed.

(** The ride form's validation never throws, whatever its fields hold,
    and the form issues a create or update call only when a customer, a
    driver, a vehicle, a pickup and a dropoff location are selected and
    both times are filled in. *)
Theorem ride_form_requires_all
    (h : host) (server : Api.request RideForm.submitData -> Api.settled)
    (ride : option prim) (fd : RideForm.formData) :
  (exists errs ok, RideForm.validateForm h fd = Normal (errs, ok)) /\
  forall ev, In ev (RideForm.handleSubmit h server ride fd).1 ->
    is_call ev = true ->
    ToBoolean_prim (RideForm.customer_id fd) = true /\
    ToBoolean_prim (RideForm.driver_id fd) = true /\
    ToBoolean_prim (RideForm.vehicle_vin fd) = true /\
    ToBoolean_prim (RideForm.pickup_location fd) = true /\
    ToBoolean_prim (RideForm.dropoff_location fd) = true /\
    isRequired (RideForm.start_time fd) = Normal true /\
    isRequired (RideForm.arrival_time fd) = Normal true.
Proof.
  split.
  - destruct (ride_validate_spec h fd) as (errs & Hval & _). eauto.
  - intros ev Hin Hev.
    destruct (ride_submit_call _ _ _ _ _ Hin Hev) as [[errs Hval] _].
    by eapply ride_validate_all.
Qed.

Lemma ride_form_requires_all_witness :
  isRequired (RideForm.arrival_time ride_form) = Normal true.
Proof.
  apply (proj2 (ride_form_requires_all ReferenceHost.utc accepting None ride_form)
    (Call (Api.rideService_create {|
       RideForm.s_customer_id := PStr (str "1");
       RideForm.s_driver_id := PStr (str "2");
       RideForm.s_vehicle_vin := PStr (str "1HGBH41JXMN109186");
       RideForm.s_pickup_location := PStr (str "4");
       RideForm.s_dropoff_location := PStr (str "5");
       RideForm.s_start_time := str "2024-01-01T08:00:00";
       RideForm.s_arrival_time := str "2024-01-01T08:30:00" |}))).
  - vm_compute. tauto.
  - reflexivity.
Defined.


Lemma payment_validate_all (fd : PaymentForm.formData) errs :
  PaymentForm.validateForm fd = Normal (errs, true) ->
  ToBoolean_prim (PaymentForm.ride_id fd) = true /\
  isRequired (PaymentForm.amount fd) = Normal true /\
  isValidPositiveNumber (PaymentForm.amount fd) = true /\
  hasValidDecimals (PaymentForm.amount fd) 2 = Normal true /\
  PaymentForm.exceeds_999999_99 (parseFloat (PaymentForm.amount fd)) = false /\
  ToBoolean_prim (PaymentForm.payment_method fd) = true /\
  ToBoolean_prim (PaymentForm.payment_status fd) = true /\
  isRequired (PaymentForm.payment_date fd) = Normal true.
Proof.
  unfold PaymentForm.validateForm. intros H.
  set (e1 := record_if _ "ride_id" _ _) in H.
  apply bind_Normal in H as (e2 & H2 & H).
  set (e3 := record_if _ "payment_method" _ _) in H.
  set (e4 := record_if _ "payment_status" _ _) in H.
  apply bind_Normal in H as (e5 & H5 & H).
  injection H as <- Hok. apply no_errors_empty in Hok. subst e5.
  apply record_required_spec in H5 as [K4 [Hdate|Hbad]];
    [|by apply (keeps_empty _ _ (keeps_refl ∅)) in Hbad].
  assert (K3 : keeps e3 ∅)
    by (eapply keeps_trans; [|exact K4]; subst e4; auto with forms).
  assert (K2 : keeps e2 ∅)
    by (eapply keeps_trans; [|exact K3]; subst e3; auto with forms).
  assert (Hamount : keeps e1 e2 /\
    isRequired (PaymentForm.amount fd) = Normal true /\
    isValidPositiveNumber (PaymentForm.amount fd) = true /\
    hasValidDecimals (PaymentForm.amount fd) 2 = Normal true /\
    PaymentForm.exceeds_999999_99 (parseFloat (PaymentForm.amount fd)) = false).
  { assert (Hbad : forall m, e2 <> <["amount" := m]> e1).
    { intros m ->. apply (keeps_empty _ "amount" K2).
      rewrite lookup_insert_eq. eauto. }
    destruct (isRequired (PaymentForm.amount fd)) as [[]|];
      cbn [mbind completion_bind negb] in H2; [| |done].
    2: { injection H2 as H2. symmetry in H2. by apply Hbad in H2. }
    destruct (isValidPositiveNumber (PaymentForm.amount fd)); cbn [negb] in H2.
    2: { injection H2 as H2. symmetry in H2. by apply Hbad in H2. }
    apply bind_Normal in H2 as (decimalsOk & Hdec & H2).
    destruct decimalsOk; cbn [negb] in H2.
    2: { injection H2 as H2. symmetry in H2. by apply Hbad in H2. }
    destruct (PaymentForm.exceeds_999999_99 _).
    { injection H2 as H2. symmetry in H2. by apply Hbad in H2. }
    injection H2 as <-. repeat split; try done. apply keeps_refl. }
  destruct Hamount as (K12 & Hreq & Hpos & Hdec & Hmax).
  assert (K1 : keeps e1 ∅) by (by eapply keeps_trans).
  repeat split; try done.
  - destruct (record_if_negb_spec (ToBoolean_prim (PaymentForm.ride_id fd))
      "ride_id" (str "Please select a ride") ∅) as [|Hbad]; [done|].
    by apply (keeps_empty _ _ K1) in Hbad.
  - destruct (record_if_negb_spec (ToBoolean_prim (PaymentForm.payment_method fd))
      "payment_method" (str "Please select a payment method") e2)
      as [|Hbad]; [done|].
    by apply (keeps_empty _ _ K3) in Hbad.
  - destruct (record_if_negb_spec (ToBoolean_prim (PaymentForm.payment_status fd))
      "payment_status" (str "Please select a payment status") e3)
      as [|Hbad]; [done|].
    by apply (keeps_empty _ _ K4) in Hbad.
Qed.

Lemma payment_submit_body h server payment fd ev :
  In ev (PaymentForm.handleSubmit h server payment fd).1 ->
  is_call ev = true ->
  (exists errs, PaymentForm.validateForm fd = Normal (errs, true)) /\
  exists r, ev = Call r /\
    Api.request_body r = {|
      PaymentForm.s_ride_id := PaymentForm.ride_id fd;
      PaymentForm.s_amount := parseFloat (PaymentForm.amount fd);
      PaymentForm.s_payment_method := PaymentForm.payment_method fd;
      PaymentForm.s_payment_status := PaymentForm.payment_status fd;
      PaymentForm.s_payment_date :=
        PaymentForm.formatForBackend h (PaymentForm.payment_date fd) |}.
Proof.
  unfold PaymentForm.handleSubmit.
  destruct (PaymentForm.validateForm fd) as [[errs ok]|e].
  - destruct ok; cbn [negb].
    + intros Hin Hev. split; [by exists errs|].
      destruct payment as [transaction_id|];
        match type of Hin with
        | context [submit server ?r ?d] =>
            destruct (submit server r d) as [events exn] eqn:Hs;
            assert (Hc : forall ev, In ev (submit server r d).1 ->
                           is_call ev = true -> ev = Call r)
              by (intros; by eapply submit_calls);
            rewrite Hs in Hc; simpl in Hin, Hc;
            destruct Hin as [<-|[<-|Hin]]; try discriminate;
            exists r; split; [by apply Hc|done]
        end.
    + simpl. intros [<-|[<-|[]]]; discriminate.
  - simpl. intros [<-|[]]; discriminate.
Qed.

(** The payment form issues a create or update call only when a ride, a
    method and a status are selected and the date is filled in.  The
    date is not checked to be a date: when it is not one, the call
    carries the text "NaN-NaN-NaN" as payment date. *)
Theorem payment_form_requires_all
    (h : host) (server : Api.request PaymentForm.submitData -> Api.settled)
    (payment : option prim) (fd : PaymentForm.formData)
    (ev : event PaymentForm.submitData) :
  In ev (PaymentForm.handleSubmit h server payment fd).1 ->
  is_call ev = true ->
  ToBoolean_prim (PaymentForm.ride_id fd) = true /\
  ToBoolean_prim (PaymentForm.payment_method fd) = true /\
  ToBoolean_prim (PaymentForm.payment_status fd) = true /\
  isRequired (PaymentForm.payment_date fd) = Normal true /\
  exists r, ev = Call r /\
    (Date_new h (PaymentForm.payment_date fd) = None ->
     PaymentForm.s_payment_date (Api.request_body r) = str "NaN-NaN-NaN").
Proof.
  intros Hin Hev.
  destruct (payment_submit_body _ _ _ _ _ Hin Hev)
    as [[errs Hval] (r & -> & Hbody)].
  destruct (payment_validate_all _ _ Hval)
    as (Hride & _ & _ & _ & _ & Hmethod & Hstatus & Hdate).
  repeat split; try done. exists r. split; [done|].
  intros Hnone. rewrite Hbody. cbn [PaymentForm.s_payment_date].
  unfold PaymentForm.formatForBackend. by rewrite Hnone.
Qed.

Lemma payment_form_requires_all_witness :
  exists r,
    PaymentForm.s_payment_date (Api.request_body r) = str "NaN-NaN-NaN".
Proof.
  destruct (payment_form_requires_all ReferenceHost.utc accepting None
    undated_payment_form
    (Call (Api.paymentService_create {|
       PaymentForm.s_ride_id := PStr (str "3");
       PaymentForm.s_amount := EDec false 2550 (-2);
       PaymentForm.s_payment_method := PStr (str "Cash");
       PaymentForm.s_payment_status := PStr (str "Completed");
       PaymentForm.s_payment_date := str "NaN-NaN-NaN" |})))
    as (_ & _ & _ & _ & r & _ & Hdate).
  - vm_compute. tauto.
  - reflexivity.
  - exists r. apply Hdate. vm_compute. reflexivity.
Defined.

(** Every amount the payment form submits from a field written without
    [e] and [E] is a whole number of cents between 0.01 and 999999.99:
    it is [m * 10^e] with [-2 <= e <= 0] and
    [1 <= m * 10^(e+2) <= 99999999]. *)
Theorem payment_amount_in_range
    (h : host) (server : Api.request PaymentForm.submitData -> Api.settled)
    (payment : option prim) (fd : PaymentForm.formData)
    (ev : event PaymentForm.submitData) :
  In ev (PaymentForm.handleSubmit h server payment fd).1 ->
  is_call ev = true ->
  Forall (fun c => c <> 101%N /\ c <> 69%N) (ToString (PaymentForm.amount fd)) ->
  exists r m e,
    ev = Call r /\
    PaymentForm.s_amount (Api.request_body r) = EDec false m e /\
    (-2 <= e <= 0)%Z /\
    (1 <= Z.of_N m * 10 ^ (e + 2) <= 99999999)%Z.
Proof.
  intros Hin Hev Hplain.
  destruct (payment_submit_body _ _ _ _ _ Hin Hev)
    as [[errs Hval] (r & -> & Hbody)].
  destruct (payment_validate_all _ _ Hval)
    as (_ & _ & Hpos & Hdec & Hmax & _).
  unfold isValidPositiveNumber in Hpos.
  destruct (isValidNumber (PaymentForm.amount fd)) eqn:Hnum; [|done].
  cbn [negb] in Hpos.
  unfold hasValidDecimals in Hdec. rewrite Hnum in Hdec. cbn [negb] in Hdec.
  assert (Hstr : call_toString (PaymentForm.amount fd)
                 = Normal (ToString (PaymentForm.amount fd))).
  { destruct (PaymentForm.amount fd); done. }
  rewrite Hstr in Hdec. cbn [mbind completion_bind] in Hdec.
  assert (Hamt : PaymentForm.s_amount (Api.request_body r)
                 = parseFloat (PaymentForm.amount fd)) by (by rewrite Hbody).
  unfold parseFloat in *.
  set (v := ToString (PaymentForm.amount fd)) in *.
  destruct (parseFloat_string v) as [|neg|neg m e] eqn:Hparse;
    [done | by destruct neg | ].
  destruct neg; [done|].
  destruct (parseFloat_string_plain v false m e Hparse Hplain) as [He Hfrac].
  assert (He2 : (-2 <= e)%Z).
  { destruct (indexOf v 46) as [i|]; [|lia].
    injection Hdec as Hdec. apply Z.leb_le in Hdec. lia. }
  try rewrite Hparse in Hamt.
  exists r, m, e. split; [done|]. split; [done|]. split; [lia|].
  assert (Hm : (1 <= Z.of_N m)%Z).
  { destruct m as [|p]; [|lia]. exfalso. clear -Hpos He He2.
    assert (e = -2 \/ e = -1 \/ e = 0)%Z as [-> | [-> | ->]] by lia;
      vm_compute in Hpos; discriminate. }
  unfold PaymentForm.exceeds_999999_99, rounds_above in Hmax.
  change (N.even PaymentForm.mantissa_999999_99) with true in Hmax.
  cbv iota in Hmax. unfold dec_gt_dyadic in Hmax.
  apply Z.ltb_ge in Hmax.
  change (2 * Z.of_N PaymentForm.mantissa_999999_99 + 1)%Z
    with 17179869012201309%Z in Hmax.
  assert (e = -2 \/ e = -1 \/ e = 0)%Z as [-> | [-> | ->]] by lia;
    repeat match type of Hmax with
           | context [(?b ^ Z.max ?x ?y)%Z] =>
               let n := eval vm_compute in (b ^ Z.max x y)%Z in
               change (b ^ Z.max x y)%Z with n in Hmax
           end;
    match goal with
    | |- context [(10 ^ ?x)%Z] =>
        let n := eval vm_compute in (10 ^ x)%Z in
        change (10 ^ x)%Z with n
    end; lia.
Qed.

Lemma payment_amount_in_range_witness :
  exists r m e,
    PaymentForm.s_amount (Api.request_body r) = EDec false m e /\
    (1 <= Z.of_N m * 10 ^ (e + 2) <= 99999999)%Z.
Proof.
  destruct (payment_amount_in_range ReferenceHost.utc accepting None
    ordinary_amount_form
    (Call (Api.paymentService_create {|
       PaymentForm.s_ride_id := PStr (str "3");
       PaymentForm.s_amount := EDec false 255 (-1);
       PaymentForm.s_payment_method := PStr (str "Cash");
       PaymentForm.s_payment_status := PStr (str "Completed");
       PaymentForm.s_payment_date := str "2024-01-15" |})))
    as (r & m & e & _ & H1 & _ & H2).
  - vm_compute. tauto.
  - reflexivity.
  - vm_compute. repeat constructor; discriminate.
  - by exists r, m, e.
Defined.

(** ** The vehicle form beyond the VIN *)

Lemma vehicle_validate_all (h : host) (fd : VehicleForm.formData) errs :
  VehicleForm.validateForm h fd = Normal (errs, true) ->
  (exists m, VehicleForm.model fd = PStr m /\ (2 <= length (trim m))%nat) /\
  isRequired (VehicleForm.color fd) = Normal true /\
  isValidYear_default h (VehicleForm.registration_year fd) = true /\
  ToBoolean_prim (VehicleForm.driver_id fd) = true.
Proof.
  unfold VehicleForm.validateForm. intros H.
  apply bind_Normal in H as (e1 & H1 & H).
  apply bind_Normal in H as (e2 & H2 & H).
  apply bind_Normal in H as (e3 & H3 & H).
  apply bind_Normal in H as (e4 & H4 & H).
  injection H as <- Hok. apply no_errors_empty in Hok.
  assert (K4 : keeps e4 ∅) by (rewrite <- Hok; auto with forms).
  destruct (record_if_negb_spec (ToBoolean_prim (VehicleForm.driver_id fd))
    "driver_id" (str "Please select a driver") e4) as [Hdriver|Hbad];
    [|rewrite Hok, lookup_empty in Hbad; by destruct Hbad].
  assert (Hyear : keeps e3 e4 /\
    isValidYear_default h (VehicleForm.registration_year fd) = true).
  { assert (Hbad : forall m, <["registration_year" := m]> e3 <> e4).
    { intros m <-. apply (keeps_empty _ "registration_year" K4).
      rewrite lookup_insert_eq. eauto. }
    destruct (isRequired (VehicleForm.registration_year fd)) as [[]|];
      cbn [mbind completion_bind negb] in H4; [| |done].
    2: { injection H4 as H4. by apply Hbad in H4. }
    destruct (isValidYear_default h _); cbn [negb] in H4.
    2: { injection H4 as H4. by apply Hbad in H4. }
    injection H4 as <-. split; [apply keeps_refl|done]. }
  destruct Hyear as [K34 Hyear].
  assert (K3 : keeps e3 ∅) by (by eapply keeps_trans).
  apply record_required_spec in H3 as [K23 [Hcolor|Hbad]];
    [|by apply (keeps_empty _ _ K3) in Hbad].
  assert (K2 : keeps e2 ∅) by (by eapply keeps_trans).
  assert (Hbad : forall m, <["model" := m]> e1 <> e2).
  { intros m <-. apply (keeps_empty _ "model" K2).
    rewrite lookup_insert_eq. eauto. }
  destruct (isRequired (VehicleForm.model fd)) as [[]|];
    cbn [mbind completion_bind negb] in H2; [| |done].
  2: { injection H2 as H2. by apply Hbad in H2. }
  apply bind_Normal in H2 as (len & Hlen & H2).
  apply trimmed_length_Normal in Hlen as (m & Hmodel & ->).
  destruct (Nat.ltb_spec (length (trim m)) 2).
  { injection H2 as H2. by apply Hbad in H2. }
  repeat split; try done. by exists m.
Qed.

(** The vehicle form issues a create or update call only when the model
    is a string of at least two characters once trimmed, the colour is
    not blank, the registration year passes [isValidYear] for 1900 to
    next year, and a driver is selected.  The call carries the form data
    as typed: the year is sent as the field holds it. *)
Theorem vehicle_form_requires_all
    (h : host) (server : Api.request VehicleForm.formData -> Api.settled)
    (vehicle : option prim) (fd : VehicleForm.formData)
    (ev : event VehicleForm.formData) :
  In ev (VehicleForm.handleSubmit h server vehicle fd).1 ->
  is_call ev = true ->
  (exists m, VehicleForm.model fd = PStr m /\ (2 <= length (trim m))%nat) /\
  isRequired (VehicleForm.color fd) = Normal true /\
  isValidYear (VehicleForm.registration_year fd) 1900 (current_year h + 1)
    = true /\
  ToBoolean_prim (VehicleForm.driver_id fd) = true /\
  exists r, ev = Call r /\ Api.request_body r = fd.
Proof.
  intros Hin Hev.
  assert (Hval : exists errs,
            VehicleForm.validateForm h fd = Normal (errs, true)).
  { revert Hin Hev. unfold VehicleForm.handleSubmit.
    destruct (VehicleForm.validateForm h fd) as [[errs ok]|e].
    - destruct ok; simpl.
      + intros _ _. by exists errs.
      + intros [<-|[<-|[]]]; discriminate.
    - simpl. intros [<-|[]]; discriminate. }
  destruct Hval as [errs Hval].
  destruct (vehicle_validate_all _ _ _ Hval) as (Hm & Hc & Hy & Hd).
  repeat split; try done.
  revert Hin. unfold VehicleForm.handleSubmit. rewrite Hval. cbn [negb].
  destruct vehicle as [vin|];
    match goal with
    | |- context [submit server ?r ?d] =>
        destruct (submit server r d) as [events exn] eqn:Hs;
        assert (Hcall : forall ev, In ev (submit server r d).1 ->
                          is_call ev = true -> ev = Call r)
          by (intros; by eapply submit_calls);
        rewrite Hs in Hcall; simpl; simpl in Hcall;
        intros [<-|[<-|Hin]]; try discriminate;
        exists r; split; [by apply Hcall|done]
    end.
Qed.

Lemma vehicle_form_requires_all_witness :
  isValidYear (VehicleForm.registration_year vehicle_form) 1900
    (current_year ReferenceHost.utc + 1) = true.
Proof.
  apply (vehicle_form_requires_all ReferenceHost.utc accepting None
           vehicle_form (Call (Api.vehicleService_create vehicle_form))).
  - vm_compute. tauto.
  - reflexivity.
Defined.

(** ** Hexadecimal strings *)

Lemma isRadixDigit_16_range (c : N) :
  isRadixDigit 16 c = true -> (48 <= c <= 122)%N.
Proof.
  unfold isRadixDigit, radix_digit, isDigit.
  destruct (N.leb_spec 48 c), (N.leb_spec c 57), (N.leb_spec 97 c),
    (N.leb_spec c 122), (N.leb_spec 65 c), (N.leb_spec c 90);
    cbn [andb]; try lia; done.
Qed.

Lemma hex_no_blank (x : N) (ds : jsstring) :
  x = 120%N \/ x = 88%N ->
  Forall (fun c => isRadixDigit 16 c = true) ds ->
  Forall (fun c => isWhiteSpace c = false) (48%N :: x :: ds).
Proof.
  intros Hx Hall. constructor; [done|].
  constructor; [by destruct Hx as [-> | ->]|].
  eapply Forall_impl; [exact Hall|]. cbv beta. intros c Hc.
  apply isRadixDigit_16_range in Hc. unfold isWhiteSpace. cases_N; try done.
Qed.

(** A string in hexadecimal notation is read in two ways: [isFinite]
    and [parseInt] read [0x7E8] as 2024, [parseFloat] reads its leading
    0 and stops.  So for [0x] or [0X] followed by hexadecimal digits of
    value [v], [isValidNumber] is true, [isValidPositiveNumber] is false
    whatever [v] is, [hasValidDecimals] is true, and [isValidYear], for
    bounds that are safe integers, and [isValidRating] are the range
    checks on [v]. *)
Theorem hexadecimal_strings (x : N) (ds : jsstring) (maxDecimals : Z) :
  x = 120%N \/ x = 88%N ->
  ds <> [] ->
  Forall (fun c => isRadixDigit 16 c = true) ds ->
  (Z.of_N (radix_value 16 ds) < (2 ^ 54 - 1) * 2 ^ 970)%Z ->
  let hex := PStr (48%N :: x :: ds) in
  let v := Z.of_N (radix_value 16 ds) in
  isValidNumber hex = true /\
  isValidPositiveNumber hex = false /\
  hasValidDecimals hex maxDecimals = Normal true /\
  (forall minYear maxYear : Z,
     safe_integer minYear -> safe_integer maxYear ->
     isValidYear hex minYear maxYear
     = (minYear <=? v)%Z && (v <=? maxYear)%Z) /\
  isValidRating hex = (1 <=? v)%Z && (v <=? 5)%Z.
Proof.
  intros Hx Hne Hall Hfin hex v.
  pose proof (hex_no_blank x ds Hx Hall) as Hblank.
  assert (Hfloat : parseFloat hex = EDec false 0 0).
  { unfold parseFloat, parseFloat_string. cbn [ToString hex].
    by destruct Hx as [-> | ->]. }
  assert (Hnumber : ToNumber hex = EDec false (radix_value 16 ds) 0).
  { cbn [ToNumber hex]. unfold StringToNumber. rewrite trim_no_blank by done.
    assert (scan_non_decimal (48%N :: x :: ds) = Some (radix_value 16 ds))
      as ->; [|done].
    unfold scan_non_decimal.
    assert (Hb : forallb (isRadixDigit 16) ds = true).
    { clear -Hall. induction Hall as [|c t Hc _ IH]; [done|].
      simpl. by rewrite Hc, IH. }
    destruct ds as [|d ds']; [done|].
    destruct Hx as [-> | ->]; cbn [N.eqb Pos.eqb orb]; by rewrite Hb. }
  assert (Hint : parseInt hex = Some (round_double v)).
  { unfold parseInt, parseInt_string. cbn [ToString hex].
    assert (trimStart (48%N :: x :: ds) = 48%N :: x :: ds) as ->
      by done.
    assert (scan_sign (48%N :: x :: ds) = (false, 48%N :: x :: ds)) as ->
      by done.
    assert (scan_radix (48%N :: x :: ds) = (16%N, ds)) as ->
      by (by destruct Hx as [-> | ->]).
    pose proof (span_all (isRadixDigit 16) ds [] Hall I) as Hspan.
    rewrite app_nil_r in Hspan. rewrite Hspan.
    destruct ds; done. }
  assert (Hfinite : isFinite hex = true).
  { change (isFinite hex) with (rounds_to_finite (ToNumber hex)).
    rewrite Hnumber. unfold rounds_to_finite, dec_lt_dyadic.
    apply Z.ltb_lt.
    change (10 ^ Z.max 0 0)%Z with 1%Z. change (10 ^ Z.max 0 (- 0))%Z with 1%Z.
    change (Z.max 0 970) with 970%Z.
    replace (2 ^ Z.max 0 (- (970)))%Z with 1%Z by reflexivity.
    rewrite !Z.mul_1_r. exact Hfin. }
  assert (Hvalid : isValidNumber hex = true).
  { unfold isValidNumber. rewrite Hfloat, Hfinite. done. }
  split; [done|]. split; [|split; [|split]].
  - unfold isValidPositiveNumber. by rewrite Hvalid, Hfloat.
  - unfold hasValidDecimals. rewrite Hvalid. subst hex.
    cbn [negb call_toString ToString mbind completion_bind].
    assert (indexOf (48%N :: x :: ds) 46 = None) as ->; [|done].
    apply indexOf_absent. constructor; [done|].
    constructor; [by destruct Hx as [-> | ->]|].
    eapply Forall_impl; [exact Hall|]. cbv beta. intros c Hc.
    apply isRadixDigit_16_range in Hc. lia.
  - intros minYear maxYear Hmin Hmax. unfold isValidYear.
    rewrite Hvalid, Hint. cbn [negb int_ge int_le].
    by rewrite round_double_ge, round_double_le.
  - unfold isValidRating. rewrite Hvalid, Hint. cbn [negb int_ge int_le].
    by rewrite round_double_ge, round_double_le
      by (vm_compute; split; reflexivity).
Qed.

Lemma hexadecimal_strings_witness :
  isValidYear (PStr (str "0x7E8")) 1900 2025 = true /\
  isValidPositiveNumber (PStr (str "0x7E8")) = false.
Proof.
  destruct (hexadecimal_strings 120 (str "7E8") 2)
    as (_ & Hpos & _ & Hyear & _).
  - by left.
  - discriminate.
  - by repeat constructor.
  - vm_compute. reflexivity.
  - split; [|exact Hpos].
    etransitivity; [apply (Hyear 1900%Z 2025%Z)|];
      vm_compute; (reflexivity || (split; reflexivity)).
Defined.
